(** * A shallow embedding of the portfolio application (app.py)

    The application is a Flask program: request handlers over a relational
    store, a JSON-encoded certification list kept in a text column, an
    upload helper and a PDF content assembler.  Python strings are modelled
    as sequences of Unicode code points, exceptions as an error monad,
    handlers as state transformers over an explicit world (tables, upload
    directory, flashed messages). *)

From Stdlib Require Import List ZArith NArith Bool Lia.
From Stdlib Require Strings.Ascii Strings.String Strings.Byte.
Import ListNotations.
Import Ascii.AsciiSyntax String.StringSyntax.

Abbreviation string := String.string.
Abbreviation ascii := Ascii.ascii.
Delimit Scope string_scope with string.
Delimit Scope char_scope with char.
Bind Scope string_scope with String.string.
Bind Scope char_scope with Ascii.ascii.

Set Warnings "-register-all".

(* ================================================================== *)
(** * Python strings *)
(* ================================================================== *)

(** A Python [str] is a sequence of code points (0 .. 0x10FFFF). *)
Definition pystr := list N.

(** A string literal of the source (ASCII only). *)
Definition lit (s : string) : pystr := map Ascii.N_of_ascii (String.list_ascii_of_string s).
Arguments lit s%_string.

(** [ord(c)] of a one-character ASCII literal.  The double quote is
    written by its code, 34, and the backslash, for uniformity, by 92. *)
Definition ord (a : ascii) : N := Ascii.N_of_ascii a.
Arguments ord a%_char.

Fixpoint pystr_eqb (a b : pystr) : bool :=
  match a, b with
  | [], [] => true
  | x :: a', y :: b' => N.eqb x y && pystr_eqb a' b'
  | _, _ => false
  end.

(** [s.startswith(p)] *)
Fixpoint startswith (p s : pystr) : bool :=
  match p, s with
  | [], _ => true
  | x :: p', y :: s' => N.eqb x y && startswith p' s'
  | _ :: _, [] => false
  end.

(** [c in s] for a one-character [c]. *)
Definition contains (c : N) (s : pystr) : bool := existsb (N.eqb c) s.

(** Truth value of a string: non-empty. *)
Definition str_truthy (s : pystr) : bool :=
  match s with [] => false | _ => true end.

(** [str.isspace] on one code point: the code points CPython's
    [_PyUnicode_IsWhitespace] accepts. *)
Definition py_isspace (c : N) : bool :=
  ((9 <=? c) && (c <=? 13) || (28 <=? c) && (c <=? 32) ||
   (c =? 133) || (c =? 160) || (c =? 5760) ||
   (8192 <=? c) && (c <=? 8202) || (c =? 8232) || (c =? 8233) ||
   (c =? 8239) || (c =? 8287) || (c =? 12288))%N.

Fixpoint lstrip (s : pystr) : pystr :=
  match s with
  | c :: s' => if py_isspace c then lstrip s' else s
  | [] => []
  end.

Definition rstrip (s : pystr) : pystr := rev (lstrip (rev s)).

(** [s.strip()] *)
Definition strip (s : pystr) : pystr := rstrip (lstrip s).

(** [str.lower] on one code point.  Only its effect on membership in an
    ASCII word set matters here: ASCII capitals map to their small letters,
    the Kelvin sign U+212A is the one non-ASCII code point whose lower case
    is an ASCII letter, U+0130 lowers to two code points, and every other
    code point above 127 stays above 127 (it is kept as it is). *)
Definition lower_char (c : N) : pystr :=
  (if (65 <=? c) && (c <=? 90) then [c + 32]
   else if c =? 8490 then [107]
   else if c =? 304 then [105; 775]
   else [c])%N.

Definition lower (s : pystr) : pystr := flat_map lower_char s.

(** [sep.join(parts)] *)
Fixpoint join (sep : pystr) (parts : list pystr) : pystr :=
  match parts with
  | [] => []
  | [p] => p
  | p :: ps => p ++ sep ++ join sep ps
  end.

(* ================================================================== *)
(** * Exceptions *)
(* ================================================================== *)

Inductive exn : Type :=
| JSONDecodeError (msg : string)
| StopIteration
| RecursionError
| IndexError
| TypeError
| AttributeError
| IntegrityError (detail : string)
| HTTPException (code : Z).

Inductive result (A : Type) : Type :=
| Ok (a : A)
| Raise (e : exn).
Arguments Ok {A} a.
Arguments Raise {A} e.

Definition rbind {A B} (r : result A) (k : A -> result B) : result B :=
  match r with
  | Ok a => k a
  | Raise e => Raise e
  end.

Declare Scope result_scope.
Delimit Scope result_scope with result.
Notation "x <- c ;; k" := (rbind c (fun x => k))
  (at level 61, c at next level, right associativity) : result_scope.
Notation "' p <- c ;; k" := (rbind c (fun p => k))
  (at level 61, p pattern, c at next level, right associativity) : result_scope.

(** [try: r / except: handler] *)
Definition catch {A} (r : result A) (handler : exn -> result A) : result A :=
  match r with
  | Ok a => Ok a
  | Raise e => handler e
  end.

(** [seq[i]] on a list: [IndexError] out of range. *)
Definition getitem {A} (l : list A) (i : nat) : result A :=
  match nth_error l i with
  | Some a => Ok a
  | None => Raise IndexError
  end.

(* ================================================================== *)
(** * Python values that JSON can carry *)
(* ================================================================== *)

(** A [dict] with string keys keeps its items in insertion order.  A float
    is kept by the text it was read from. *)
Inductive py_value : Type :=
| PNone
| PBool (b : bool)
| PInt (z : Z)
| PFloat (lexeme : pystr)
| PStr (s : pystr)
| PList (l : list py_value)
| PDict (items : list (pystr * py_value)).

(** [d[k] = v]: replaces the value in place, or appends a new item. *)
Fixpoint dict_set (k : pystr) (v : py_value) (d : list (pystr * py_value))
  : list (pystr * py_value) :=
  match d with
  | [] => [(k, v)]
  | (k', v') :: d' =>
      if pystr_eqb k k' then (k', v) :: d' else (k', v') :: dict_set k v d'
  end.

(** [dict(pairs)] *)
Definition dict_of_pairs (pairs : list (pystr * py_value)) : list (pystr * py_value) :=
  fold_left (fun d kv => dict_set (fst kv) (snd kv) d) pairs [].

(** [d.get(k, default)] *)
Fixpoint dict_get (k : pystr) (d : list (pystr * py_value)) (default : py_value)
  : py_value :=
  match d with
  | [] => default
  | (k', v) :: d' => if pystr_eqb k k' then v else dict_get k d' default
  end.

(** Truth value of a value ([if v:]); [float_nonzero] is the truth value
    of the float read from a lexeme. *)
Definition truthy (float_nonzero : pystr -> bool) (v : py_value) : bool :=
  match v with
  | PNone => false
  | PBool b => b
  | PInt z => negb (Z.eqb z 0)
  | PFloat x => float_nonzero x
  | PStr s => str_truthy s
  | PList l => match l with [] => false | _ => true end
  | PDict d => match d with [] => false | _ => true end
  end.

(* ================================================================== *)
(** * json.loads: the decoder of the standard library

    The functions follow [json/decoder.py], [json/scanner.py] and
    [json/encoder.py] of CPython 3.11, one definition per function of the
    library.  The decoder is written over the text that is left to read
    (the library keeps the whole text and an index into it).  Positions of
    errors are not kept, and the limits of the interpreter (the depth of
    recursion, the number of digits of an integer literal) are not
    modelled: text that runs into one raises there, and is read here. *)
(* ================================================================== *)

Module Json.

Local Open Scope N_scope.

(** WHITESPACE: blank, tab, line feed, carriage return. *)
Definition is_ws (c : N) : bool :=
  (c =? 32) || (c =? 9) || (c =? 10) || (c =? 13).

(** [_w(s, end).end()] *)
Fixpoint skip_ws (s : pystr) : pystr :=
  match s with
  | c :: s' => if is_ws c then skip_ws s' else s
  | [] => []
  end.

Definition is_digit (c : N) : bool := (48 <=? c) && (c <=? 57).

Definition hexval (c : N) : option N :=
  if (48 <=? c) && (c <=? 57) then Some (c - 48)
  else if (97 <=? c) && (c <=? 102) then Some (c - 87)
  else if (65 <=? c) && (c <=? 70) then Some (c - 55)
  else None.

(** [_decode_uXXXX]: four hexadecimal digits (the accelerated scanner's
    reading of them: digits only, no sign, blank or underscore). *)
Definition decode_uXXXX (h1 h2 h3 h4 : N) : option N :=
  match hexval h1, hexval h2, hexval h3, hexval h4 with
  | Some a, Some b, Some c, Some d => Some (((a * 16 + b) * 16 + c) * 16 + d)
  | _, _, _, _ => None
  end.

(** BACKSLASH *)
Definition backslash (esc : N) : option N :=
  if esc =? 34 then Some 34
  else if esc =? 92 then Some 92
  else if esc =? ord "/" then Some (ord "/")
  else if esc =? ord "b" then Some 8
  else if esc =? ord "f" then Some 12
  else if esc =? ord "n" then Some 10
  else if esc =? ord "r" then Some 13
  else if esc =? ord "t" then Some 9
  else None.

Definition is_high_surrogate (u : N) : bool := (0xd800 <=? u) && (u <=? 0xdbff).
Definition is_low_surrogate (u : N) : bool := (0xdc00 <=? u) && (u <=? 0xdfff).

Definition emit (c : N) (r : result (pystr * pystr)) : result (pystr * pystr) :=
  match r with
  | Ok (content, rest) => Ok (c :: content, rest)
  | Raise e => Raise e
  end.

(** [py_scanstring(s, end, strict=True)]: [s] starts after the opening
    quote; the result is the decoded string and the text after the closing
    quote. *)
Fixpoint scanstring (s : pystr) : result (pystr * pystr) :=
  match s with
  | [] => Raise (JSONDecodeError "Unterminated string starting at")
  | c :: s1 =>
      if c =? 34 then Ok ([], s1)
      else if c =? 92 then
        match s1 with
        | [] => Raise (JSONDecodeError "Unterminated string starting at")
        | esc :: s2 =>
            if negb (esc =? ord "u") then
              match backslash esc with
              | Some char => emit char (scanstring s2)
              | None => Raise (JSONDecodeError "Invalid \\escape")
              end
            else
              match s2 with
              | h1 :: h2 :: h3 :: h4 :: s3 =>
                  match decode_uXXXX h1 h2 h3 h4 with
                  | None => Raise (JSONDecodeError "Invalid \\uXXXX escape")
                  | Some uni =>
                      if is_high_surrogate uni then
                        match s3 with
                        | b :: u :: s3' =>
                            if (b =? 92) && (u =? ord "u") then
                              match s3' with
                              | k1 :: k2 :: k3 :: k4 :: s4 =>
                                  match decode_uXXXX k1 k2 k3 k4 with
                                  | None =>
                                      Raise (JSONDecodeError "Invalid \\uXXXX escape")
                                  | Some uni2 =>
                                      if is_low_surrogate uni2 then
                                        emit (0x10000 +
                                              N.lor (N.shiftl (uni - 0xd800) 10)
                                                    (uni2 - 0xdc00))
                                             (scanstring s4)
                                      else emit uni (scanstring s3)
                                  end
                              | _ => Raise (JSONDecodeError "Invalid \\uXXXX escape")
                              end
                            else emit uni (scanstring s3)
                        | _ => emit uni (scanstring s3)
                        end
                      else emit uni (scanstring s3)
                  end
              | _ => Raise (JSONDecodeError "Invalid \\uXXXX escape")
              end
        end
      else if c <? 32 then Raise (JSONDecodeError "Invalid control character at")
      else emit c (scanstring s1)
  end.

(** The decimal digits at the head of [s], and the rest. *)
Fixpoint span_digits (s : pystr) : pystr * pystr :=
  match s with
  | c :: s' =>
      if is_digit c then let (ds, r) := span_digits s' in (c :: ds, r)
      else ([], s)
  | [] => ([], [])
  end.

(** [int(lexeme)] for an optional minus sign and decimal digits. *)
Definition int_of_digits (ds : pystr) : Z :=
  fold_left (fun acc d => (acc * 10 + Z.of_N (d - 48))%Z) ds 0%Z.

Definition parse_int (lexeme : pystr) : Z :=
  match lexeme with
  | c :: ds => if c =? ord "-" then (- int_of_digits ds)%Z
               else int_of_digits lexeme
  | [] => 0%Z
  end.

(** The three groups of NUMBER_RE.  The integer part: an optional minus
    sign, then a single 0 or a non-zero digit and more digits. *)
Definition match_integer (s : pystr) : option (pystr * pystr) :=
  let (sign, s0) :=
    match s with
    | c :: s' => if c =? ord "-" then ([c], s') else ([], s)
    | [] => ([], s)
    end in
  match s0 with
  | c :: s' =>
      if c =? ord "0" then Some (sign ++ [c], s')
      else if is_digit c then
        let (ds, r) := span_digits s' in Some (sign ++ c :: ds, r)
      else None
  | [] => None
  end.

(** The optional fraction: a dot and at least one digit. *)
Definition match_frac (s : pystr) : pystr * pystr :=
  match s with
  | c :: s' =>
      if c =? ord "." then
        match span_digits s' with
        | ([], _) => ([], s)
        | (ds, r) => (c :: ds, r)
        end
      else ([], s)
  | [] => ([], s)
  end.

(** The optional exponent: e or E, an optional sign, at least one digit. *)
Definition match_exp (s : pystr) : pystr * pystr :=
  match s with
  | e :: s' =>
      if (e =? ord "e") || (e =? ord "E") then
        let (sg, s'') :=
          match s' with
          | g :: t => if (g =? ord "-") || (g =? ord "+") then ([g], t) else ([], s')
          | [] => ([], s')
          end in
        match span_digits s'' with
        | ([], _) => ([], s)
        | (ds, r) => (e :: sg ++ ds, r)
        end
      else ([], s)
  | [] => ([], s)
  end.

(** NUMBER_RE matched at the head of [s]: the three groups (an absent
    group is empty) and the rest. *)
Definition match_number (s : pystr) : option (pystr * pystr * pystr * pystr) :=
  match match_integer s with
  | None => None
  | Some (integer, s1) =>
      let (frac, s2) := match_frac s1 in
      let (exp, s3) := match_exp s2 in
      Some (integer, frac, exp, s3)
  end.

(** The part of [_scan_once] that reads no nested value: literals,
    numbers and the three constants. *)
Definition scan_atom (s : pystr) : result (py_value * pystr) :=
  match s with
  | [] => Raise StopIteration
  | nextchar :: _ =>
      if (nextchar =? ord "n") && startswith (lit "null") s then
        Ok (PNone, skipn 4 s)
      else if (nextchar =? ord "t") && startswith (lit "true") s then
        Ok (PBool true, skipn 4 s)
      else if (nextchar =? ord "f") && startswith (lit "false") s then
        Ok (PBool false, skipn 5 s)
      else
        match match_number s with
        | Some (integer, frac, exp, rest) =>
            if str_truthy frac || str_truthy exp
            then Ok (PFloat (integer ++ frac ++ exp), rest)
            else Ok (PInt (parse_int integer), rest)
        | None =>
            if (nextchar =? ord "N") && startswith (lit "NaN") s then
              Ok (PFloat (lit "NaN"), skipn 3 s)
            else if (nextchar =? ord "I") && startswith (lit "Infinity") s then
              Ok (PFloat (lit "Infinity"), skipn 8 s)
            else if (nextchar =? ord "-") && startswith (lit "-Infinity") s then
              Ok (PFloat (lit "-Infinity"), skipn 9 s)
            else Raise StopIteration
        end
  end.

(** A [StopIteration] of the scanner becomes "Expecting value". *)
Definition expecting_value {A} (r : result A) : result A :=
  match r with
  | Raise StopIteration => Raise (JSONDecodeError "Expecting value")
  | _ => r
  end.

(** One turn of the [while True] loop of [JSONObject]: [s] starts after the
    opening quote of a key; [loop] is the next turn. *)
Definition object_pair (scan_once : pystr -> result (py_value * pystr))
                       (loop : pystr -> list (pystr * py_value) -> result (py_value * pystr))
                       (s : pystr) (pairs : list (pystr * py_value))
  : result (py_value * pystr) :=
  match scanstring s with
  | Raise e => Raise e
  | Ok (key, s1) =>
      let s2 := match s1 with
                | c :: _ => if c =? ord ":" then s1 else skip_ws s1
                | [] => s1
                end in
      match s2 with
      | c :: s3 =>
          if c =? ord ":" then
            match expecting_value (scan_once (skip_ws s3)) with
            | Raise e => Raise e
            | Ok (value, s4) =>
                let pairs' := pairs ++ [(key, value)] in
                match skip_ws s4 with
                | nextchar :: s5 =>
                    if nextchar =? ord "}" then
                      Ok (PDict (dict_of_pairs pairs'), s5)
                    else if nextchar =? ord "," then
                      match skip_ws s5 with
                      | q :: s6 =>
                          if q =? 34 then loop s6 pairs'
                          else Raise (JSONDecodeError
                             "Expecting property name enclosed in double quotes")
                      | [] => Raise (JSONDecodeError
                             "Expecting property name enclosed in double quotes")
                      end
                    else Raise (JSONDecodeError "Expecting ',' delimiter")
                | [] => Raise (JSONDecodeError "Expecting ',' delimiter")
                end
            end
          else Raise (JSONDecodeError "Expecting ':' delimiter")
      | [] => Raise (JSONDecodeError "Expecting ':' delimiter")
      end
  end.

(** [JSONObject]: [s] starts after the opening brace. *)
Definition JSONObject (loop : pystr -> list (pystr * py_value) -> result (py_value * pystr))
                      (s : pystr) : result (py_value * pystr) :=
  let s2 := match s with
            | c :: _ => if c =? 34 then s else skip_ws s
            | [] => s
            end in
  match s2 with
  | c :: s3 =>
      if c =? ord "}" then Ok (PDict [], s3)
      else if c =? 34 then loop s3 []
      else Raise (JSONDecodeError "Expecting property name enclosed in double quotes")
  | [] => Raise (JSONDecodeError "Expecting property name enclosed in double quotes")
  end.

(** One turn of the [while True] loop of [JSONArray]: [s] starts at a
    value; [loop] is the next turn. *)
Definition array_item (scan_once : pystr -> result (py_value * pystr))
                      (loop : pystr -> list py_value -> result (py_value * pystr))
                      (s : pystr) (values : list py_value)
  : result (py_value * pystr) :=
  match expecting_value (scan_once s) with
  | Raise e => Raise e
  | Ok (value, s1) =>
      let values' := values ++ [value] in
      match skip_ws s1 with
      | nextchar :: s2 =>
          if nextchar =? ord "]" then Ok (PList values', s2)
          else if nextchar =? ord "," then loop (skip_ws s2) values'
          else Raise (JSONDecodeError "Expecting ',' delimiter")
      | [] => Raise (JSONDecodeError "Expecting ',' delimiter")
      end
  end.

(** [JSONArray]: [s] starts after the opening bracket. *)
Definition JSONArray (loop : pystr -> list py_value -> result (py_value * pystr))
                     (s : pystr) : result (py_value * pystr) :=
  let s2 := skip_ws s in
  match s2 with
  | c :: s3 => if c =? ord "]" then Ok (PList [], s3) else loop s2 []
  | [] => loop s2 []
  end.

(** [_scan_once], given the parsers of objects and arrays. *)
Definition scan_value (parse_object parse_array : pystr -> result (py_value * pystr))
                      (s : pystr) : result (py_value * pystr) :=
  match s with
  | [] => Raise StopIteration
  | nextchar :: s1 =>
      if nextchar =? 34 then
        match scanstring s1 with
        | Ok (str, rest) => Ok (PStr str, rest)
        | Raise e => Raise e
        end
      else if nextchar =? ord "{" then parse_object s1
      else if nextchar =? ord "[" then parse_array s1
      else scan_atom s
  end.

(** The scanner and the two loops, tied together.  [fuel] bounds the
    number of calls that are still allowed. *)
Fixpoint scan_once (fuel : nat) (s : pystr) : result (py_value * pystr) :=
  match fuel with
  | O => Raise RecursionError
  | S fuel' =>
      scan_value (JSONObject (object_loop fuel')) (JSONArray (array_loop fuel')) s
  end

with object_loop (fuel : nat) (s : pystr) (pairs : list (pystr * py_value))
  : result (py_value * pystr) :=
  match fuel with
  | O => Raise RecursionError
  | S fuel' => object_pair (scan_once fuel') (object_loop fuel') s pairs
  end

with array_loop (fuel : nat) (s : pystr) (values : list py_value)
  : result (py_value * pystr) :=
  match fuel with
  | O => Raise RecursionError
  | S fuel' => array_item (scan_once fuel') (array_loop fuel') s values
  end.

(** [JSONDecoder.decode]: one value, blanks around it, nothing after. *)
Definition decode (fuel : nat) (s : pystr) : result py_value :=
  match expecting_value (scan_once fuel (skip_ws s)) with
  | Raise e => Raise e
  | Ok (obj, rest) =>
      match skip_ws rest with
      | [] => Ok obj
      | _ :: _ => Raise (JSONDecodeError "Extra data")
      end
  end.

(** [json.loads(s)] for a [str].  Every call of the scanner reads at least
    one character before the next call, so twice the length of the text
    bounds the number of calls ([loads_no_recursion_error] below).  The
    limits of the interpreter are not modelled: CPython raises on nesting
    beyond its recursion limit and on an integer literal of more than 4300
    digits, where this decoder returns the value. *)
Definition loads (s : pystr) : result py_value :=
  if startswith [0xfeff] s then
    Raise (JSONDecodeError "Unexpected UTF-8 BOM (decode using utf-8-sig)")
  else decode (2 * length s + 1) s.

(* ------------------------------------------------------------------ *)
(** ** json.dumps: the encoder, with its default settings
    ([ensure_ascii=True], separators [", "] and [": "]) *)
(* ------------------------------------------------------------------ *)

Definition hexdigit (d : N) : N := if d <? 10 then 48 + d else 87 + d.

(** ['{0:04x}'.format(n)] for [n < 0x10000] *)
Definition hex4 (n : N) : pystr :=
  [hexdigit (n / 4096); hexdigit ((n / 256) mod 16);
   hexdigit ((n / 16) mod 16); hexdigit (n mod 16)].

(** [replace] of [py_encode_basestring_ascii]: what one character of the
    string becomes.  ESCAPE_ASCII matches the backslash, the quote and every
    character outside the range from the blank to the tilde. *)
Definition replace (c : N) : pystr :=
  if c =? 92 then [92; 92]
  else if c =? 34 then [92; 34]
  else if (32 <=? c) && (c <=? 126) then [c]
  else if c =? 8 then [92; ord "b"]
  else if c =? 12 then [92; ord "f"]
  else if c =? 10 then [92; ord "n"]
  else if c =? 13 then [92; ord "r"]
  else if c =? 9 then [92; ord "t"]
  else if c <? 0x10000 then 92 :: ord "u" :: hex4 c
  else
    let n := c - 0x10000 in
    let s1 := N.lor 0xd800 (N.land (N.shiftr n 10) 0x3ff) in
    let s2 := N.lor 0xdc00 (N.land n 0x3ff) in
    (92 :: ord "u" :: hex4 s1) ++ (92 :: ord "u" :: hex4 s2).

(** [encode_basestring_ascii(s)] *)
Definition encode_basestring_ascii (s : pystr) : pystr :=
  34 :: flat_map replace s ++ [34].

Fixpoint uint_digits (u : Decimal.uint) : pystr :=
  match u with
  | Decimal.Nil => []
  | Decimal.D0 u' => 48 :: uint_digits u'
  | Decimal.D1 u' => 49 :: uint_digits u'
  | Decimal.D2 u' => 50 :: uint_digits u'
  | Decimal.D3 u' => 51 :: uint_digits u'
  | Decimal.D4 u' => 52 :: uint_digits u'
  | Decimal.D5 u' => 53 :: uint_digits u'
  | Decimal.D6 u' => 54 :: uint_digits u'
  | Decimal.D7 u' => 55 :: uint_digits u'
  | Decimal.D8 u' => 56 :: uint_digits u'
  | Decimal.D9 u' => 57 :: uint_digits u'
  end.

(** [int.__repr__] *)
Definition intstr (z : Z) : pystr :=
  match Z.to_int z with
  | Decimal.Pos u => uint_digits u
  | Decimal.Neg u => ord "-" :: uint_digits u
  end.

(** [json.dumps(o)].  [floatstr] is the text of a float (its [repr], or
    NaN, Infinity, -Infinity), which the embedding leaves to its caller. *)
Definition dumps (floatstr : pystr -> pystr) : py_value -> pystr :=
  fix iterencode (o : py_value) : pystr :=
    match o with
    | PStr s => encode_basestring_ascii s
    | PNone => lit "null"
    | PBool true => lit "true"
    | PBool false => lit "false"
    | PInt z => intstr z
    | PFloat x => floatstr x
    | PList lst =>
        match lst with
        | [] => lit "[]"
        | _ => ord "[" :: join (lit ", ") (map iterencode lst) ++ [ord "]"]
        end
    | PDict dct =>
        match dct with
        | [] => lit "{}"
        | _ =>
            ord "{" ::
            join (lit ", ")
                 (map (fun kv => encode_basestring_ascii (fst kv) ++ lit ": " ++
                                 iterencode (snd kv)) dct)
            ++ [ord "}"]
        end
    end.

End Json.

(* ================================================================== *)
(** * Database models *)
(* ================================================================== *)

(** A nullable column holds [None] or a string. *)
Definition column := option pystr.

Definition column_truthy (c : column) : bool :=
  match c with
  | Some s => str_truthy s
  | None => false
  end.

Definition column_eqb (a b : column) : bool :=
  match a, b with
  | Some x, Some y => pystr_eqb x y
  | None, None => true
  | _, _ => false
  end.

Module User.

(** [class User(db.Model, UserMixin)].  [email] and [password] are set at
    registration and by the hashing primitive only, so they always hold a
    string; [username] takes whatever [request.form.get] returns. *)
Record t : Type := mk {
  id : Z;
  username : column;
  email : pystr;
  password : pystr;
  tagline : column;
  bio : column;
  course : column;
  faction : column;
  avatar_url : column;
  status : column;
  skills : column;
  public_email : column;
  linkedin : column;
  github : column;
  certifications_data : column
}.

Definition set_username (v : column) (u : t) : t :=
  mk (id u) v (email u) (password u) (tagline u) (bio u) (course u) (faction u)
     (avatar_url u) (status u) (skills u) (public_email u) (linkedin u) (github u)
     (certifications_data u).
Definition set_password (v : pystr) (u : t) : t :=
  mk (id u) (username u) (email u) v (tagline u) (bio u) (course u) (faction u)
     (avatar_url u) (status u) (skills u) (public_email u) (linkedin u) (github u)
     (certifications_data u).
Definition set_tagline (v : column) (u : t) : t :=
  mk (id u) (username u) (email u) (password u) v (bio u) (course u) (faction u)
     (avatar_url u) (status u) (skills u) (public_email u) (linkedin u) (github u)
     (certifications_data u).
Definition set_bio (v : column) (u : t) : t :=
  mk (id u) (username u) (email u) (password u) (tagline u) v (course u) (faction u)
     (avatar_url u) (status u) (skills u) (public_email u) (linkedin u) (github u)
     (certifications_data u).
Definition set_course (v : column) (u : t) : t :=
  mk (id u) (username u) (email u) (password u) (tagline u) (bio u) v (faction u)
     (avatar_url u) (status u) (skills u) (public_email u) (linkedin u) (github u)
     (certifications_data u).
Definition set_faction (v : column) (u : t) : t :=
  mk (id u) (username u) (email u) (password u) (tagline u) (bio u) (course u) v
     (avatar_url u) (status u) (skills u) (public_email u) (linkedin u) (github u)
     (certifications_data u).
Definition set_avatar_url (v : column) (u : t) : t :=
  mk (id u) (username u) (email u) (password u) (tagline u) (bio u) (course u)
     (faction u) v (status u) (skills u) (public_email u) (linkedin u) (github u)
     (certifications_data u).
Definition set_status (v : column) (u : t) : t :=
  mk (id u) (username u) (email u) (password u) (tagline u) (bio u) (course u)
     (faction u) (avatar_url u) v (skills u) (public_email u) (linkedin u) (github u)
     (certifications_data u).
Definition set_skills (v : column) (u : t) : t :=
  mk (id u) (username u) (email u) (password u) (tagline u) (bio u) (course u)
     (faction u) (avatar_url u) (status u) v (public_email u) (linkedin u) (github u)
     (certifications_data u).
Definition set_public_email (v : column) (u : t) : t :=
  mk (id u) (username u) (email u) (password u) (tagline u) (bio u) (course u)
     (faction u) (avatar_url u) (status u) (skills u) v (linkedin u) (github u)
     (certifications_data u).
Definition set_linkedin (v : column) (u : t) : t :=
  mk (id u) (username u) (email u) (password u) (tagline u) (bio u) (course u)
     (faction u) (avatar_url u) (status u) (skills u) (public_email u) v (github u)
     (certifications_data u).
Definition set_github (v : column) (u : t) : t :=
  mk (id u) (username u) (email u) (password u) (tagline u) (bio u) (course u)
     (faction u) (avatar_url u) (status u) (skills u) (public_email u) (linkedin u) v
     (certifications_data u).
Definition set_certifications_data (v : column) (u : t) : t :=
  mk (id u) (username u) (email u) (password u) (tagline u) (bio u) (course u)
     (faction u) (avatar_url u) (status u) (skills u) (public_email u) (linkedin u)
     (github u) v.

(** The getter of the [certifications] property.  The bare [except:]
    catches whatever [json.loads] raises. *)
Definition certifications (self : t) : result py_value :=
  if negb (column_truthy (certifications_data self)) then Ok (PList [])
  else
    match certifications_data self with
    | Some data => catch (Json.loads data) (fun _ => Ok (PList []))
    | None => Ok (PList [])
    end.

(** The setter of [certifications]. *)
Definition set_certifications (floatstr : pystr -> pystr) (value : py_value) (self : t) : t :=
  set_certifications_data (Some (Json.dumps floatstr value)) self.

End User.

Module Project.

(** [class Project(db.Model)] *)
Record t : Type := mk {
  id : Z;
  title : pystr;
  description : column;
  image_file : column;
  date_posted : Z;
  user_id : option Z
}.

Definition set_title (v : pystr) (p : t) : t :=
  mk (id p) v (description p) (image_file p) (date_posted p) (user_id p).
Definition set_description (v : column) (p : t) : t :=
  mk (id p) (title p) v (image_file p) (date_posted p) (user_id p).
Definition set_image_file (v : column) (p : t) : t :=
  mk (id p) (title p) (description p) v (date_posted p) (user_id p).

End Project.

(* ================================================================== *)
(** * Requests, responses and the world a handler runs in *)
(* ================================================================== *)

Inductive http_method : Type := GET | POST.

(** An uploaded file ([werkzeug.FileStorage]): its truth value is that of
    its file name. *)
Record FileStorage : Type := {
  filename : pystr;
  stream : list Byte.byte
}.

(** [request.form] and [request.files] are multi-dicts: the submitted
    fields in order, a key possibly several times. *)
Record Request : Type := {
  method : http_method;
  form : list (pystr * pystr);
  files : list (pystr * FileStorage)
}.

(** [multidict.getlist(key)] *)
Definition getlist {A} (d : list (pystr * A)) (key : pystr) : list A :=
  map snd (filter (fun kv => pystr_eqb (fst kv) key) d).

(** [multidict.get(key)]: the first value, or [None]. *)
Definition multi_get {A} (d : list (pystr * A)) (key : pystr) : option A :=
  match getlist d key with
  | v :: _ => Some v
  | [] => None
  end.

(** [multidict[key]]: a missing key is a BadRequestKeyError, answered 400. *)
Definition multi_getitem {A} (d : list (pystr * A)) (key : pystr) : result A :=
  match multi_get d key with
  | Some v => Ok v
  | None => Raise (HTTPException 400)
  end.

(** What the operating system hands to a request: random bytes
    ([os.urandom], read as a stream), the clock, the salt of bcrypt. *)
Record Env : Type := {
  random_stream : nat -> Byte.byte;
  utcnow : Z;
  bcrypt_salt : pystr
}.

(** A flowable of the PDF story. *)
Inductive flowable : Type :=
| Paragraph (text : pystr) (style : string)
| Spacer (width height : Z).

Inductive response : Type :=
| Redirect (endpoint : string)
| RenderTemplate (template : string)
| SendFile (story : list flowable) (download_name : pystr)
| Aborted (code : Z).

(** The tables (rows in storage order), the upload directory (file name
    and content), the flashed messages (message and category), and the
    account the session is logged in as. *)
Record World : Type := {
  user_table : list User.t;
  project_table : list Project.t;
  uploads : list (pystr * list Byte.byte);
  flashes : list (pystr * string);
  session_user : option Z
}.

Definition with_users (us : list User.t) (w : World) : World :=
  Build_World us (project_table w) (uploads w) (flashes w) (session_user w).
Definition with_projects (ps : list Project.t) (w : World) : World :=
  Build_World (user_table w) ps (uploads w) (flashes w) (session_user w).
Definition with_uploads (fs : list (pystr * list Byte.byte)) (w : World) : World :=
  Build_World (user_table w) (project_table w) fs (flashes w) (session_user w).
Definition with_flashes (ms : list (pystr * string)) (w : World) : World :=
  Build_World (user_table w) (project_table w) (uploads w) ms (session_user w).
Definition with_session_user (u : option Z) (w : World) : World :=
  Build_World (user_table w) (project_table w) (uploads w) (flashes w) u.

(** A handler computes over the world and may raise. *)
Definition M (A : Type) : Type := World -> result A * World.

Definition ret {A} (a : A) : M A := fun w => (Ok a, w).
Definition raise {A} (e : exn) : M A := fun w => (Raise e, w).
Definition bind {A B} (m : M A) (k : A -> M B) : M B :=
  fun w =>
    match m w with
    | (Ok a, w') => k a w'
    | (Raise e, w') => (Raise e, w')
    end.
Definition lift {A} (r : result A) : M A := fun w => (r, w).

(** [try: body / except Exception as e: handler(e)] *)
Definition try_except {A} (body : M A) (handler : exn -> M A) : M A :=
  fun w =>
    match body w with
    | (Ok a, w') => (Ok a, w')
    | (Raise e, w') => handler e w'
    end.

Declare Scope handler_scope.
Delimit Scope handler_scope with handler.
Notation "x <- c ;; k" := (bind c (fun x => k))
  (at level 61, c at next level, right associativity) : handler_scope.
Notation "c ;;; k" := (bind c (fun _ => k))
  (at level 61, right associativity) : handler_scope.

(** [flash(message, category)] *)
Definition flash (message : pystr) (category : string) : M unit :=
  fun w => (Ok tt, with_flashes (flashes w ++ [(message, category)]) w).

(** [abort(code)] *)
Definition abort {A} (code : Z) : M A := raise (HTTPException code).

(** [login_user(user)] *)
Definition login_user (user : User.t) : M unit :=
  fun w => (Ok tt, with_session_user (Some (User.id user)) w).

(** What Flask answers: the handler's response, the code of an abort, or
    500 for any other exception. *)
Definition respond (m : M response) (w : World) : response * World :=
  match m w with
  | (Ok r, w') => (r, w')
  | (Raise (HTTPException code), w') => (Aborted code, w')
  | (Raise _, w') => (Aborted 500, w')
  end.

(* ------------------------------------------------------------------ *)
(** ** The store: queries and commit *)
(* ------------------------------------------------------------------ *)

(** [load_user(user_id)]: [User.query.get(int(user_id))] *)
Definition load_user (w : World) (user_id : Z) : option User.t :=
  find (fun u => Z.eqb (User.id u) user_id) (user_table w).

(** [User.query.filter_by(email=email).first()] *)
Definition user_by_email (e : pystr) : M (option User.t) :=
  fun w => (Ok (find (fun u => pystr_eqb (User.email u) e) (user_table w)), w).

(** [User.query.filter_by(username=username).first()] *)
Definition user_by_username (n : pystr) : M (option User.t) :=
  fun w => (Ok (find (fun u => column_eqb (User.username u) (Some n)) (user_table w)), w).

(** [Project.query.filter_by(user_id=uid).all()] *)
Definition projects_of (uid : Z) : M (list Project.t) :=
  fun w => (Ok (filter (fun p => match Project.user_id p with
                                 | Some o => Z.eqb o uid
                                 | None => false
                                 end) (project_table w)), w).

(** [Project.query.get_or_404(id)] *)
Definition project_get_or_404 (id : Z) : M Project.t :=
  fun w =>
    match find (fun p => Z.eqb (Project.id p) id) (project_table w) with
    | Some p => (Ok p, w)
    | None => (Raise (HTTPException 404), w)
    end.

(** The pending changes of the session that [db.session.commit()] writes. *)
Inductive change : Type :=
| UpdateUser (u : User.t)
| AddProject (title : pystr) (description image_file : column) (user_id : option Z)
| UpdateProject (p : Project.t)
| DeleteProject (p : Project.t).

(** The constraints the [User] columns declare: [username] is
    [nullable=False], [username] and [email] are [unique=True]. *)
Definition user_violation (rows : list User.t) (u : User.t) : option string :=
  match User.username u with
  | None => Some "NOT NULL constraint failed: user.username"%string
  | Some _ =>
      if existsb (fun r => negb (Z.eqb (User.id r) (User.id u)) &&
                           column_eqb (User.username r) (User.username u)) rows
      then Some "UNIQUE constraint failed: user.username"%string
      else if existsb (fun r => negb (Z.eqb (User.id r) (User.id u)) &&
                                pystr_eqb (User.email r) (User.email u)) rows
      then Some "UNIQUE constraint failed: user.email"%string
      else None
  end.

(** The row id of a new row of an integer primary key: one more than the
    largest in the table. *)
Definition next_project_id (rows : list Project.t) : Z :=
  fold_left (fun m p => Z.max m (Project.id p)) rows 0%Z + 1.

Definition replace_user (u : User.t) (rows : list User.t) : list User.t :=
  map (fun r => if Z.eqb (User.id r) (User.id u) then u else r) rows.
Definition replace_project (p : Project.t) (rows : list Project.t) : list Project.t :=
  map (fun r => if Z.eqb (Project.id r) (Project.id p) then p else r) rows.
Definition remove_project (p : Project.t) (rows : list Project.t) : list Project.t :=
  filter (fun r => negb (Z.eqb (Project.id r) (Project.id p))) rows.

(** [db.session.commit()] of one pending change: the tables change, or an
    [IntegrityError] is raised and they do not.  [now] is the default of
    [date_posted]. *)
Definition commit (now : Z) (c : change) : M unit :=
  fun w =>
    match c with
    | UpdateUser u =>
        match user_violation (user_table w) u with
        | Some detail => (Raise (IntegrityError detail), w)
        | None => (Ok tt, with_users (replace_user u (user_table w)) w)
        end
    | AddProject title description image_file user_id =>
        let row := Project.mk (next_project_id (project_table w)) title description
                              image_file now user_id in
        (Ok tt, with_projects (project_table w ++ [row]) w)
    | UpdateProject p => (Ok tt, with_projects (replace_project p (project_table w)) w)
    | DeleteProject p => (Ok tt, with_projects (remove_project p (project_table w)) w)
    end.

(** [db.session.rollback()]: the pending changes are dropped; the tables
    hold what the last commit wrote. *)
Definition rollback : M unit := ret tt.

(* ================================================================== *)
(** * Helper functions *)
(* ================================================================== *)

Definition ALLOWED_EXTENSIONS : list pystr :=
  [lit "png"; lit "jpg"; lit "jpeg"; lit "gif"].

(** [x in words] *)
Definition str_in (x : pystr) (words : list pystr) : bool :=
  existsb (pystr_eqb x) words.

(** [s.rsplit(sep, 1)]: split at the last [sep], if there is one. *)
Fixpoint rsplit_last (sep : N) (s : pystr) : option (pystr * pystr) :=
  match s with
  | [] => None
  | x :: s' =>
      match rsplit_last sep s' with
      | Some (a, b) => Some (x :: a, b)
      | None => if N.eqb x sep then Some ([], s') else None
      end
  end.

Definition rsplit1 (sep : N) (s : pystr) : list pystr :=
  match rsplit_last sep s with
  | Some (a, b) => [a; b]
  | None => [s]
  end.

(** [allowed_file(filename)] *)
Definition allowed_file (filename : pystr) : result bool :=
  if contains (ord ".") filename then
    (ext <- getitem (rsplit1 (ord ".") filename) 1 ;;
     Ok (str_in (lower ext) ALLOWED_EXTENSIONS))%result
  else Ok false.

(** [s.rfind(c)]: the index of the last [c], or -1. *)
Definition rfind (c : N) (s : pystr) : Z :=
  snd (fold_left (fun st x => (fst st + 1, if N.eqb x c then fst st else snd st)%Z)
                 s (0, -1)%Z).

(** [os.path.splitext(p)], as [posixpath] and [genericpath._splitext]
    have it: the extension starts at the last dot of the last path
    component, unless only dots come before it there. *)
Definition splitext (p : pystr) : pystr * pystr :=
  let sepIndex := rfind (ord "/") p in
  let dotIndex := rfind (ord ".") p in
  if (dotIndex >? sepIndex)%Z then
    let filenameIndex := Z.to_nat (sepIndex + 1) in
    let before := firstn (Z.to_nat dotIndex - filenameIndex) (skipn filenameIndex p) in
    if existsb (fun x => negb (N.eqb x (ord "."))) before
    then (firstn (Z.to_nat dotIndex) p, skipn (Z.to_nat dotIndex) p)
    else (p, [])
  else (p, []).

(** The last component of a path. *)
Definition last_component (p : pystr) : pystr :=
  match rsplit_last (ord "/") p with
  | Some (_, b) => b
  | None => p
  end.

(** Two lower-case hexadecimal digits of a byte. *)
Definition hex_of_byte (b : Byte.byte) : pystr :=
  let n := Byte.to_N b in
  [Json.hexdigit (n / 16); Json.hexdigit (n mod 16)]%N.

(** [secrets.token_hex(nbytes)] *)
Definition token_hex (env : Env) (nbytes : nat) : pystr :=
  flat_map hex_of_byte (map (random_stream env) (seq 0 nbytes)).

(** [file.save(path)] into the upload directory: the file of that name is
    created or replaced. *)
Definition write_file (name : pystr) (content : list Byte.byte) : M unit :=
  fun w =>
    (Ok tt,
     with_uploads ((name, content) ::
                   filter (fun f => negb (pystr_eqb (fst f) name)) (uploads w)) w).

(** [save_picture(form_picture)] *)
Definition save_picture (env : Env) (form_picture : FileStorage) : M pystr :=
  let random_hex := token_hex env 8 in
  let f_ext := snd (splitext (filename form_picture)) in
  let picture_fn := random_hex ++ f_ext in
  (write_file picture_fn (stream form_picture) ;;;
   ret picture_fn)%handler.

(** The message of an exception that carries one ([str(e)]), reduced to
    the message of the driver.  SQLAlchemy wraps an [IntegrityError]: its
    [str(e)] is the class of the driver's error in brackets, this
    message, then the statement, its parameters and a link.  The wrapping
    is not modelled, so of a flashed error only the prefix the handler
    writes is as in the source. *)
Definition exn_message (e : exn) : pystr :=
  match e with
  | IntegrityError detail => lit detail
  | JSONDecodeError msg => lit msg
  | _ => []
  end.

(** A column inside an f-string. *)
Definition format_column (c : column) : pystr :=
  match c with
  | Some s => s
  | None => lit "None"
  end.

(* ================================================================== *)
(** * Routes *)
(* ================================================================== *)

(** The lines of [profile] that build the certification list from the
    three parallel form lists: the loop over [range(len(cert_names))]. *)
Fixpoint cert_loop (indices : list nat) (cert_names cert_issuers cert_dates : list pystr)
                   (new_certs : list py_value) : result (list py_value) :=
  match indices with
  | [] => Ok new_certs
  | i :: rest =>
      (name <- getitem cert_names i ;;
       if str_truthy (strip name) then
         name' <- getitem cert_names i ;;
         issuer <- (if Nat.ltb i (length cert_issuers)
                    then getitem cert_issuers i else Ok []) ;;
         date <- (if Nat.ltb i (length cert_dates)
                  then getitem cert_dates i else Ok []) ;;
         cert_loop rest cert_names cert_issuers cert_dates
                   (new_certs ++ [PDict [(lit "name", PStr name');
                                         (lit "issuer", PStr issuer);
                                         (lit "date", PStr date)]])
       else cert_loop rest cert_names cert_issuers cert_dates new_certs)%result
  end.

Definition build_certs (cert_names cert_issuers cert_dates : list pystr)
  : result (list py_value) :=
  cert_loop (seq 0 (length cert_names)) cert_names cert_issuers cert_dates [].

Section Routes.

(** The primitives the application calls and the embedding leaves open:
    the text and truth value of a float, [str()] of a value that is not a
    string, and the two functions of bcrypt (the hash of a password under a
    salt, the check of a password against a hash). *)
Variable floatstr : pystr -> pystr.
Variable float_nonzero : pystr -> bool.
Variable py_str : py_value -> pystr.
Variable generate_password_hash : pystr -> pystr -> pystr.
Variable check_password_hash : pystr -> pystr -> bool.

Local Open Scope handler_scope.

(** [@login_required]: without a logged-in account the view is not run
    (Flask-Login flashes its message and redirects to [login_view]). *)
Definition login_required (view : User.t -> M response) : M response :=
  fun w =>
    match session_user w with
    | Some uid =>
        match load_user w uid with
        | Some current_user => view current_user w
        | None => (flash (lit "Please log in to access this page.") "message" ;;;
                   ret (Redirect "login")) w
        end
    | None => (flash (lit "Please log in to access this page.") "message" ;;;
               ret (Redirect "login")) w
    end.

(** [login] *)
Definition login (request : Request) : M response :=
  match method request with
  | POST =>
      email <- lift (multi_getitem (form request) (lit "email")) ;;
      pw <- lift (multi_getitem (form request) (lit "password")) ;;
      user <- user_by_email email ;;
      match user with
      | Some user =>
          if check_password_hash (User.password user) pw then
            login_user user ;;;
            flash (lit "Logged in successfully.") "success" ;;;
            ret (Redirect "dashboard")
          else
            flash (lit "Invalid credentials.") "danger" ;;;
            ret (RenderTemplate "login.html")
      | None =>
          flash (lit "Invalid credentials.") "danger" ;;;
          ret (RenderTemplate "login.html")
      end
  | GET => ret (RenderTemplate "login.html")
  end.

(** The assignments of [profile] to [current_user], up to the commit. *)
Definition profile_assignments (env : Env) (request : Request) (current_user : User.t)
  : result User.t :=
  let get := multi_get (form request) in
  let current_user := User.set_username (get (lit "username")) current_user in
  let current_user := User.set_tagline (get (lit "tagline")) current_user in
  let current_user := User.set_bio (get (lit "bio")) current_user in
  let current_user := User.set_avatar_url (get (lit "avatar_url")) current_user in
  let current_user := User.set_status (get (lit "status")) current_user in
  let current_user := User.set_course (get (lit "course")) current_user in
  let current_user := User.set_faction (get (lit "faction")) current_user in
  let current_user := User.set_skills (get (lit "skills")) current_user in
  let current_user := User.set_public_email (get (lit "public_email")) current_user in
  let current_user := User.set_linkedin (get (lit "linkedin")) current_user in
  let current_user := User.set_github (get (lit "github")) current_user in
  let new_password := get (lit "new_password") in
  let current_user :=
    match new_password with
    | Some pw =>
        if str_truthy pw
        then User.set_password (generate_password_hash (bcrypt_salt env) pw) current_user
        else current_user
    | None => current_user
    end in
  let cert_names := getlist (form request) (lit "cert_name[]") in
  let cert_issuers := getlist (form request) (lit "cert_issuer[]") in
  let cert_dates := getlist (form request) (lit "cert_date[]") in
  (new_certs <- build_certs cert_names cert_issuers cert_dates ;;
   Ok (User.set_certifications floatstr (PList new_certs) current_user))%result.

(** [profile] *)
Definition profile (env : Env) (request : Request) (current_user : User.t) : M response :=
  match method request with
  | POST =>
      current_user <- lift (profile_assignments env request current_user) ;;
      try_except
        (commit (utcnow env) (UpdateUser current_user) ;;;
         flash (lit "Profile updated successfully!") "success")
        (fun e =>
           rollback ;;;
           flash (lit "Error updating profile: " ++ exn_message e) "danger") ;;;
      ret (Redirect "profile")
  | GET => ret (RenderTemplate "profile.html")
  end.

(** [projects] *)
Definition projects (env : Env) (request : Request) (current_user : User.t)
  : M response :=
  match method request with
  | POST =>
      title <- lift (multi_getitem (form request) (lit "title")) ;;
      desc <- lift (multi_getitem (form request) (lit "description")) ;;
      file <- lift (multi_getitem (files request) (lit "image")) ;;
      allowed <- (if str_truthy (filename file)
                  then lift (allowed_file (filename file)) else ret false) ;;
      filename <- (if allowed
                   then (fn <- save_picture env file ;; ret (Some fn))
                   else ret None) ;;
      commit (utcnow env)
             (AddProject title (Some desc) filename (Some (User.id current_user))) ;;;
      flash (lit "Project added.") "success" ;;;
      ret (Redirect "projects")
  | GET =>
      _ <- projects_of (User.id current_user) ;;
      ret (RenderTemplate "projects.html")
  end.

(** [project.user_id != current_user.id] *)
Definition not_owner (project : Project.t) (current_user : User.t) : bool :=
  match Project.user_id project with
  | Some owner => negb (Z.eqb owner (User.id current_user))
  | None => true
  end.

(** [edit_project] *)
Definition edit_project (env : Env) (id : Z) (request : Request) (current_user : User.t)
  : M response :=
  project <- project_get_or_404 id ;;
  if not_owner project current_user then
    flash (lit "Access denied.") "danger" ;;;
    ret (Redirect "projects")
  else
    match method request with
    | POST =>
        title <- lift (multi_getitem (form request) (lit "title")) ;;
        description <- lift (multi_getitem (form request) (lit "description")) ;;
        let project := Project.set_title title project in
        let project := Project.set_description (Some description) project in
        project <-
          match multi_get (files request) (lit "image") with
          | Some file =>
              if str_truthy (filename file) && negb (pystr_eqb (filename file) [])
              then (fn <- save_picture env file ;;
                    ret (Project.set_image_file (Some fn) project))
              else ret project
          | None => ret project
          end ;;
        commit (utcnow env) (UpdateProject project) ;;;
        flash (lit "Project updated.") "success" ;;;
        ret (Redirect "projects")
    | GET => ret (RenderTemplate "edit_project.html")
    end.

(** [delete_project] *)
Definition delete_project (env : Env) (id : Z) (current_user : User.t) : M response :=
  project <- project_get_or_404 id ;;
  if not_owner project current_user then
    flash (lit "Access denied.") "danger" ;;;
    ret (Redirect "projects")
  else
    commit (utcnow env) (DeleteProject project) ;;;
    flash (lit "Project deleted.") "info" ;;;
    ret (Redirect "projects").

(** [for x in v]: the items a loop over a value visits. *)
Definition py_iter (v : py_value) : result (list py_value) :=
  match v with
  | PList l => Ok l
  | PStr s => Ok (map (fun c => PStr [c]) s)
  | PDict d => Ok (map (fun kv => PStr (fst kv)) d)
  | _ => Raise TypeError
  end.

(** [cert.get(key, default)]: only a dict has [get]. *)
Definition py_get (cert : py_value) (key : pystr) (default : py_value) : result py_value :=
  match cert with
  | PDict d => Ok (dict_get key d default)
  | _ => Raise AttributeError
  end.

(** A value inside an f-string. *)
Definition format_value (v : py_value) : pystr :=
  match v with
  | PStr s => s
  | _ => py_str v
  end.

Fixpoint map_result {A B} (f : A -> result B) (l : list A) : result (list B) :=
  match l with
  | [] => Ok []
  | a :: l' => (b <- f a ;; bs <- map_result f l' ;; Ok (b :: bs))%result
  end.

(** One line of the certification block of [download_portfolio]. *)
Definition cert_line (cert : py_value) : result flowable :=
  (c_name <- py_get cert (lit "name") (PStr (lit "Certification")) ;;
   c_issuer <- py_get cert (lit "issuer") (PStr []) ;;
   c_date <- py_get cert (lit "date") (PStr []) ;;
   Ok (Paragraph (lit "<b>" ++ format_value c_name ++ lit "</b> - " ++
                  format_value c_issuer ++ lit " (" ++ format_value c_date ++ lit ")")
                 "Normal"))%result.

(** The certification block of [download_portfolio]; [certs] is what the
    [certifications] property returns (the source reads it twice). *)
Definition certification_story (certs : py_value) : result (list flowable) :=
  if truthy float_nonzero certs then
    (items <- py_iter certs ;;
     lines <- map_result cert_line items ;;
     Ok (Paragraph (lit "Certifications") "Heading2" :: lines ++ [Spacer 1 20]))%result
  else Ok [].

(** The project block of [download_portfolio]. *)
Definition project_story (p : Project.t) : list flowable :=
  Paragraph (lit "<b>" ++ Project.title p ++ lit "</b>") "Heading3" ::
  (if column_truthy (Project.description p)
   then [Paragraph (format_column (Project.description p)) "Normal"] else []) ++
  [Spacer 1 12].

(** The story [download_portfolio] hands to [doc.build]. *)
Definition portfolio_story (user : User.t) (projects : list Project.t)
  : result (list flowable) :=
  (certifications <- User.certifications user ;;
   certs <- certification_story certifications ;;
   Ok ([Paragraph (format_column (User.username user) ++ lit "'s Portfolio") "Title";
        Spacer 1 12] ++
       (if column_truthy (User.course user)
        then [Paragraph (lit "<b>Course:</b> " ++ format_column (User.course user)) "Normal"]
        else []) ++
       (if column_truthy (User.tagline user)
        then [Paragraph (lit "<i>" ++ format_column (User.tagline user) ++ lit "</i>") "Normal"]
        else []) ++
       (if column_truthy (User.public_email user)
        then [Paragraph (lit "<b>Email:</b> " ++ format_column (User.public_email user))
                        "Normal"]
        else []) ++
       [Spacer 1 20] ++
       certs ++
       [Paragraph (lit "Projects") "Heading2"] ++
       flat_map project_story projects))%result.

(** [download_portfolio] *)
Definition download_portfolio (username : pystr) : M response :=
  user <- user_by_username username ;;
  match user with
  | None => abort 404
  | Some user =>
      projects <- projects_of (User.id user) ;;
      elements <- lift (portfolio_story user projects) ;;
      ret (SendFile elements (format_column (User.username user) ++ lit "_portfolio.pdf"))
  end.

End Routes.

(* ------------------------------------------------------------------ *)
(** ** Registration and the routes without a form *)
(* ------------------------------------------------------------------ *)

(** [logout_user()] *)
Definition logout_user : M unit :=
  fun w => (Ok tt, with_session_user None w).

(** [User.query.filter((User.email == email) | (User.username == username)).first()] *)
Definition user_by_email_or_username (e n : pystr) : M (option User.t) :=
  fun w =>
    (Ok (find (fun u => pystr_eqb (User.email u) e ||
                        column_eqb (User.username u) (Some n)) (user_table w)), w).

(** The row id of a new account, as for a new project. *)
Definition next_user_id (rows : list User.t) : Z :=
  fold_left (fun m u => Z.max m (User.id u)) rows 0%Z + 1.

(** [User(username=username, email=email, password=hashed)] as the insert
    writes it: the columns that are not given are NULL, except
    [certifications_data], whose default is the text of the empty list. *)
Definition new_user (id : Z) (username email password : pystr) : User.t :=
  User.mk id (Some username) email password None None None None None None None None
          None None (Some (lit "[]")).

(** [db.session.add(user)] and [db.session.commit()] for a new account,
    under the constraints of the columns. *)
Definition commit_new_user (username email password : pystr) : M unit :=
  fun w =>
    let row := new_user (next_user_id (user_table w)) username email password in
    match user_violation (user_table w) row with
    | Some detail => (Raise (IntegrityError detail), w)
    | None => (Ok tt, with_users (user_table w ++ [row]) w)
    end.

Section Accounts.

Variable generate_password_hash : pystr -> pystr -> pystr.

Local Open Scope handler_scope.

(** [bcrypt.generate_password_hash(password)] where nothing guards the
    call: Flask-Bcrypt refuses an empty password with a [ValueError]; no
    handler of [register] catches it, so Flask answers 500. *)
Definition hash_or_refuse (env : Env) (password : pystr) : M pystr :=
  if str_truthy password
  then ret (generate_password_hash (bcrypt_salt env) password)
  else abort 500.

(** [home] *)
Definition home : M response := ret (RenderTemplate "home.html").

(** [register] *)
Definition register (env : Env) (request : Request) : M response :=
  match method request with
  | POST =>
      username <- lift (multi_getitem (form request) (lit "username")) ;;
      email <- lift (multi_getitem (form request) (lit "email")) ;;
      password <- lift (multi_getitem (form request) (lit "password")) ;;
      existing <- user_by_email_or_username email username ;;
      match existing with
      | Some _ =>
          flash (lit "User or email already exists.") "danger" ;;;
          ret (Redirect "register")
      | None =>
          hashed <- hash_or_refuse env password ;;
          commit_new_user username email hashed ;;;
          flash (lit "Registration successful. Please login.") "success" ;;;
          ret (Redirect "login")
      end
  | GET => ret (RenderTemplate "register.html")
  end.

(** [logout] *)
Definition logout (current_user : User.t) : M response :=
  logout_user ;;;
  flash (lit "Logged out.") "info" ;;;
  ret (Redirect "home").

(** [dashboard] *)
Definition dashboard (current_user : User.t) : M response :=
  _ <- projects_of (User.id current_user) ;;
  ret (RenderTemplate "dashboard.html").

(** [public_portfolio] *)
Definition public_portfolio (username : pystr) : M response :=
  user <- user_by_username username ;;
  match user with
  | None =>
      flash (lit "User not found.") "danger" ;;;
      ret (Redirect "home")
  | Some user =>
      _ <- projects_of (User.id user) ;;
      ret (RenderTemplate "public_portfolio.html")
  end.

End Accounts.

(* ------------------------------------------------------------------ *)
(** ** The URL map *)
(* ------------------------------------------------------------------ *)

(** The rules [@app.route] registers, with the arguments the URL gives
    the view. *)
Inductive endpoint : Type :=
| AtHome
| AtRegister
| AtLogin
| AtLogout
| AtDashboard
| AtProfile
| AtProjects
| AtEditProject (id : Z)
| AtDeleteProject (id : Z)
| AtPublicPortfolio (username : pystr)
| AtDownloadPortfolio (username : pystr).

(** The rules declared with [methods=['GET', 'POST']]; the others take
    GET only. *)
Definition accepts_post (e : endpoint) : bool :=
  match e with
  | AtRegister | AtLogin | AtProfile | AtProjects | AtEditProject _ => true
  | _ => false
  end.

(** One request: what the operating system hands to it, the rule its URL
    matches, and the request itself. *)
Record call : Type := {
  call_env : Env;
  call_endpoint : endpoint;
  call_request : Request
}.

Section Application.

Variable floatstr : pystr -> pystr.
Variable float_nonzero : pystr -> bool.
Variable py_str : py_value -> pystr.
Variable generate_password_hash : pystr -> pystr -> pystr.
Variable check_password_hash : pystr -> pystr -> bool.

(** The view function of a rule, under its decorators. *)
Definition view_of (env : Env) (e : endpoint) (request : Request) : M response :=
  match e with
  | AtHome => home
  | AtRegister => register generate_password_hash env request
  | AtLogin => login check_password_hash request
  | AtLogout => login_required logout
  | AtDashboard => login_required dashboard
  | AtProfile => login_required (profile floatstr generate_password_hash env request)
  | AtProjects => login_required (projects env request)
  | AtEditProject id => login_required (edit_project env id request)
  | AtDeleteProject id => login_required (delete_project env id)
  | AtPublicPortfolio username => public_portfolio username
  | AtDownloadPortfolio username => download_portfolio float_nonzero py_str username
  end.

(** Dispatch: a method the rule does not list is answered 405 before any
    view runs. *)
Definition dispatch (env : Env) (e : endpoint) (request : Request) : M response :=
  match method request with
  | POST => if accepts_post e then view_of env e request else abort 405
  | GET => view_of env e request
  end.

(** The application serving one request. *)
Definition serve (c : call) (w : World) : response * World :=
  respond (dispatch (call_env c) (call_endpoint c) (call_request c)) w.

(** The requests of one client, served one after the other. *)
Fixpoint run (calls : list call) (w : World) : World :=
  match calls with
  | [] => w
  | c :: rest => run rest (snd (serve c w))
  end.

End Application.

(** The world after [db.create_all()]: empty tables, an empty upload
    folder, nobody logged in. *)
Definition initial_world : World :=
  {| user_table := []; project_table := []; uploads := []; flashes := [];
     session_user := None |}.

(* ================================================================== *)
(** * Certification records *)
(* ================================================================== *)

Module Certification.
Record t : Type := mk { name : pystr; issuer : pystr; date : pystr }.
End Certification.

(** The dict [profile] builds for one certification, and its items. *)
Definition cert_items (c : Certification.t) : list (pystr * py_value) :=
  [(lit "name", PStr (Certification.name c));
   (lit "issuer", PStr (Certification.issuer c));
   (lit "date", PStr (Certification.date c))].

Definition cert_dict (c : Certification.t) : py_value := PDict (cert_items c).

(** A Unicode scalar value: a code point that is not a surrogate.  Text
    decoded from UTF-8, as form fields are, holds nothing else. *)
Definition is_scalar_value (c : N) : bool :=
  ((c <? 0xd800) || ((0xdfff <? c) && (c <=? 0x10ffff)))%N.

Definition well_formed_str (s : pystr) : bool := forallb is_scalar_value s.

(** A well-formed certification: its three fields are Unicode text. *)
Definition well_formed_cert (c : Certification.t) : bool :=
  well_formed_str (Certification.name c) &&
  well_formed_str (Certification.issuer c) &&
  well_formed_str (Certification.date c).

(** The certification list as the specification words it: for each index
    [i] where [names[i]] is non-empty after trimming, the record of
    [names[i]], of [issuers[i]] if present else the empty string, and of
    [dates[i]] if present else the empty string; in the order of the rows. *)
Definition spec_certifications (names issuers dates : list pystr)
  : list Certification.t :=
  map (fun i => Certification.mk (nth i names []) (nth i issuers []) (nth i dates []))
      (filter (fun i => str_truthy (strip (nth i names [])))
              (seq 0 (length names))).

(** The certification block, stated apart from the loop that builds it:
    the heading, one line per certification in stored order, a spacer;
    nothing for an empty list.  A line is the name in bold markup, a hyphen
    between blanks, the issuer, and the date in brackets. *)
Definition spec_cert_line (py_str : py_value -> pystr) (d : list (pystr * py_value))
  : flowable :=
  Paragraph (lit "<b>" ++ format_value py_str (dict_get (lit "name") d (PStr (lit "Certification")))
             ++ lit "</b> - " ++ format_value py_str (dict_get (lit "issuer") d (PStr []))
             ++ lit " (" ++ format_value py_str (dict_get (lit "date") d (PStr []))
             ++ lit ")") "Normal".

Definition spec_cert_block (py_str : py_value -> pystr)
                           (certs : list (list (pystr * py_value))) : list flowable :=
  match certs with
  | [] => []
  | _ => Paragraph (lit "Certifications") "Heading2" ::
         map (spec_cert_line py_str) certs ++ [Spacer 1 20]
  end.

(** The line the specification writes for a certification: name, an em
    dash (U+2014) between blanks, issuer, the date in brackets. *)
Definition em_dash_line (c : Certification.t) : pystr :=
  Certification.name c ++ [32; 8212; 32]%N ++ Certification.issuer c ++
  lit " (" ++ Certification.date c ++ lit ")".

(* ================================================================== *)
(** * Stores the application keeps consistent *)
(* ================================================================== *)

(** What the constraints of the columns and the order of the statements
    in the handlers are there to maintain: primary keys, user names and
    e-mail addresses are unique, no account lacks a user name, every
    project belongs to an account, every image a project refers to is in
    the upload folder, and the session is that of an account. *)
Record store_ok (w : World) : Prop := {
  user_ids_unique : NoDup (map User.id (user_table w));
  usernames_present : forall u, In u (user_table w) -> User.username u <> None;
  usernames_unique : NoDup (map User.username (user_table w));
  emails_unique : NoDup (map User.email (user_table w));
  project_ids_unique : NoDup (map Project.id (project_table w));
  projects_owned :
    forall p, In p (project_table w) ->
              exists u, In u (user_table w) /\ Project.user_id p = Some (User.id u);
  images_stored :
    forall p fn, In p (project_table w) -> Project.image_file p = Some fn ->
                 In fn (map fst (uploads w));
  session_valid :
    forall uid, session_user w = Some uid ->
                exists u, In u (user_table w) /\ User.id u = uid
}.

(** Every account's certification text is the encoding of a list of
    well-formed certifications. *)
Definition certifications_ok (floatstr : pystr -> pystr) (w : World) : Prop :=
  forall u, In u (user_table w) ->
    exists L, forallb well_formed_cert L = true /\
              User.certifications_data u
              = Some (Json.dumps floatstr (PList (map cert_dict L))).

(** A request whose form fields are Unicode text, as the fields of a form
    decoded from UTF-8 are. *)
Definition unicode_request (request : Request) : bool :=
  forallb (fun kv => well_formed_str (snd kv)) (form request).

(* ------------------------------------------------------------------ *)
(** ** Characters, names and stories *)
(* ------------------------------------------------------------------ *)


(** A printable ASCII character: from the blank to the tilde. *)
Definition is_printable_ascii (c : N) : bool := ((32 <=? c) && (c <=? 126))%N.

(** The paragraphs of a story that are set in a given style. *)
Definition paragraphs_in (style : string) (story : list flowable) : list pystr :=
  flat_map (fun f => match f with
                     | Paragraph text s => if String.eqb s style then [text] else []
                     | Spacer _ _ => []
                     end) story.

(** A character and the small letter it is compared with after
    [str.lower]: the letter itself or its capital. *)
Definition same_letter (c x : N) : Prop := c = x \/ (c + 32 = x)%N.

(** The filter of [Project.query.filter_by(user_id=uid)]. *)
Definition owned_by (uid : Z) (p : Project.t) : bool :=
  match Project.user_id p with
  | Some o => Z.eqb o uid
  | None => false
  end.

(* ------------------------------------------------------------------ *)
(** ** What a request keeps *)
(* ------------------------------------------------------------------ *)

(** Every account id and every name in the upload folder is still there,
    and the flashed messages are extended. *)
Definition grows (w w' : World) : Prop :=
  incl (map User.id (user_table w)) (map User.id (user_table w')) /\
  incl (map fst (uploads w)) (map fst (uploads w')) /\
  exists more, flashes w' = flashes w ++ more.

(** The rows that do not belong to [who] are still in the tables. *)
Definition spares (who : option Z) (w w' : World) : Prop :=
  (forall p, In p (project_table w) -> Project.user_id p <> who ->
             In p (project_table w')) /\
  (forall u, In u (user_table w) -> Some (User.id u) <> who -> In u (user_table w')).

(* ================================================================== *)
(** * Sample data *)
(* ================================================================== *)

Definition demo_floatstr (x : pystr) : pystr := x.
Definition demo_float_nonzero (x : pystr) : bool := true.
Definition demo_py_str (v : py_value) : pystr := lit "?".

(** A stand-in for bcrypt, to run the handlers on examples. *)
Definition demo_generate_password_hash (salt password : pystr) : pystr :=
  lit "$2b$12$" ++ salt ++ lit "$" ++ rev password.
Definition demo_check_password_hash (pw_hash password : pystr) : bool :=
  pystr_eqb pw_hash (demo_generate_password_hash (lit "salt") password).

Definition demo_env : Env :=
  {| random_stream := fun i => nth i [Byte.x3f; Byte.xa1; Byte.x07; Byte.xc4;
                                      Byte.x5e; Byte.xb2; Byte.x90; Byte.x1d] Byte.x00;
     utcnow := 1700000000;
     bcrypt_salt := lit "salt" |}.

Definition aws_ccp : Certification.t :=
  Certification.mk (lit "AWS CCP") (lit "Amazon") (lit "2024").

Definition alice : User.t :=
  User.mk 1 (Some (lit "alice")) (lit "alice@example.org")
          (demo_generate_password_hash (lit "salt") (lit "wonderland"))
          (Some (lit "Builder")) None (Some (lit "BSc CS")) None None None None
          (Some (lit "alice@example.org")) None None
          (Some (Json.dumps demo_floatstr (PList [cert_dict aws_ccp]))).

Definition bob : User.t :=
  User.mk 2 (Some (lit "bob")) (lit "bob@example.org")
          (demo_generate_password_hash (lit "salt") (lit "builder"))
          None None None None None None None None None None (Some (lit "[]")).

Definition alice_project : Project.t :=
  Project.mk 1 (lit "Compiler") (Some (lit "A small compiler")) None 1690000000 (Some 1%Z).
Definition bob_project : Project.t :=
  Project.mk 2 (lit "Robot") None (Some (lit "00ff00ff00ff00ff.png")) 1690000001 (Some 2%Z).

(** Alice is logged in. *)
Definition demo_world : World :=
  {| user_table := [alice; bob];
     project_table := [alice_project; bob_project];
     uploads := [(lit "00ff00ff00ff00ff.png", [Byte.x89; Byte.x50])];
     flashes := [];
     session_user := Some 1%Z |}.

Definition malware : FileStorage :=
  {| filename := lit "malware.exe"; stream := [Byte.x4d; Byte.x5a] |}.

Definition demo_cert_form : list (pystr * pystr) :=
  [(lit "username", lit "alice");
   (lit "tagline", lit "Builder");
   (lit "new_password", []);
   (lit "cert_name[]", lit "AWS CCP"); (lit "cert_issuer[]", lit "Amazon");
   (lit "cert_date[]", lit "2024");
   (lit "cert_name[]", lit "   "); (lit "cert_issuer[]", lit "Nobody");
   (lit "cert_date[]", lit "1999");
   (lit "cert_name[]", lit "AWS CCP"); (lit "cert_issuer[]", lit "Amazon");
   (lit "cert_name[]", lit " CKA ")].

Definition demo_profile_request : Request :=
  {| method := POST; form := demo_cert_form; files := [] |}.


Definition demo_certs : list Certification.t :=
  [aws_ccp;
   Certification.mk [67; 97; 102; 233; 32; 34; 128512; 34]%N (lit "back\slash")
                    [9; 10; 127; 8232; 65533]%N;
   Certification.mk (lit " CKA ") [] []].

Definition demo_login_request (email password : pystr) : Request :=
  {| method := POST;
     form := [(lit "email", email); (lit "password", password)];
     files := [] |}.

Definition demo_upload_request : Request :=
  {| method := POST;
     form := [(lit "title", lit "Toolkit"); (lit "description", lit "Handy tools")];
     files := [(lit "image", malware)] |}.


(** More requests: a registration, an upload with a directory in its
    name, an edit without a file, a form without its description, a
    profile that asks for Bob's name, a request without a form. *)
Definition demo_register_request (username email password : pystr) : Request :=
  {| method := POST;
     form := [(lit "username", username); (lit "email", email);
              (lit "password", password)];
     files := [] |}.

Definition photo : FileStorage :=
  {| filename := lit "../holiday/photo.JPG"; stream := [Byte.xff; Byte.xd8; Byte.xff] |}.

Definition demo_photo_request : Request :=
  {| method := POST;
     form := [(lit "title", lit "Holiday"); (lit "description", lit "By the sea")];
     files := [(lit "image", photo)] |}.

Definition demo_retitle_request : Request :=
  {| method := POST;
     form := [(lit "title", lit "Interpreter"); (lit "description", lit "Rewritten")];
     files := [(lit "image", {| filename := []; stream := [] |})] |}.

Definition demo_title_only_request : Request :=
  {| method := POST; form := [(lit "title", lit "Untitled")]; files := [] |}.

Definition demo_rename_request : Request :=
  {| method := POST;
     form := [(lit "username", lit "bob"); (lit "tagline", lit "I am Bob now");
              (lit "new_password", lit "hijack")];
     files := [] |}.

Definition demo_get (e : endpoint) : call :=
  {| call_env := demo_env; call_endpoint := e;
     call_request := {| method := GET; form := []; files := [] |} |}.

(** Bob with a certification text that the setter did not write, and the
    demo world with that row in place of his. *)
Definition bob_storing (data : pystr) : User.t :=
  User.set_certifications_data (Some data) bob.

Definition world_where_bob_stores (data : pystr) : World :=
  with_users [alice; bob_storing data] demo_world.

(** An account whose certification text was not written by the setter. *)
Definition mallory : User.t :=
  User.mk 7 (Some (lit "mallory")) (lit "mallory@example.org")
          (demo_generate_password_hash (lit "salt") (lit "letmein"))
          None None None None None None None None None None
          (Some (lit "[{'name': 'AWS CCP'}]")).

Definition carol_registers : call :=
  {| call_env := demo_env; call_endpoint := AtRegister;
     call_request := demo_register_request (lit "carol") (lit "carol@example.org")
                                           (lit "secret") |}.

(** A registration (and its refused repetition), a login, an upload, a
    profile update, an edit, a deletion, an export and a logout. *)
Definition demo_calls : list call :=
  [carol_registers;
   carol_registers;
   {| call_env := demo_env; call_endpoint := AtLogin;
      call_request := demo_login_request (lit "carol@example.org") (lit "secret") |};
   {| call_env := demo_env; call_endpoint := AtProjects;
      call_request := demo_photo_request |};
   {| call_env := demo_env; call_endpoint := AtProfile;
      call_request := demo_profile_request |};
   {| call_env := demo_env; call_endpoint := AtEditProject 1;
      call_request := demo_upload_request |};
   demo_get (AtDeleteProject 1);
   demo_get (AtDownloadPortfolio (lit "alice"));
   demo_get AtLogout].

Definition demo_run : list call -> World -> World :=
  run demo_floatstr demo_float_nonzero demo_py_str demo_generate_password_hash
      demo_check_password_hash.

(* ================================================================== *)
(** * The parts of the export's story *)
(* ================================================================== *)

Definition certifications_heading : flowable :=
  Paragraph (lit "Certifications") "Heading2".

(** What comes before the certification block, and what comes after. *)
Definition story_before (user : User.t) : list flowable :=
  [Paragraph (format_column (User.username user) ++ lit "'s Portfolio") "Title";
   Spacer 1 12] ++
  (if column_truthy (User.course user)
   then [Paragraph (lit "<b>Course:</b> " ++ format_column (User.course user)) "Normal"]
   else []) ++
  (if column_truthy (User.tagline user)
   then [Paragraph (lit "<i>" ++ format_column (User.tagline user) ++ lit "</i>") "Normal"]
   else []) ++
  (if column_truthy (User.public_email user)
   then [Paragraph (lit "<b>Email:</b> " ++ format_column (User.public_email user))
                   "Normal"]
   else []) ++
  [Spacer 1 20].

Definition story_after (projects : list Project.t) : list flowable :=
  Paragraph (lit "Projects") "Heading2" :: flat_map project_story projects.


(** The story of Alice's export. *)
Definition alice_story : list flowable :=
  story_before alice ++ spec_cert_block demo_py_str [cert_items aws_ccp] ++
  story_after [alice_project].

(* ================================================================== *)
(** * Proof automation *)
(* ================================================================== *)

(** Brings an encoded text to the shape the scanning lemmas expect. *)
Ltac json_text :=
  cbn -[flat_map Json.replace Json.scan_once Json.object_loop Json.array_loop Json.scanstring dict_of_pairs];
  unfold Json.encode_basestring_ascii;
  repeat first [rewrite <- app_assoc | progress cbn [app]].


(** Unfolds the monad of the handlers, and splits a handler along its
    matches, the innermost scrutinee first. *)
Ltac run_handler :=
  cbv beta iota delta [bind lift ret raise abort flash try_except rollback login_user
                       logout_user user_by_email user_by_username
                       user_by_email_or_username projects_of project_get_or_404
                       write_file save_picture commit commit_new_user hash_or_refuse
                       multi_getitem].

Ltac innermost x :=
  lazymatch x with
  | context [match ?y with _ => _ end] => innermost y
  | _ => destruct x eqn:?
  end.

Ltac split_handler :=
  repeat (match goal with
          | |- context [match ?x with _ => _ end] => innermost x
          end; cbv beta iota zeta).

Create HintDb store.
Create HintDb grows.
Create HintDb spares.


(* ================================================================== *)
(** * Properties *)
(* ================================================================== *)

(* ------------------------------------------------------------------ *)
(** ** Strings and lists *)
(* ------------------------------------------------------------------ *)

Lemma pystr_eqb_eq (a b : pystr) : pystr_eqb a b = true <-> a = b.
Proof.
  revert b. induction a as [|x a IH]; destruct b as [|y b]; simpl; split;
    try discriminate; try reflexivity.
  - intros H. apply andb_true_iff in H as [Hx Hab].
    apply N.eqb_eq in Hx. apply IH in Hab. congruence.
  - intros H. injection H as -> ->. rewrite N.eqb_refl. now apply IH.
Qed.

Lemma pystr_eqb_refl (a : pystr) : pystr_eqb a a = true.
Proof. now apply pystr_eqb_eq. Qed.

Lemma pystr_eqb_neq (a b : pystr) : pystr_eqb a b = false <-> a <> b.
Proof.
  split.
  - intros H E. apply pystr_eqb_eq in E. congruence.
  - intros H. destruct (pystr_eqb a b) eqn:E; [|reflexivity].
    apply pystr_eqb_eq in E. contradiction.
Qed.

Lemma getitem_nth {A} (l : list A) (i : nat) (d : A) :
  i < length l -> getitem l i = Ok (nth i l d).
Proof.
  intros H. unfold getitem.
  destruct (nth_error l i) as [a|] eqn:E.
  - now rewrite (nth_error_nth l i d E).
  - apply nth_error_None in E. lia.
Qed.

Lemma getitem_guarded (l : list pystr) (i : nat) :
  (if Nat.ltb i (length l) then getitem l i else Ok []) = Ok (nth i l []).
Proof.
  destruct (Nat.ltb_spec i (length l)) as [H|H].
  - now apply getitem_nth.
  - now rewrite nth_overflow.
Qed.


(** The first submitted value of a key is what [get] reads. *)
Lemma multi_get_first {A} (d : list (pystr * A)) (key : pystr) (v : A) :
  multi_get ((key, v) :: d) key = Some v.
Proof. unfold multi_get, getlist. simpl. now rewrite pystr_eqb_refl. Qed.

(* ------------------------------------------------------------------ *)
(** ** The certification rows of a profile form *)
(* ------------------------------------------------------------------ *)

Lemma cert_loop_spec (names issuers dates : list pystr) :
  forall indices new_certs,
    (forall i, In i indices -> i < length names) ->
    cert_loop indices names issuers dates new_certs =
    Ok (new_certs ++
        map cert_dict
          (map (fun i => Certification.mk (nth i names []) (nth i issuers [])
                                          (nth i dates []))
               (filter (fun i => str_truthy (strip (nth i names []))) indices))).
Proof.
  induction indices as [|i rest IH]; intros new_certs Hin.
  - simpl. now rewrite app_nil_r.
  - assert (Hi : i < length names) by (apply Hin; now left).
    assert (Hrest : forall j, In j rest -> j < length names)
      by (intros j Hj; apply Hin; now right).
    cbn [cert_loop filter].
    rewrite (getitem_nth names i [] Hi). cbn [rbind].
    destruct (str_truthy (strip (nth i names []))).
    + rewrite !getitem_guarded. cbn [rbind].
      rewrite IH by assumption. cbn [map]. rewrite <- app_assoc. reflexivity.
    + now apply IH.
Qed.

(** The loop of [profile] computes the list the specification describes,
    and raises nothing, whatever the lengths of the three lists. *)
Lemma build_certs_spec (names issuers dates : list pystr) :
  build_certs names issuers dates =
  Ok (map cert_dict (spec_certifications names issuers dates)).
Proof.
  unfold build_certs, spec_certifications.
  rewrite cert_loop_spec; [reflexivity|].
  intros i Hi. apply in_seq in Hi. lia.
Qed.

(** Rows are neither merged nor reordered: the list has one entry per
    non-blank name. *)
Lemma spec_certifications_length (names issuers dates : list pystr) :
  length (spec_certifications names issuers dates) =
  length (filter (fun n => str_truthy (strip n)) names).
Proof.
  unfold spec_certifications. rewrite length_map.
  assert (G : forall (l : list pystr) k,
             length (filter (fun i => str_truthy (strip (nth (i - k) l []))) (seq k (length l)))
             = length (filter (fun n => str_truthy (strip n)) l)).
  { induction l as [|x l IH]; intros k; [reflexivity|].
    cbn [length seq filter]. rewrite Nat.sub_diag.
    change (nth 0 (x :: l) []) with x.
    assert (E : filter (fun i => str_truthy (strip (nth (i - k) (x :: l) [])))
                       (seq (S k) (length l))
                = filter (fun i => str_truthy (strip (nth (i - S k) l [])))
                         (seq (S k) (length l))).
    { apply filter_ext_in. intros i Hi. apply in_seq in Hi.
      replace (i - k) with (S (i - S k)) by lia. reflexivity. }
    destruct (str_truthy (strip x)); cbn [length]; rewrite E, IH; reflexivity. }
  specialize (G names 0).
  rewrite <- G. f_equal. apply filter_ext. intros i. now rewrite Nat.sub_0_r.
Qed.

(* ------------------------------------------------------------------ *)
(** ** The decoder is total *)
(* ------------------------------------------------------------------ *)

Section JsonTotal.

Import Json.

(** Case analysis on the first [match] of the goal or of a hypothesis. *)
Ltac break_match :=
  match goal with
  | |- context [match ?x with _ => _ end] => destruct x eqn:?
  | H : context [match ?x with _ => _ end] |- _ => destruct x eqn:?
  end.

Lemma skip_ws_length s : length (skip_ws s) <= length s.
Proof.
  induction s as [|c s IH]; cbn [skip_ws length]; [lia|].
  destruct (is_ws c); cbn [length]; lia.
Qed.

Lemma emit_ok c x k r : emit c x = Ok (k, r) -> exists k', x = Ok (k', r).
Proof.
  unfold emit. destruct x as [[k' r']|e]; [|discriminate].
  intros H. injection H as _ <-. now exists k'.
Qed.

Lemma emit_raise c x e : emit c x = Raise e -> x = Raise e.
Proof. unfold emit. destruct x as [[k' r']|e']; [discriminate|]. congruence. Qed.

Lemma scanstring_length : forall n s, length s <= n ->
  forall k r, scanstring s = Ok (k, r) -> length r < length s.
Proof.
  induction n as [|n IH]; intros s Hn k r H.
  - destruct s; [discriminate H | cbn in Hn; lia].
  - destruct s as [|c s1]; [discriminate H|].
    cbn [scanstring] in H. cbn [length] in *.
    repeat break_match; try discriminate H;
      try (injection H as <- <-; cbn [length]; lia);
      try (apply emit_ok in H as [k' H]; apply IH in H; cbn [length] in *; subst; cbn [length] in *; lia).
Qed.

Lemma scanstring_no_recursion_error : forall n s, length s <= n ->
  scanstring s <> Raise RecursionError.
Proof.
  induction n as [|n IH]; intros s Hn H.
  - destruct s; [discriminate H | cbn in Hn; lia].
  - destruct s as [|c s1]; [discriminate H|].
    cbn [scanstring] in H. cbn [length] in *.
    repeat break_match; try discriminate H;
      try (apply emit_raise in H; apply IH in H; [contradiction|];
           subst; cbn [length] in *; lia).
Qed.

Lemma span_digits_length s :
  length (fst (span_digits s)) + length (snd (span_digits s)) = length s.
Proof.
  induction s as [|c s IH]; [reflexivity|].
  cbn [span_digits]. destruct (is_digit c); [|reflexivity].
  destruct (span_digits s) as [ds r]. cbn [fst snd length] in *. lia.
Qed.

Lemma span_digits_rest s ds r : span_digits s = (ds, r) -> length r <= length s.
Proof.
  intros H. pose proof (span_digits_length s) as L. rewrite H in L.
  cbn [fst snd] in L. lia.
Qed.

Lemma match_integer_length s integer rest :
  match_integer s = Some (integer, rest) -> length rest < length s.
Proof.
  unfold match_integer.
  assert (G : forall s0 sign,
             match s0 with
             | [] => None
             | c :: s' =>
                 if (c =? ord "0")%N then Some (sign ++ [c], s')
                 else if is_digit c
                      then let (ds, r) := span_digits s' in Some (sign ++ c :: ds, r)
                      else None
             end = Some (integer, rest) -> length rest < length s0).
  { intros [|c s'] sign; [discriminate|].
    destruct (c =? ord "0")%N.
    - intros H. injection H as _ <-. cbn [length]. lia.
    - destruct (is_digit c); [|discriminate].
      destruct (span_digits s') as [ds r] eqn:E. intros H. injection H as _ <-.
      apply span_digits_rest in E. cbn [length]. lia. }
  destruct s as [|c s']; [discriminate|].
  destruct (c =? ord "-")%N; intros H.
  - apply (G s' [c]) in H. cbn [length]. lia.
  - apply (G (c :: s') []) in H. exact H.
Qed.

Lemma match_frac_length s : length (snd (match_frac s)) <= length s.
Proof.
  unfold match_frac. destruct s as [|c s']; [cbn; lia|].
  destruct (c =? ord ".")%N; [|cbn; lia].
  destruct (span_digits s') as [[|d ds] r] eqn:E; cbn [snd length]; [lia|].
  apply span_digits_rest in E. lia.
Qed.

Lemma match_exp_length s : length (snd (match_exp s)) <= length s.
Proof.
  unfold match_exp. destruct s as [|e s']; [cbn; lia|].
  destruct ((e =? ord "e") || (e =? ord "E"))%N; [|cbn; lia].
  destruct s' as [|g t].
  - cbn. lia.
  - destruct ((g =? ord "-") || (g =? ord "+"))%N.
    + destruct (span_digits t) as [[|d ds] r] eqn:E; cbn [snd length]; [lia|].
      apply span_digits_rest in E. lia.
    + destruct (span_digits (g :: t)) as [[|d ds] r] eqn:E; cbn [snd length]; [lia|].
      apply span_digits_rest in E. cbn [length] in E. lia.
Qed.

Lemma match_number_length s integer frac exp rest :
  match_number s = Some (integer, frac, exp, rest) -> length rest < length s.
Proof.
  unfold match_number.
  destruct (match_integer s) as [[i s1]|] eqn:Ei; [|discriminate].
  apply match_integer_length in Ei.
  pose proof (match_frac_length s1) as Lf.
  destruct (match_frac s1) as [f s2]. cbn [snd] in Lf.
  pose proof (match_exp_length s2) as Le.
  destruct (match_exp s2) as [e s3]. cbn [snd] in Le.
  intros H. injection H as _ _ _ <-. lia.
Qed.

Lemma startswith_length p s : startswith p s = true -> length p <= length s.
Proof.
  revert s. induction p as [|x p IH]; intros s H; [cbn; lia|].
  destruct s as [|y s]; [discriminate|]. cbn [startswith] in H.
  apply andb_true_iff in H as [_ H]. apply IH in H. cbn [length]. lia.
Qed.

Lemma literal_rest (p s : pystr) (c : bool) :
  c && startswith p s = true -> 0 < length p ->
  length (skipn (length p) s) < length s.
Proof.
  intros H Hp. apply andb_true_iff in H as [_ H]. apply startswith_length in H.
  rewrite length_skipn. lia.
Qed.

(** The branch of [scan_atom] that reads the literal [p]. *)
Ltac literal_case p :=
  match goal with
  | |- context [if ?a && startswith p ?s then _ else _] =>
      let E := fresh "E" in
      destruct (a && startswith p s) eqn:E;
      [ let H := fresh "H" in
        let Hr := fresh "Hr" in
        intros H; injection H as _ Hr; rewrite <- Hr;
        apply (literal_rest p s a E); cbn; lia | ]
  end.

Lemma scan_atom_length s v r : scan_atom s = Ok (v, r) -> length r < length s.
Proof.
  unfold scan_atom. destruct s as [|c s']; [discriminate|].
  literal_case (lit "null"). literal_case (lit "true"). literal_case (lit "false").
  destruct (match_number (c :: s')) as [[[[i f] e] rest]|] eqn:Em.
  - apply match_number_length in Em.
    destruct (str_truthy f || str_truthy e); intros H; injection H as _ <-; exact Em.
  - literal_case (lit "NaN"). literal_case (lit "Infinity").
    literal_case (lit "-Infinity"). discriminate.
Qed.

Lemma scan_atom_no_recursion_error s : scan_atom s <> Raise RecursionError.
Proof.
  unfold scan_atom. destruct s as [|c s']; [discriminate|].
  repeat break_match; discriminate.
Qed.

Lemma expecting_value_ok {A} (x : result A) (a : A) :
  expecting_value x = Ok a -> x = Ok a.
Proof. unfold expecting_value. destruct x as [b|[]]; congruence. Qed.

Lemma expecting_value_no_recursion_error {A} (x : result A) :
  expecting_value x = Raise RecursionError -> x = Raise RecursionError.
Proof. unfold expecting_value. destruct x as [b|[]]; congruence. Qed.

(** Turns what was read into facts on lengths, for [lia]. *)
Ltac length_facts :=
  repeat match goal with
         | H : skip_ws ?x = ?y |- _ =>
             let L := fresh "L" in
             pose proof (skip_ws_length x) as L; rewrite H in L; clear H
         | H : scanstring ?x = Ok (_, _) |- _ =>
             apply (scanstring_length (length x) x (le_n _)) in H
         | H : expecting_value _ = Ok _ |- _ => apply expecting_value_ok in H
         | H : scan_atom _ = Ok _ |- _ => apply scan_atom_length in H
         | IH : forall s v r, scan_once ?f s = Ok (v, r) -> _,
           H : scan_once ?f _ = Ok _ |- _ => apply IH in H
         | IH : forall s p v r, object_loop ?f s p = Ok (v, r) -> _,
           H : object_loop ?f _ _ = Ok _ |- _ => apply IH in H
         | IH : forall s vs v r, array_loop ?f s vs = Ok (v, r) -> _,
           H : array_loop ?f _ _ = Ok _ |- _ => apply IH in H
         | H : Ok _ = Ok _ |- _ => injection H as ? ?; subst
         | H : [] = _ :: _ |- _ => discriminate H
         | H : _ :: _ = [] |- _ => discriminate H
         | H : _ :: _ = _ :: _ |- _ => injection H as ? ?; subst
         end;
  repeat match goal with
         | H : context [length (skip_ws ?x)] |- _ =>
             lazymatch goal with
             | _ : length (skip_ws x) <= length x |- _ => fail
             | _ => pose proof (skip_ws_length x)
             end
         end;
  cbn [length] in *; try lia.

(** Every value the scanner reads takes at least one character. *)
Lemma scan_consumes : forall fuel,
  (forall s v r, scan_once fuel s = Ok (v, r) -> length r < length s) /\
  (forall s p v r, object_loop fuel s p = Ok (v, r) -> length r < length s) /\
  (forall s vs v r, array_loop fuel s vs = Ok (v, r) -> length r < length s).
Proof.
  induction fuel as [|fuel (IHs & IHo & IHa)].
  - repeat split; intros; discriminate.
  - repeat split.
    + intros s v r H.
      change (scan_once (S fuel) s) with
        (scan_value (JSONObject (object_loop fuel)) (JSONArray (array_loop fuel)) s) in H.
      unfold scan_value, JSONObject, JSONArray in H.
      repeat break_match; try discriminate H; subst; length_facts.
    + intros s p v r H.
      change (object_loop (S fuel) s p) with
        (object_pair (scan_once fuel) (object_loop fuel) s p) in H.
      unfold object_pair in H.
      repeat break_match; try discriminate H; subst; length_facts.
    + intros s vs v r H.
      change (array_loop (S fuel) s vs) with
        (array_item (scan_once fuel) (array_loop fuel) s vs) in H.
      unfold array_item in H.
      repeat break_match; try discriminate H; subst; length_facts.
Qed.

(** The same, from [scan_consumes]. *)
Ltac consumed_facts :=
  repeat match goal with
         | H : skip_ws ?x = ?y |- _ =>
             let L := fresh "L" in
             pose proof (skip_ws_length x) as L; rewrite H in L; clear H
         | H : scanstring ?x = Ok (_, _) |- _ =>
             apply (scanstring_length (length x) x (le_n _)) in H
         | H : expecting_value _ = Ok _ |- _ => apply expecting_value_ok in H
         | H : scan_atom _ = Ok _ |- _ => apply scan_atom_length in H
         | H : scan_once ?f _ = Ok _ |- _ => apply (proj1 (scan_consumes f)) in H
         | H : object_loop ?f _ _ = Ok _ |- _ =>
             apply (proj1 (proj2 (scan_consumes f))) in H
         | H : array_loop ?f _ _ = Ok _ |- _ =>
             apply (proj2 (proj2 (scan_consumes f))) in H
         | H : [] = _ :: _ |- _ => discriminate H
         | H : _ :: _ = [] |- _ => discriminate H
         | H : _ :: _ = _ :: _ |- _ => injection H as ? ?; subst
         end;
  repeat match goal with
         | H : context [length (skip_ws ?x)] |- _ =>
             lazymatch goal with
             | _ : length (skip_ws x) <= length x |- _ => fail
             | _ => pose proof (skip_ws_length x)
             end
         | |- context [length (skip_ws ?x)] =>
             lazymatch goal with
             | _ : length (skip_ws x) <= length x |- _ => fail
             | _ => pose proof (skip_ws_length x)
             end
         end;
  cbn [length] in *; try lia.

(** Closes a branch in which [RecursionError] would have been raised. *)
Ltac no_recursion_error IHs IHo IHa :=
  repeat match goal with
         | H : Raise _ = Raise RecursionError |- _ => injection H as ?; subst
         | H : expecting_value _ = Raise RecursionError |- _ =>
             apply expecting_value_no_recursion_error in H
         end;
  match goal with
  | H : scanstring ?x = Raise RecursionError |- _ =>
      exact (scanstring_no_recursion_error (length x) x (le_n _) H)
  | H : scan_atom ?x = Raise RecursionError |- _ =>
      exact (scan_atom_no_recursion_error x H)
  | H : scan_once _ ?x = Raise RecursionError |- _ =>
      apply (IHs x); [clear H; consumed_facts | exact H]
  | H : object_loop _ ?x ?p = Raise RecursionError |- _ =>
      apply (IHo x p); [clear H; consumed_facts | exact H]
  | H : array_loop _ ?x ?p = Raise RecursionError |- _ =>
      apply (IHa x p); [clear H; consumed_facts | exact H]
  end.

(** Twice the length of the text, and one or two more, is fuel enough. *)
Lemma scan_fuel : forall fuel,
  (forall s, 2 * length s + 1 <= fuel -> scan_once fuel s <> Raise RecursionError) /\
  (forall s p, 2 * length s + 1 <= fuel -> object_loop fuel s p <> Raise RecursionError) /\
  (forall s vs, 2 * length s + 2 <= fuel -> array_loop fuel s vs <> Raise RecursionError).
Proof.
  induction fuel as [|fuel (IHs & IHo & IHa)].
  - repeat split; intros; lia.
  - repeat split.
    + intros s Hb H.
      change (scan_once (S fuel) s) with
        (scan_value (JSONObject (object_loop fuel)) (JSONArray (array_loop fuel)) s) in H.
      unfold scan_value, JSONObject, JSONArray in H.
      repeat break_match; try discriminate H; subst;
        no_recursion_error IHs IHo IHa.
    + intros s p Hb H.
      change (object_loop (S fuel) s p) with
        (object_pair (scan_once fuel) (object_loop fuel) s p) in H.
      unfold object_pair in H.
      repeat break_match; try discriminate H; subst;
        no_recursion_error IHs IHo IHa.
    + intros s vs Hb H.
      change (array_loop (S fuel) s vs) with
        (array_item (scan_once fuel) (array_loop fuel) s vs) in H.
      unfold array_item in H.
      repeat break_match; try discriminate H; subst;
        no_recursion_error IHs IHo IHa.
Qed.

(** [json.loads] never runs out of fuel: the bound on the calls of the
    scanner is not observable. *)
Lemma loads_no_recursion_error s : loads s <> Raise RecursionError.
Proof.
  unfold loads, decode. intros H.
  repeat break_match; try discriminate H; subst.
  injection H as ->. apply expecting_value_no_recursion_error in Heqr.
  apply (proj1 (scan_fuel (2 * length s + 1)) (skip_ws s)); [|exact Heqr].
  pose proof (skip_ws_length s). lia.
Qed.

End JsonTotal.

(* ------------------------------------------------------------------ *)
(** ** The decoder reads back what the encoder writes *)
(* ------------------------------------------------------------------ *)

Section JsonRoundTrip.

Import Json.
Local Open Scope N_scope.

(** Hexadecimal digits read back. *)
Lemma hexval_hexdigit d : d < 16 -> hexval (hexdigit d) = Some d.
Proof.
  intros Hd. unfold hexval, hexdigit.
  destruct (N.ltb_spec d 10).
  - replace ((48 <=? 48 + d) && (48 + d <=? 57)) with true.
    + f_equal. lia.
    + symmetry. apply andb_true_iff. split; apply N.leb_le; lia.
  - replace ((48 <=? 87 + d) && (87 + d <=? 57)) with false.
    + replace ((97 <=? 87 + d) && (87 + d <=? 102)) with true.
      * f_equal. lia.
      * symmetry. apply andb_true_iff. split; apply N.leb_le; lia.
    + symmetry. apply andb_false_iff. right. apply N.leb_gt. lia.
Qed.

Lemma decode_hex4 n : n < 65536 ->
  decode_uXXXX (hexdigit (n / 4096)) (hexdigit ((n / 256) mod 16))
               (hexdigit ((n / 16) mod 16)) (hexdigit (n mod 16)) = Some n.
Proof.
  intros Hn. unfold decode_uXXXX.
  rewrite !hexval_hexdigit.
  - f_equal. zify. Z.to_euclidean_division_equations. lia.
  - apply N.mod_lt; lia.
  - apply N.mod_lt; lia.
  - apply N.mod_lt; lia.
  - zify. Z.to_euclidean_division_equations. lia.
Qed.

Lemma land_shiftl_small a b n : b < 2 ^ n -> N.land (N.shiftl a n) b = 0.
Proof.
  intros Hb. apply N.bits_inj_0. intros m. rewrite N.land_spec.
  destruct (N.lt_ge_cases m n) as [H|H].
  - rewrite N.shiftl_spec_low by assumption. reflexivity.
  - destruct (N.eq_dec b 0) as [->|Hnz].
    + rewrite N.bits_0. apply andb_false_r.
    + rewrite (N.bits_above_log2 b m), andb_false_r; [reflexivity|].
      apply N.lt_le_trans with n; [|assumption].
      apply N.log2_lt_pow2; lia.
Qed.

Lemma lor_shiftl_small a b n : b < 2 ^ n -> N.lor (N.shiftl a n) b = a * 2 ^ n + b.
Proof.
  intros Hb. rewrite <- N.lxor_lor, <- N.add_nocarry_lxor by (apply land_shiftl_small; assumption).
  now rewrite N.shiftl_mul_pow2.
Qed.

(** The two halves of a surrogate pair, as sums. *)
Lemma surrogate_high n : n < 0x100000 ->
  N.lor 0xd800 (N.land (N.shiftr n 10) 0x3ff) = 0xd800 + n / 1024.
Proof.
  intros Hn. change 0x3ff with (N.ones 10). rewrite N.land_ones, N.shiftr_div_pow2.
  change (2 ^ 10) with 1024.
  rewrite N.mod_small by (zify; Z.to_euclidean_division_equations; lia).
  change 0xd800 with (N.shiftl 54 10) at 1.
  rewrite lor_shiftl_small; [reflexivity|].
  change (2 ^ 10) with 1024. zify; Z.to_euclidean_division_equations; lia.
Qed.

Lemma surrogate_low n :
  N.lor 0xdc00 (N.land n 0x3ff) = 0xdc00 + n mod 1024.
Proof.
  change 0x3ff with (N.ones 10). rewrite N.land_ones.
  change (2 ^ 10) with 1024.
  change 0xdc00 with (N.shiftl 55 10) at 1.
  rewrite lor_shiftl_small; [reflexivity|].
  change (2 ^ 10) with 1024. apply N.mod_lt. lia.
Qed.

Lemma surrogate_join n : n < 0x100000 ->
  0x10000 + N.lor (N.shiftl (0xd800 + n / 1024 - 0xd800) 10) (0xdc00 + n mod 1024 - 0xdc00)
  = 0x10000 + n.
Proof.
  intros Hn.
  rewrite (N.add_comm 0xd800), (N.add_comm 0xdc00), !N.add_sub.
  rewrite lor_shiftl_small.
  - change (2 ^ 10) with 1024. zify; Z.to_euclidean_division_equations; lia.
  - change (2 ^ 10) with 1024. apply N.mod_lt. lia.
Qed.

Lemma scanstring_u h1 h2 h3 h4 s3 :
  scanstring (92 :: 117 :: h1 :: h2 :: h3 :: h4 :: s3) =
  match decode_uXXXX h1 h2 h3 h4 with
  | None => Raise (JSONDecodeError "Invalid \\uXXXX escape")
  | Some uni =>
      if is_high_surrogate uni then
        match s3 with
        | b :: u :: s3' =>
            if (b =? 92) && (u =? ord "u") then
              match s3' with
              | k1 :: k2 :: k3 :: k4 :: s4 =>
                  match decode_uXXXX k1 k2 k3 k4 with
                  | None => Raise (JSONDecodeError "Invalid \\uXXXX escape")
                  | Some uni2 =>
                      if is_low_surrogate uni2 then
                        emit (0x10000 + N.lor (N.shiftl (uni - 0xd800) 10) (uni2 - 0xdc00))
                             (scanstring s4)
                      else emit uni (scanstring s3)
                  end
              | _ => Raise (JSONDecodeError "Invalid \\uXXXX escape")
              end
            else emit uni (scanstring s3)
        | _ => emit uni (scanstring s3)
        end
      else emit uni (scanstring s3)
  end.
Proof. reflexivity. Qed.

Lemma scanstring_plain c s :
  (c =? 34) = false -> (c =? 92) = false -> (c <? 32) = false ->
  scanstring (c :: s) = emit c (scanstring s).
Proof. intros H1 H2 H3. simpl. rewrite H1, H2, H3. reflexivity. Qed.

(** One character: the scanner reads [replace c] back as [c]. *)
Lemma scan_replace c rest :
  is_scalar_value c = true -> scanstring (replace c ++ rest) = emit c (scanstring rest).
Proof.
  intros Hc. unfold replace.
  destruct (c =? 92) eqn:E1. { apply N.eqb_eq in E1; subst; reflexivity. }
  destruct (c =? 34) eqn:E2. { apply N.eqb_eq in E2; subst; reflexivity. }
  destruct ((32 <=? c) && (c <=? 126)) eqn:E3.
  { apply andb_true_iff in E3 as [A _]. apply scanstring_plain; auto.
    apply N.ltb_ge. now apply N.leb_le. }
  destruct (c =? 8) eqn:E4. { apply N.eqb_eq in E4; subst; reflexivity. }
  destruct (c =? 12) eqn:E5. { apply N.eqb_eq in E5; subst; reflexivity. }
  destruct (c =? 10) eqn:E6. { apply N.eqb_eq in E6; subst; reflexivity. }
  destruct (c =? 13) eqn:E7. { apply N.eqb_eq in E7; subst; reflexivity. }
  destruct (c =? 9) eqn:E8. { apply N.eqb_eq in E8; subst; reflexivity. }
  unfold is_scalar_value in Hc.
  destruct (c <? 65536) eqn:E9.
  - apply N.ltb_lt in E9. unfold hex4. cbn [app].
    change (ord "u") with 117. rewrite scanstring_u, decode_hex4 by assumption.
    replace (is_high_surrogate c) with false; [reflexivity|].
    symmetry. unfold is_high_surrogate. apply andb_false_iff.
    apply orb_true_iff in Hc as [H|H].
    + left. apply N.leb_gt. now apply N.ltb_lt.
    + right. apply andb_true_iff in H as [H _]. apply N.leb_gt. apply N.ltb_lt in H. lia.
  - apply N.ltb_ge in E9.
    assert (Hmax : c <= 0x10ffff).
    { apply orb_true_iff in Hc as [H|H].
      - apply N.ltb_lt in H. lia.
      - apply andb_true_iff in H as [_ H]. now apply N.leb_le. }
    assert (Hn : c - 65536 < 0x100000) by lia.
    cbv zeta. rewrite (surrogate_high _ Hn), surrogate_low.
    set (hi := 0xd800 + (c - 65536) / 1024).
    set (lo := 0xdc00 + (c - 65536) mod 1024).
    assert (Hhi : 0xd800 <= hi <= 0xdbff).
    { subst hi. zify; Z.to_euclidean_division_equations; lia. }
    assert (Hlo : 0xdc00 <= lo <= 0xdfff).
    { subst lo. zify; Z.to_euclidean_division_equations; lia. }
    unfold hex4. cbn [app]. change (ord "u") with 117.
    rewrite scanstring_u, decode_hex4 by lia.
    replace (is_high_surrogate hi) with true
      by (symmetry; apply andb_true_iff; split; apply N.leb_le; lia).
    cbv iota. change ((92 =? 92) && (117 =? ord "u")) with true. cbv iota.
    rewrite decode_hex4 by lia.
    replace (is_low_surrogate lo) with true
      by (symmetry; apply andb_true_iff; split; apply N.leb_le; lia).
    subst hi lo. rewrite (surrogate_join _ Hn).
    replace (65536 + (c - 65536)) with c by lia. reflexivity.
Qed.

(** A whole string, up to its closing quote. *)
Lemma scanstring_encoded s rest :
  well_formed_str s = true ->
  scanstring (flat_map replace s ++ 34 :: rest) = Ok (s, rest).
Proof.
  induction s as [|c s IH]; intros H.
  - reflexivity.
  - simpl in H. apply andb_true_iff in H as [Hc Hs].
    cbn [flat_map]. rewrite <- app_assoc, scan_replace, IH by assumption. reflexivity.
Qed.

Lemma scan_once_string fuel s rest :
  well_formed_str s = true ->
  scan_once (S fuel) (34 :: flat_map replace s ++ 34 :: rest) = Ok (PStr s, rest).
Proof.
  intros H. 
  change (scan_once (S fuel)) with
    (scan_value (JSONObject (object_loop fuel)) (JSONArray (array_loop fuel))).
  unfold scan_value. cbn -[scanstring]. 
  rewrite scanstring_encoded by assumption. reflexivity.
Qed.

Lemma object_loop_more fuel k v rest pairs :
  well_formed_str k = true -> well_formed_str v = true ->
  object_loop (S (S fuel))
    (flat_map replace k ++ 34 :: 58 :: 32 :: 34 :: flat_map replace v ++
     34 :: 44 :: 32 :: 34 :: rest) pairs
  = object_loop (S fuel) rest (pairs ++ [(k, PStr v)]).
Proof.
  intros Hk Hv.
  change (object_loop (S (S fuel))) with
    (object_pair (scan_once (S fuel)) (object_loop (S fuel))).
  unfold object_pair. rewrite scanstring_encoded by assumption.
  cbn -[scan_once object_loop].
  rewrite scan_once_string by assumption.
  cbn -[scan_once object_loop]. reflexivity.
Qed.

Lemma object_loop_last fuel k v rest pairs :
  well_formed_str k = true -> well_formed_str v = true ->
  object_loop (S (S fuel))
    (flat_map replace k ++ 34 :: 58 :: 32 :: 34 :: flat_map replace v ++
     34 :: 125 :: rest) pairs
  = Ok (PDict (dict_of_pairs (pairs ++ [(k, PStr v)])), rest).
Proof.
  intros Hk Hv.
  change (object_loop (S (S fuel))) with
    (object_pair (scan_once (S fuel)) (object_loop (S fuel))).
  unfold object_pair. rewrite scanstring_encoded by assumption.
  cbn -[scan_once object_loop].
  rewrite scan_once_string by assumption.
  cbn -[scan_once object_loop]. reflexivity.
Qed.

(** One certification dict. *)
Lemma scan_once_cert fs fuel c rest :
  well_formed_cert c = true ->
  scan_once (5 + fuel) (dumps fs (cert_dict c) ++ rest) = Ok (cert_dict c, rest).
Proof.
  intros H. unfold well_formed_cert in H.
  apply andb_true_iff in H as [H Hd]. apply andb_true_iff in H as [Hn Hi].
  unfold cert_dict, cert_items.
  change (5 + fuel)%nat with (S (S (S (S (S fuel))))).
  change (scan_once (S (S (S (S (S fuel)))))) with
    (scan_value (JSONObject (object_loop (S (S (S (S fuel))))))
                (JSONArray (array_loop (S (S (S (S fuel))))))).
  json_text.
  rewrite 2!object_loop_more, object_loop_last by (assumption || reflexivity).
  reflexivity.
Qed.

Lemma dumps_cert_head fs c : exists tail, dumps fs (cert_dict c) = 123 :: 34 :: 110 :: 97 :: 109 :: tail.
Proof. unfold cert_dict, cert_items. eexists. cbn. reflexivity. Qed.

Lemma join_certs_head fs c L rest :
  exists tail,
    join (lit ", ") (map (dumps fs) (map cert_dict (c :: L))) ++ rest = 123 :: tail.
Proof.
  destruct (dumps_cert_head fs c) as [t Ht].
  destruct L as [|c' L]; cbn [map join]; rewrite Ht; eexists; reflexivity.
Qed.

(** The array loop over the encodings of a non-empty list. *)
Lemma array_loop_certs fs L : forall c fuel values rest,
  forallb well_formed_cert (c :: L) = true ->
  (length (c :: L) + 5 <= fuel)%nat ->
  array_loop fuel (join (lit ", ") (map (dumps fs) (map cert_dict (c :: L))) ++ 93 :: rest)
             values
  = Ok (PList (values ++ map cert_dict (c :: L)), rest).
Proof.
  induction L as [|c' L IH]; intros c fuel values rest Hwf Hfuel.
  - destruct fuel as [|fuel]; [cbn in Hfuel; lia|].
    cbn [length] in Hfuel.
    replace fuel with (5 + (fuel - 5))%nat by lia.
    change (array_loop (S (5 + (fuel - 5)))) with
      (array_item (scan_once (5 + (fuel - 5))) (array_loop (5 + (fuel - 5)))).
    cbn [map join]. unfold array_item.
    cbn [forallb] in Hwf. apply andb_true_iff in Hwf as [Hc _].
    rewrite scan_once_cert by assumption. reflexivity.
  - destruct fuel as [|fuel]; [cbn in Hfuel; lia|].
    cbn [length] in Hfuel.
    cbn [forallb] in Hwf. apply andb_true_iff in Hwf as [Hc Hwf].
    replace fuel with (5 + (fuel - 5))%nat at 1 by lia.
    change (array_loop (S (5 + (fuel - 5)))) with
      (array_item (scan_once (5 + (fuel - 5))) (array_loop (5 + (fuel - 5)))).
    replace (5 + (fuel - 5))%nat with fuel at 2 by lia.
    change (map (dumps fs) (map cert_dict (c :: c' :: L))) with
      (dumps fs (cert_dict c) :: map (dumps fs) (map cert_dict (c' :: L))).
    change (join (lit ", ") (dumps fs (cert_dict c) :: map (dumps fs) (map cert_dict (c' :: L))))
      with (dumps fs (cert_dict c) ++ lit ", " ++
            join (lit ", ") (map (dumps fs) (map cert_dict (c' :: L)))).
    rewrite <- !app_assoc. unfold array_item.
    rewrite scan_once_cert by assumption.
    destruct (join_certs_head fs c' L (93 :: rest)) as [t Ht].
    rewrite Ht. cbn -[array_loop]. rewrite <- Ht.
    rewrite IH by (cbn [forallb length] in *; auto; lia).
    rewrite <- app_assoc. reflexivity.
Qed.

Lemma length_join_ge (sep : pystr) (parts : list pystr) k :
  (forall p, In p parts -> (k <= length p)%nat) ->
  (k * length parts <= length (join sep parts))%nat.
Proof.
  induction parts as [|p ps IH]; intros H.
  - cbn. lia.
  - assert (Hp : (k <= length p)%nat) by (apply H; now left).
    assert (Hps : (k * length ps <= length (join sep ps))%nat)
      by (apply IH; intros q Hq; apply H; now right).
    destruct ps as [|q ps].
    + cbn in *. lia.
    + change (join sep (p :: q :: ps)) with (p ++ sep ++ join sep (q :: ps)).
      rewrite !length_app. cbn [length] in *. lia.
Qed.

(** Decoding the encoding of a list of well-formed certifications gives
    the list back. *)
Lemma loads_dumps_certs fs L :
  forallb well_formed_cert L = true ->
  loads (dumps fs (PList (map cert_dict L))) = Ok (PList (map cert_dict L)).
Proof.
  intros Hwf. destruct L as [|c L]; [reflexivity|].
  change (dumps fs (PList (map cert_dict (c :: L)))) with
    (91 :: join (lit ", ") (map (dumps fs) (map cert_dict (c :: L))) ++ [93]).
  set (body := join (lit ", ") (map (dumps fs) (map cert_dict (c :: L)))).
  assert (Hlen : (length (c :: L) <= length body)%nat).
  { subst body. 
    pose proof (length_join_ge (lit ", ") (map (dumps fs) (map cert_dict (c :: L))) 1) as H.
    rewrite !length_map in H. rewrite Nat.mul_1_l in H. apply H.
    intros p Hp. apply in_map_iff in Hp as [v [<- Hv]].
    apply in_map_iff in Hv as [c0 [<- _]].
    destruct (dumps_cert_head fs c0) as [t ->]. cbn. lia. }
  unfold loads. cbn [startswith N.eqb Pos.eqb andb].
  unfold decode.
  remember (2 * length (91 :: body ++ [93])%N + 1)%nat as fuel eqn:Hfuel.
  cbn [length] in Hfuel. rewrite length_app in Hfuel. cbn [length] in *.
  destruct fuel as [|fuel]; [lia|].
  cbn [skip_ws is_ws N.eqb Pos.eqb orb].
  change (scan_once (S fuel)) with
    (scan_value (JSONObject (object_loop fuel)) (JSONArray (array_loop fuel))).
  change (scan_value (JSONObject (object_loop fuel)) (JSONArray (array_loop fuel))
                     (91 :: body ++ [93]))
    with (JSONArray (array_loop fuel) (body ++ [93])).
  unfold JSONArray. subst body.
  destruct (join_certs_head fs c L [93]) as [t Ht].
  rewrite Ht. cbn -[array_loop]. rewrite <- Ht.
  rewrite array_loop_certs by (assumption || (cbn [length]; lia)).
  reflexivity.
Qed.

End JsonRoundTrip.

(* ------------------------------------------------------------------ *)
(** ** The certification codec *)
(* ------------------------------------------------------------------ *)

(** What the setter stores is never empty. *)
Lemma dumps_list_truthy (floatstr : pystr -> pystr) (l : list py_value) :
  str_truthy (Json.dumps floatstr (PList l)) = true.
Proof. destruct l; reflexivity. Qed.

(** C2: for every well-formed certification list [L] (records of a name,
    an issuer and a date, each a string of Unicode scalar values), decoding
    the string that encoding [L] produces yields [L] exactly; so does
    reading the [certifications] property after setting it to [L]. *)
Theorem certifications_roundtrip :
  forall (floatstr : pystr -> pystr) (L : list Certification.t) (self : User.t),
    forallb well_formed_cert L = true ->
    Json.loads (Json.dumps floatstr (PList (map cert_dict L)))
    = Ok (PList (map cert_dict L)) /\
    User.certifications (User.set_certifications floatstr (PList (map cert_dict L)) self)
    = Ok (PList (map cert_dict L)).
Proof.
  intros floatstr L self Hwf. split.
  - now apply loads_dumps_certs.
  - unfold User.certifications, User.set_certifications. cbn [User.certifications_data
      User.set_certifications_data column_truthy].
    rewrite dumps_list_truthy. cbn [negb].
    rewrite loads_dumps_certs by assumption. reflexivity.
Qed.

(** An instance: three certifications, one with quotes, a backslash,
    control characters and code points beyond the basic plane. *)
Lemma certifications_roundtrip_witness :
  Json.loads (Json.dumps demo_floatstr (PList (map cert_dict demo_certs)))
  = Ok (PList (map cert_dict demo_certs)) /\
  User.certifications
    (User.set_certifications demo_floatstr (PList (map cert_dict demo_certs)) bob)
  = Ok (PList (map cert_dict demo_certs)).
Proof.
  apply (certifications_roundtrip demo_floatstr demo_certs bob).
  vm_compute. reflexivity.
Defined.

(** Outside well-formed text the law stops: a high surrogate followed by
    a low one is written as two escapes, which the decoder reads back as
    one code point.  No form field holds such a string. *)
Lemma surrogate_halves_merge :
  Json.loads (Json.dumps demo_floatstr
                (PList [cert_dict (Certification.mk [0xd83d; 0xde00]%N [] [])]))
  = Ok (PList [cert_dict (Certification.mk [0x1f600]%N [] [])]).
Proof. vm_compute. reflexivity. Qed.

(** The fall-back of the getter, as far as it reaches: the getter of
    [certifications] never raises, and for a raw value that is absent
    ([None] or the empty string) or that [json.loads] rejects, with
    whatever exception, it returns the empty list. *)
Theorem certifications_fail_safe :
  forall self : User.t,
    (exists value, User.certifications self = Ok value) /\
    ((User.certifications_data self = None \/
      User.certifications_data self = Some [] \/
      exists data e, User.certifications_data self = Some data /\
                     Json.loads data = Raise e) ->
     User.certifications self = Ok (PList [])).
Proof.
  intros self. unfold User.certifications. split.
  - destruct (User.certifications_data self) as [data|]; cbn [column_truthy negb].
    + destruct (str_truthy data); cbn [negb].
      * destruct (Json.loads data) as [v|e]; cbn [catch]; eexists; reflexivity.
      * eexists; reflexivity.
    + eexists; reflexivity.
  - intros [H | [H | (data & e & H & Hl)]]; rewrite H; cbn [column_truthy str_truthy negb].
    + reflexivity.
    + reflexivity.
    + destruct (str_truthy data); cbn [negb]; [|reflexivity].
      rewrite Hl. reflexivity.
Qed.

(** An instance: single-quoted text, which is not JSON. *)
Lemma certifications_fail_safe_witness :
  User.certifications
    (User.set_certifications_data (Some (lit "[{'name': 'AWS CCP'}]")) bob)
  = Ok (PList []).
Proof.
  apply (certifications_fail_safe
           (User.set_certifications_data (Some (lit "[{'name': 'AWS CCP'}]")) bob)).
  right. right. eexists. eexists. split.
  - reflexivity.
  - vm_compute. reflexivity.
Defined.

(** Text that [json.loads] accepts is returned as it decodes, list or
    not: only a decoding error falls back to the empty list. *)
Lemma certifications_of_valid_json (self : User.t) (data : pystr) (value : py_value) :
  User.certifications_data self = Some data ->
  data <> [] ->
  Json.loads data = Ok value ->
  User.certifications self = Ok value.
Proof.
  intros H Hne Hl. unfold User.certifications. rewrite H.
  destruct data; [contradiction|]. cbn [column_truthy str_truthy negb].
  rewrite Hl. reflexivity.
Qed.

(** C3, where the code departs from it: certification text that is JSON
    but not the encoding of a certification list is malformed data that
    the getter does not turn into the empty list.  For the text 5 the
    property is the integer 5, not a list at all (its docstring reads
    "Returns the certifications as a Python list"); for the text [1] it is
    the list of the integer 1.  The error the fall-back is there to keep
    away then comes up in the export: [for cert in 5] is a TypeError,
    [cert.get] on an integer an AttributeError, and the answer is 500. *)
Theorem certifications_returns_what_decodes :
  User.certifications (bob_storing (lit "5")) = Ok (PInt 5) /\
  User.certifications (bob_storing (lit "[1]")) = Ok (PList [PInt 1]) /\
  portfolio_story demo_float_nonzero demo_py_str (bob_storing (lit "5")) [bob_project]
  = Raise TypeError /\
  portfolio_story demo_float_nonzero demo_py_str (bob_storing (lit "[1]")) [bob_project]
  = Raise AttributeError /\
  respond (download_portfolio demo_float_nonzero demo_py_str (lit "bob"))
          (world_where_bob_stores (lit "5"))
  = (Aborted 500, world_where_bob_stores (lit "5")) /\
  respond (download_portfolio demo_float_nonzero demo_py_str (lit "bob"))
          (world_where_bob_stores (lit "[1]"))
  = (Aborted 500, world_where_bob_stores (lit "[1]")).
Proof.
  assert (H5 : Json.loads (lit "5") = Ok (PInt 5)) by (vm_compute; reflexivity).
  assert (H1 : Json.loads (lit "[1]") = Ok (PList [PInt 1])) by (vm_compute; reflexivity).
  assert (G5 : User.certifications (bob_storing (lit "5")) = Ok (PInt 5)).
  { apply (certifications_of_valid_json _ (lit "5")); [reflexivity | discriminate | exact H5]. }
  assert (G1 : User.certifications (bob_storing (lit "[1]")) = Ok (PList [PInt 1])).
  { apply (certifications_of_valid_json _ (lit "[1]"));
      [reflexivity | discriminate | exact H1]. }
  assert (S5 : portfolio_story demo_float_nonzero demo_py_str (bob_storing (lit "5"))
                               [bob_project] = Raise TypeError).
  { unfold portfolio_story. rewrite G5. reflexivity. }
  assert (S1 : portfolio_story demo_float_nonzero demo_py_str (bob_storing (lit "[1]"))
                               [bob_project] = Raise AttributeError).
  { unfold portfolio_story. rewrite G1. reflexivity. }
  split; [exact G5|]. split; [exact G1|]. split; [exact S5|]. split; [exact S1|].
  split; vm_compute; reflexivity.
Qed.

(* ------------------------------------------------------------------ *)
(** ** The store *)
(* ------------------------------------------------------------------ *)

(** After the commit of an update, the account reloads as the row that
    was written. *)
Lemma find_replace_user (rows : list User.t) (u pending : User.t) :
  find (fun r => Z.eqb (User.id r) (User.id pending)) rows = Some u ->
  find (fun r => Z.eqb (User.id r) (User.id pending)) (replace_user pending rows)
  = Some pending.
Proof.
  unfold replace_user.
  induction rows as [|r rows IH]; intros H; [discriminate|].
  cbn [find map] in *.
  destruct (Z.eqb (User.id r) (User.id pending)) eqn:E.
  - now rewrite Z.eqb_refl.
  - rewrite E. now apply IH.
Qed.


(** A logged-in account reaches the view as [current_user]. *)
Lemma login_required_authenticated (view : User.t -> M response) (w : World)
                                   (current_user : User.t) :
  session_user w = Some (User.id current_user) ->
  load_user w (User.id current_user) = Some current_user ->
  login_required view w = view current_user w.
Proof. intros Hs Hl. unfold login_required. now rewrite Hs, Hl. Qed.

(* ------------------------------------------------------------------ *)
(** ** Profile updates *)
(* ------------------------------------------------------------------ *)

Section Profile.

Variable floatstr : pystr -> pystr.
Variable generate_password_hash : pystr -> pystr -> pystr.
Variable env : Env.
Variable request : Request.
Variable current_user : User.t.

(** The account as [profile] hands it to the commit. *)
Lemma profile_assignments_fields :
  exists pending,
    profile_assignments floatstr generate_password_hash env request current_user
    = Ok pending /\
    User.id pending = User.id current_user /\
    User.email pending = User.email current_user /\
    User.username pending = multi_get (form request) (lit "username") /\
    User.tagline pending = multi_get (form request) (lit "tagline") /\
    User.bio pending = multi_get (form request) (lit "bio") /\
    User.avatar_url pending = multi_get (form request) (lit "avatar_url") /\
    User.status pending = multi_get (form request) (lit "status") /\
    User.course pending = multi_get (form request) (lit "course") /\
    User.faction pending = multi_get (form request) (lit "faction") /\
    User.skills pending = multi_get (form request) (lit "skills") /\
    User.public_email pending = multi_get (form request) (lit "public_email") /\
    User.linkedin pending = multi_get (form request) (lit "linkedin") /\
    User.github pending = multi_get (form request) (lit "github") /\
    User.password pending =
      match multi_get (form request) (lit "new_password") with
      | Some pw => if str_truthy pw
                   then generate_password_hash (bcrypt_salt env) pw
                   else User.password current_user
      | None => User.password current_user
      end /\
    User.certifications_data pending =
      Some (Json.dumps floatstr
              (PList (map cert_dict
                             (spec_certifications
                                (getlist (form request) (lit "cert_name[]"))
                                (getlist (form request) (lit "cert_issuer[]"))
                                (getlist (form request) (lit "cert_date[]")))))).
Proof.
  unfold profile_assignments. rewrite build_certs_spec. cbn [rbind].
  eexists. split; [reflexivity|].
  destruct (multi_get (form request) (lit "new_password")) as [pw|];
    [destruct (str_truthy pw)|]; repeat split; reflexivity.
Qed.

(** A commit that the constraints accept writes the account. *)
Lemma profile_post_commits (pending : User.t) (w : World) :
  method request = POST ->
  profile_assignments floatstr generate_password_hash env request current_user
  = Ok pending ->
  user_violation (user_table w) pending = None ->
  respond (profile floatstr generate_password_hash env request current_user) w =
  (Redirect "profile",
   with_flashes (flashes w ++ [(lit "Profile updated successfully!", "success"%string)])
                (with_users (replace_user pending (user_table w)) w)).
Proof.
  intros Hm Ha Hv. unfold respond, profile. rewrite Hm.
  unfold bind, lift, try_except, commit, flash, ret. rewrite Ha, Hv. reflexivity.
Qed.

(** A commit that the constraints refuse is rolled back: the tables keep
    what they held, and the message names the cause. *)
Lemma profile_post_rolls_back (pending : User.t) (w : World) (detail : string) :
  method request = POST ->
  profile_assignments floatstr generate_password_hash env request current_user
  = Ok pending ->
  user_violation (user_table w) pending = Some detail ->
  respond (profile floatstr generate_password_hash env request current_user) w =
  (Redirect "profile",
   with_flashes (flashes w ++ [(lit "Error updating profile: " ++ lit detail,
                                "danger"%string)]) w).
Proof.
  intros Hm Ha Hv. unfold respond, profile. rewrite Hm.
  unfold bind, lift, try_except, commit, flash, ret, rollback. rewrite Ha, Hv.
  reflexivity.
Qed.

(** The account stored after an accepted update is the pending one. *)
Lemma profile_post_stored (pending : User.t) (w : World) :
  method request = POST ->
  session_user w = Some (User.id current_user) ->
  load_user w (User.id current_user) = Some current_user ->
  profile_assignments floatstr generate_password_hash env request current_user
  = Ok pending ->
  user_violation (user_table w) pending = None ->
  exists w',
    respond (login_required (profile floatstr generate_password_hash env request)) w
    = (Redirect "profile", w') /\
    load_user w' (User.id current_user) = Some pending.
Proof.
  intros Hm Hs Hl Ha Hv.
  destruct profile_assignments_fields as (p & Hp & Hid & _).
  assert (p = pending) by congruence. subst p.
  unfold respond. rewrite (login_required_authenticated _ w current_user Hs Hl).
  pose proof (profile_post_commits pending w Hm Ha Hv) as H. unfold respond in H.
  destruct (profile floatstr generate_password_hash env request current_user w)
    as [[r|[]] w0]; try discriminate H; injection H as -> ->;
    (eexists; split; [reflexivity|]);
    unfold load_user in *; cbn [user_table with_flashes with_users];
    rewrite <- Hid in *; eapply find_replace_user; eassumption.
Qed.


End Profile.

(** C1: for the three parallel form lists of a profile save, the stored
    certification list is, in the order of the rows, the records of
    [names[i]], [issuers[i]] (or the empty string past the end of
    [issuers]) and [dates[i]] (likewise), for exactly the indices [i] whose
    name is non-empty after trimming.  Nothing is raised whatever the
    lengths; nothing is merged.  The list is what the loop builds, what the
    setter encodes into the account, what the getter reads back, and what
    the account holds in the store once the commit is accepted. *)
Theorem profile_persists_certifications :
  forall (floatstr : pystr -> pystr) (generate_password_hash : pystr -> pystr -> pystr)
         (env : Env) (request : Request) (current_user : User.t),
    let names := getlist (form request) (lit "cert_name[]") in
    let issuers := getlist (form request) (lit "cert_issuer[]") in
    let dates := getlist (form request) (lit "cert_date[]") in
    let expected := spec_certifications names issuers dates in
    build_certs names issuers dates = Ok (map cert_dict expected) /\
    length expected = length (filter (fun n => str_truthy (strip n)) names) /\
    exists pending,
      profile_assignments floatstr generate_password_hash env request current_user
      = Ok pending /\
      User.certifications_data pending
      = Some (Json.dumps floatstr (PList (map cert_dict expected))) /\
      (forallb well_formed_cert expected = true ->
       User.certifications pending = Ok (PList (map cert_dict expected))) /\
      (forall w,
          method request = POST ->
          session_user w = Some (User.id current_user) ->
          load_user w (User.id current_user) = Some current_user ->
          user_violation (user_table w) pending = None ->
          exists w',
            respond (login_required
                       (profile floatstr generate_password_hash env request)) w
            = (Redirect "profile", w') /\
            load_user w' (User.id current_user) = Some pending).
Proof.
  intros floatstr gph env request current_user names issuers dates expected.
  split; [apply build_certs_spec|].
  split; [apply spec_certifications_length|].
  destruct (profile_assignments_fields floatstr gph env request current_user)
    as (pending & Ha & _ & _ & _ & _ & _ & _ & _ & _ & _ & _ & _ & _ & _ & _ & Hc).
  exists pending. split; [exact Ha|]. split; [exact Hc|]. split.
  - intros Hwf. unfold User.certifications. rewrite Hc.
    cbn [column_truthy]. rewrite dumps_list_truthy. cbn [negb].
    fold names issuers dates expected.
    rewrite loads_dumps_certs by assumption. reflexivity.
  - intros w Hm Hs Hl Hv.
    now apply profile_post_stored.
Qed.

(** An instance: four rows, one blank, one repeated, with fewer issuers
    and dates than names. *)
Lemma profile_persists_certifications_witness :
  exists w',
    respond (login_required
               (profile demo_floatstr demo_generate_password_hash demo_env
                        demo_profile_request)) demo_world
    = (Redirect "profile", w') /\
    exists stored,
      load_user w' 1 = Some stored /\
      User.certifications stored =
      Ok (PList [cert_dict aws_ccp;
                 cert_dict (Certification.mk (lit "AWS CCP") (lit "Amazon") []);
                 cert_dict (Certification.mk (lit " CKA ") [] [])]).
Proof.
  destruct (profile_persists_certifications demo_floatstr demo_generate_password_hash
              demo_env demo_profile_request alice)
    as (_ & _ & pending & Ha & _ & Hr & Hw).
  vm_compute in Ha. injection Ha as Ha.
  destruct (Hw demo_world eq_refl eq_refl eq_refl) as (w' & Hres & Hload).
  - rewrite <- Ha. vm_compute. reflexivity.
  - exists w'. split; [exact Hres|]. exists pending. split; [exact Hload|].
    rewrite Hr; [reflexivity|]. vm_compute. reflexivity.
Defined.

(** C7: when the submitted [new_password] is absent or empty, the account
    handed to the commit carries the password hash it had, and so does the
    stored account after the request, committed or rolled back.  When it is
    non-empty, the account carries the output of the hashing primitive on
    it (so never the plaintext, unless the primitive returned it), and that
    is what the store holds once the commit is accepted. *)
Theorem profile_password :
  forall (floatstr : pystr -> pystr) (generate_password_hash : pystr -> pystr -> pystr)
         (env : Env) (request : Request) (current_user : User.t),
    let new_password := multi_get (form request) (lit "new_password") in
    let route := login_required (profile floatstr generate_password_hash env request) in
    exists pending,
      profile_assignments floatstr generate_password_hash env request current_user
      = Ok pending /\
      ((new_password = None \/ new_password = Some []) ->
       User.password pending = User.password current_user /\
       forall w,
         method request = POST ->
         session_user w = Some (User.id current_user) ->
         load_user w (User.id current_user) = Some current_user ->
         exists stored,
           load_user (snd (respond route w)) (User.id current_user) = Some stored /\
           User.password stored = User.password current_user) /\
      (forall pw,
          new_password = Some pw -> pw <> [] ->
          User.password pending = generate_password_hash (bcrypt_salt env) pw /\
          (generate_password_hash (bcrypt_salt env) pw <> pw ->
           User.password pending <> pw) /\
          forall w,
            method request = POST ->
            session_user w = Some (User.id current_user) ->
            load_user w (User.id current_user) = Some current_user ->
            user_violation (user_table w) pending = None ->
            exists stored,
              load_user (snd (respond route w)) (User.id current_user) = Some stored /\
              User.password stored = generate_password_hash (bcrypt_salt env) pw).
Proof.
  intros floatstr gph env request current_user new_password route.
  destruct (profile_assignments_fields floatstr gph env request current_user)
    as (pending & Ha & Hid & _ & _ & _ & _ & _ & _ & _ & _ & _ & _ & _ & _ & Hp & _).
  fold new_password in Hp.
  exists pending. split; [exact Ha|]. split.
  - intros Hnew.
    assert (Hpw : User.password pending = User.password current_user).
    { destruct Hnew as [H|H]; rewrite H in Hp; exact Hp. }
    split; [exact Hpw|].
    intros w Hm Hs Hl. subst route. unfold respond.
    rewrite (login_required_authenticated _ w current_user Hs Hl).
    destruct (user_violation (user_table w) pending) as [detail|] eqn:Hv.
    + pose proof (profile_post_rolls_back floatstr gph env request current_user
                    pending w detail Hm Ha Hv) as H.
      unfold respond in H.
      destruct (profile floatstr gph env request current_user w) as [[r|[]] w0];
        try discriminate H; injection H as _ ->;
        exists current_user; split; auto.
    + pose proof (profile_post_commits floatstr gph env request current_user
                    pending w Hm Ha Hv) as H.
      unfold respond in H.
      destruct (profile floatstr gph env request current_user w) as [[r|[]] w0];
        try discriminate H; injection H as _ ->;
        exists pending; (split; [|exact Hpw]);
        unfold load_user in *; cbn [snd user_table with_flashes with_users];
        rewrite <- Hid in *; eapply find_replace_user; eassumption.
  - intros pw Hnew Hne. rewrite Hnew in Hp.
    destruct pw as [|c pw]; [contradiction|]. cbn [str_truthy] in Hp.
    split; [exact Hp|]. split; [now rewrite Hp|].
    intros w Hm Hs Hl Hv.
    destruct (profile_post_stored floatstr gph env request current_user pending w
                Hm Hs Hl Ha Hv) as (w' & Hres & Hload).
    exists pending. subst route. rewrite Hres. cbn [snd]. now split.
Qed.

(** An instance: an update with an empty [new_password]. *)
Lemma profile_password_witness :
  exists stored,
    load_user
      (snd (respond (login_required
                       (profile demo_floatstr demo_generate_password_hash demo_env
                                demo_profile_request)) demo_world)) 1
    = Some stored /\
    User.password stored = User.password alice.
Proof.
  destruct (profile_password demo_floatstr demo_generate_password_hash demo_env
              demo_profile_request alice) as (pending & _ & Hsame & _).
  destruct (Hsame (or_intror eq_refl)) as (_ & Hw).
  exact (Hw demo_world eq_refl eq_refl eq_refl).
Defined.



(** An update that submits no [username] assigns [None] to it, which the
    store refuses: the request ends with the tables as they were. *)
Lemma profile_without_username_rolls_back
      (floatstr : pystr -> pystr) (generate_password_hash : pystr -> pystr -> pystr)
      (env : Env) (request : Request) (current_user : User.t) (w : World) :
  method request = POST ->
  multi_get (form request) (lit "username") = None ->
  respond (profile floatstr generate_password_hash env request current_user) w =
  (Redirect "profile",
   with_flashes
     (flashes w ++ [(lit "Error updating profile: " ++
                     lit "NOT NULL constraint failed: user.username", "danger"%string)])
     w).
Proof.
  intros Hm Hn.
  destruct (profile_assignments_fields floatstr generate_password_hash env request
              current_user) as (pending & Ha & _ & _ & Hu & _).
  apply (profile_post_rolls_back floatstr generate_password_hash env request
           current_user pending w _ Hm Ha).
  unfold user_violation. rewrite Hu. cbv zeta in Hn. now rewrite Hn.
Qed.

(* ------------------------------------------------------------------ *)
(** ** Projects: ownership *)
(* ------------------------------------------------------------------ *)

Lemma project_get_or_404_found (id : Z) (w : World) (project : Project.t) :
  find (fun p => Z.eqb (Project.id p) id) (project_table w) = Some project ->
  project_get_or_404 id w = (Ok project, w).
Proof. intros H. unfold project_get_or_404. now rewrite H. Qed.

(** A project id that no row carries is answered 404, by both routes. *)
Lemma missing_project_not_found (env : Env) (id : Z) (request : Request)
                                (current_user : User.t) (w : World) :
  find (fun p => Z.eqb (Project.id p) id) (project_table w) = None ->
  respond (edit_project env id request current_user) w = (Aborted 404, w) /\
  respond (delete_project env id current_user) w = (Aborted 404, w).
Proof.
  intros H. unfold respond, edit_project, delete_project, bind, project_get_or_404.
  rewrite H. split; reflexivity.
Qed.

(** C5: for an authenticated account and an existing project that another
    account owns, the edit route and the delete route both answer with the
    flashed message "Access denied." and a redirect, and change nothing
    else: the project table, the account table and the upload directory
    are as before.  The answer is not the 404 of a missing project. *)
Theorem foreign_project_access_denied :
  forall (env : Env) (id : Z) (request : Request) (current_user : User.t)
         (w : World) (project : Project.t) (owner : Z),
    session_user w = Some (User.id current_user) ->
    load_user w (User.id current_user) = Some current_user ->
    find (fun p => Z.eqb (Project.id p) id) (project_table w) = Some project ->
    Project.user_id project = Some owner ->
    owner <> User.id current_user ->
    let denied :=
      (Redirect "projects",
       with_flashes (flashes w ++ [(lit "Access denied.", "danger"%string)]) w) in
    respond (login_required (edit_project env id request)) w = denied /\
    respond (login_required (delete_project env id)) w = denied /\
    project_table (snd denied) = project_table w /\
    user_table (snd denied) = user_table w /\
    uploads (snd denied) = uploads w /\
    fst denied <> Aborted 404.
Proof.
  intros env id request current_user w project owner Hs Hl Hfind Hown Hne denied.
  assert (Hno : not_owner project current_user = true).
  { unfold not_owner. rewrite Hown. apply negb_true_iff. now apply Z.eqb_neq. }
  unfold respond.
  rewrite !(login_required_authenticated _ w current_user Hs Hl).
  unfold edit_project, delete_project, bind.
  rewrite (project_get_or_404_found id w project Hfind), Hno.
  repeat split; try reflexivity. discriminate.
Qed.

(** An instance: Alice, logged in, edits and deletes the project of Bob. *)
Lemma foreign_project_access_denied_witness :
  let denied :=
    (Redirect "projects",
     with_flashes [(lit "Access denied.", "danger"%string)] demo_world) in
  respond (login_required
             (edit_project demo_env 2
                {| method := POST;
                   form := [(lit "title", lit "Mine now"); (lit "description", [])];
                   files := [(lit "image", malware)] |})) demo_world = denied /\
  respond (login_required (delete_project demo_env 2)) demo_world = denied /\
  project_table (snd denied) = project_table demo_world.
Proof.
  destruct (foreign_project_access_denied demo_env 2
              {| method := POST;
                 form := [(lit "title", lit "Mine now"); (lit "description", [])];
                 files := [(lit "image", malware)] |}
              alice demo_world bob_project 2 eq_refl eq_refl eq_refl eq_refl)
    as (He & Hd & Hp & _).
  - discriminate.
  - repeat split; assumption.
Defined.

(* ------------------------------------------------------------------ *)
(** ** Login *)
(* ------------------------------------------------------------------ *)

(** C6: a login with a registered email and a password the check refuses,
    and a login with an email no account has, end alike: the same flashed
    message "Invalid credentials.", the same page, nobody logged in.  What
    the two requests return and leave behind is equal, so it tells nothing
    about whether the email exists. *)
Theorem login_failures_indistinguishable :
  forall (check_password_hash : pystr -> pystr -> bool) (w : World)
         (known_request unknown_request : Request)
         (known_email unknown_email wrong_password any_password : pystr)
         (user : User.t),
    method known_request = POST ->
    method unknown_request = POST ->
    multi_get (form known_request) (lit "email") = Some known_email ->
    multi_get (form known_request) (lit "password") = Some wrong_password ->
    multi_get (form unknown_request) (lit "email") = Some unknown_email ->
    multi_get (form unknown_request) (lit "password") = Some any_password ->
    find (fun u => pystr_eqb (User.email u) known_email) (user_table w) = Some user ->
    check_password_hash (User.password user) wrong_password = false ->
    find (fun u => pystr_eqb (User.email u) unknown_email) (user_table w) = None ->
    respond (login check_password_hash known_request) w
    = respond (login check_password_hash unknown_request) w /\
    respond (login check_password_hash known_request) w
    = (RenderTemplate "login.html",
       with_flashes (flashes w ++ [(lit "Invalid credentials.", "danger"%string)]) w).
Proof.
  intros check w kr ur ke ue wp ap user Hm1 Hm2 He1 Hp1 He2 Hp2 Hfound Hcheck Hnone.
  assert (H1 : respond (login check kr) w =
               (RenderTemplate "login.html",
                with_flashes (flashes w ++ [(lit "Invalid credentials.", "danger"%string)]) w)).
  { unfold respond, login. rewrite Hm1.
    unfold bind, lift, multi_getitem, user_by_email.
    rewrite He1, Hp1, Hfound, Hcheck. reflexivity. }
  assert (H2 : respond (login check ur) w =
               (RenderTemplate "login.html",
                with_flashes (flashes w ++ [(lit "Invalid credentials.", "danger"%string)]) w)).
  { unfold respond, login. rewrite Hm2.
    unfold bind, lift, multi_getitem, user_by_email.
    rewrite He2, Hp2, Hnone. reflexivity. }
  split; [now rewrite H1, H2 | exact H1].
Qed.

(** An instance: a wrong password for Alice, and an email nobody has. *)
Lemma login_failures_indistinguishable_witness :
  respond (login demo_check_password_hash
                 (demo_login_request (lit "alice@example.org") (lit "guess"))) demo_world
  = respond (login demo_check_password_hash
                   (demo_login_request (lit "carol@example.org") (lit "guess"))) demo_world.
Proof.
  apply (login_failures_indistinguishable demo_check_password_hash demo_world
           (demo_login_request (lit "alice@example.org") (lit "guess"))
           (demo_login_request (lit "carol@example.org") (lit "guess"))
           (lit "alice@example.org") (lit "carol@example.org")
           (lit "guess") (lit "guess") alice);
    reflexivity.
Defined.

(** The right password logs the account in. *)
Lemma login_succeeds :
  respond (login demo_check_password_hash
                 (demo_login_request (lit "bob@example.org") (lit "builder"))) demo_world
  = (Redirect "dashboard",
     with_flashes [(lit "Logged in successfully.", "success"%string)]
                  (with_session_user (Some 2%Z) demo_world)).
Proof. vm_compute. reflexivity. Qed.

(* ------------------------------------------------------------------ *)
(** ** Uploads *)
(* ------------------------------------------------------------------ *)

Lemma contains_In (c : N) (s : pystr) : contains c s = true <-> In c s.
Proof.
  unfold contains. rewrite existsb_exists. split.
  - intros (x & Hx & E). apply N.eqb_eq in E. now subst.
  - intros H. exists c. split; [exact H | apply N.eqb_refl].
Qed.

Lemma rsplit_last_none (sep : N) (s : pystr) :
  rsplit_last sep s = None <-> ~ In sep s.
Proof.
  induction s as [|x s IH]; cbn [rsplit_last In].
  - split; [intros _ [] | reflexivity].
  - destruct (rsplit_last sep s) as [[a b]|].
    + split; [discriminate|]. intros H. exfalso.
      destruct IH as [_ IH]. assert (E : @None (pystr * pystr) = Some (a, b) -> False)
        by discriminate.
      assert (Hin : ~ In sep s) by tauto.
      specialize (IH Hin). discriminate.
    + destruct (N.eqb_spec x sep) as [->|Hx].
      * split; [discriminate|]. intros H. exfalso. apply H. now left.
      * split; [|reflexivity]. intros _ [H|H]; [congruence|].
        destruct IH as [IH _]. now apply IH.
Qed.

Lemma rsplit_last_spec (sep : N) (s a b : pystr) :
  rsplit_last sep s = Some (a, b) <-> s = a ++ sep :: b /\ ~ In sep b.
Proof.
  split.
  - revert a b. induction s as [|x s IH]; intros a b; cbn [rsplit_last];
      [discriminate|].
    destruct (rsplit_last sep s) as [[a' b']|] eqn:E.
    + intros H. injection H as <- <-.
      destruct (IH a' b' eq_refl) as [Hs Hb]. split; [now rewrite Hs | exact Hb].
    + destruct (N.eqb_spec x sep) as [->|Hx]; [|discriminate].
      intros H. injection H as <- <-. split; [reflexivity|].
      now apply rsplit_last_none.
  - intros [-> Hb]. induction a as [|y a IH]; cbn [app rsplit_last].
    + replace (rsplit_last sep b) with (@None (pystr * pystr))
        by (symmetry; now apply rsplit_last_none).
      now rewrite N.eqb_refl.
    + now rewrite IH.
Qed.

(** [allowed_file] raises nothing. *)
Lemma allowed_file_total (filename : pystr) : exists b, allowed_file filename = Ok b.
Proof.
  unfold allowed_file. destruct (contains (ord ".") filename) eqn:E.
  - apply contains_In in E. unfold rsplit1.
    destruct (rsplit_last (ord ".") filename) as [[a b]|] eqn:R.
    + eexists. reflexivity.
    + apply rsplit_last_none in R. contradiction.
  - eexists. reflexivity.
Qed.

(** The check of [allowed_file]: a file name passes exactly when the text
    after its last dot, in lower case, is one of the allowed extensions. *)
Lemma allowed_file_iff (filename : pystr) :
  allowed_file filename = Ok true <->
  exists stem ext,
    filename = stem ++ ord "." :: ext /\ ~ In (ord ".") ext /\
    str_in (lower ext) ALLOWED_EXTENSIONS = true.
Proof.
  unfold allowed_file. split.
  - destruct (contains (ord ".") filename) eqn:E; [|discriminate].
    unfold rsplit1. destruct (rsplit_last (ord ".") filename) as [[a b]|] eqn:R.
    + cbn [getitem nth_error rbind]. intros H. injection H as H.
      apply rsplit_last_spec in R as [Hf Hb].
      exists a, b. now repeat split.
    + apply contains_In in E. apply rsplit_last_none in R. contradiction.
  - intros (stem & ext & Hf & Hn & Hin).
    assert (R : rsplit_last (ord ".") filename = Some (stem, ext))
      by (apply rsplit_last_spec; now split).
    replace (contains (ord ".") filename) with true.
    + unfold rsplit1. rewrite R. cbn [getitem nth_error rbind]. now rewrite Hin.
    + symmetry. apply contains_In. rewrite Hf. apply in_or_app. right. now left.
Qed.

(** A file name without a dot is refused. *)
Lemma allowed_file_no_extension (filename : pystr) :
  ~ In (ord ".") filename -> allowed_file filename = Ok false.
Proof.
  intros H. unfold allowed_file.
  replace (contains (ord ".") filename) with false; [reflexivity|].
  symmetry. destruct (contains (ord ".") filename) eqn:E; [|reflexivity].
  apply contains_In in E. contradiction.
Qed.

Example allowed_file_photo_JPG : allowed_file (lit "photo.JPG") = Ok true.
Proof. reflexivity. Qed.

Example allowed_file_malware_exe : allowed_file (lit "malware.exe") = Ok false.
Proof. reflexivity. Qed.


(** [rfind] finds where [rsplit] splits. *)
Lemma rfind_rsplit_last (c : N) (s : pystr) :
  rfind c s = match rsplit_last c s with
              | Some (a, _) => Z.of_nat (length a)
              | None => (-1)%Z
              end.
Proof.
  unfold rfind.
  assert (G : forall s i l,
             snd (fold_left (fun st x => (fst st + 1, if N.eqb x c then fst st else snd st)%Z)
                            s (i, l))
             = match rsplit_last c s with
               | Some (a, _) => (i + Z.of_nat (length a))%Z
               | None => l
               end).
  { clear s. induction s as [|x s IH]; intros i l; [reflexivity|].
    cbn [fold_left fst snd rsplit_last]. rewrite IH.
    destruct (rsplit_last c s) as [[a b]|].
    - cbn [length]. lia.
    - destruct (N.eqb x c); cbn [length]; lia. }
  rewrite G. destruct (rsplit_last c s) as [[a b]|]; reflexivity.
Qed.

Lemma firstn_length_app {A} (a b : list A) : firstn (length a) (a ++ b) = a.
Proof. induction a as [|x a IH]; [reflexivity|]. cbn. now rewrite IH. Qed.

Lemma skipn_length_app {A} (a b : list A) : skipn (length a) (a ++ b) = b.
Proof. induction a as [|x a IH]; [reflexivity|]. exact IH. Qed.

(** [splitext] on a name that ends in a dot and an extension: the
    extension is split off unless only dots come before it in the last
    component. *)
Lemma splitext_extension (stem ext : pystr) :
  ~ In (ord ".") ext -> ~ In (ord "/") ext ->
  splitext (stem ++ ord "." :: ext) =
  if existsb (fun x => negb (N.eqb x (ord "."))) (last_component stem)
  then (stem, ord "." :: ext)
  else (stem ++ ord "." :: ext, []).
Proof.
  intros Hdot Hsep. unfold splitext.
  rewrite !rfind_rsplit_last.
  assert (Ed : rsplit_last (ord ".") (stem ++ ord "." :: ext) = Some (stem, ext))
    by (apply rsplit_last_spec; now split).
  rewrite Ed.
  assert (Hsep' : ~ In (ord "/") (ord "." :: ext)).
  { intros [H|H]; [discriminate H | contradiction]. }
  unfold last_component.
  destruct (rsplit_last (ord "/") stem) as [[a b]|] eqn:Es.
  - apply rsplit_last_spec in Es as [Hs Hb].
    assert (E : rsplit_last (ord "/") (stem ++ ord "." :: ext)
                = Some (a, b ++ ord "." :: ext)).
    { apply rsplit_last_spec. split.
      - rewrite Hs, <- app_assoc. reflexivity.
      - intros H. apply in_app_or in H as [H|H]; contradiction. }
    rewrite E.
    assert (Hlen : length stem = length a + 1 + length b)
      by (rewrite Hs, length_app; cbn [length]; lia).
    replace (Z.of_nat (length stem) >? Z.of_nat (length a))%Z with true
      by (symmetry; apply Z.gtb_lt; lia).
    rewrite Nat2Z.id.
    replace (Z.to_nat (Z.of_nat (length a) + 1)) with (length a + 1) by lia.
    replace (length stem - (length a + 1)) with (length b) by lia.
    assert (Eskip : skipn (length a + 1) (stem ++ ord "." :: ext) = b ++ ord "." :: ext).
    { rewrite Hs, <- app_assoc. cbn [app].
      replace (length a + 1) with (length (a ++ [ord "/"]))
        by (rewrite length_app; reflexivity).
      change (a ++ ord "/" :: b ++ ord "." :: ext) with
        (a ++ [ord "/"] ++ b ++ ord "." :: ext).
      rewrite app_assoc. apply skipn_length_app. }
    rewrite Eskip, firstn_length_app.
    destruct (existsb (fun x => negb (N.eqb x (ord "."))) b); [|reflexivity].
    rewrite firstn_length_app, skipn_length_app. reflexivity.
  - apply rsplit_last_none in Es.
    assert (E : rsplit_last (ord "/") (stem ++ ord "." :: ext) = None).
    { apply rsplit_last_none. intros H. apply in_app_or in H as [H|H]; contradiction. }
    rewrite E.
    replace (Z.of_nat (length stem) >? -1)%Z with true
      by (symmetry; apply Z.gtb_lt; lia).
    rewrite Nat2Z.id. change (Z.to_nat (-1 + 1)) with O. cbn [skipn].
    rewrite Nat.sub_0_r.
    rewrite firstn_length_app.
    destruct (existsb (fun x => negb (N.eqb x (ord "."))) stem); [|reflexivity].
    rewrite skipn_length_app. reflexivity.
Qed.

Lemma lower_keeps (c : N) (s : pystr) :
  lower_char c = [c] -> In c s -> In c (lower s).
Proof.
  intros Hc Hin. unfold lower. apply in_flat_map. exists c. split; [exact Hin|].
  rewrite Hc. now left.
Qed.

(** An allowed extension holds no path separator. *)
Lemma allowed_extension_no_sep (ext : pystr) :
  str_in (lower ext) ALLOWED_EXTENSIONS = true -> ~ In (ord "/") ext.
Proof.
  intros H Hin. apply (lower_keeps (ord "/") ext eq_refl) in Hin.
  unfold str_in in H. apply existsb_exists in H as (word & Hword & E).
  apply pystr_eqb_eq in E. rewrite E in Hin.
  destruct Hword as [<-|[<-|[<-|[<-|[]]]]]; cbn in Hin;
    repeat (destruct Hin as [Hin|Hin]; [discriminate Hin|]); exact Hin.
Qed.

(** The name under which an accepted file is stored ends in its
    extension, unless only dots come before the extension in the last
    component of the name: such a file is stored under the bare token. *)
Lemma accepted_name_extension (filename : pystr) :
  allowed_file filename = Ok true ->
  exists stem ext,
    filename = stem ++ ord "." :: ext /\
    str_in (lower ext) ALLOWED_EXTENSIONS = true /\
    snd (splitext filename) =
    if existsb (fun x => negb (N.eqb x (ord "."))) (last_component stem)
    then ord "." :: ext else [].
Proof.
  intros H. apply allowed_file_iff in H as (stem & ext & Hf & Hdot & Hin).
  exists stem, ext. split; [exact Hf|]. split; [exact Hin|].
  rewrite Hf, splitext_extension by (assumption || now apply allowed_extension_no_sep).
  destruct (existsb _ (last_component stem)); reflexivity.
Qed.

Section Creation.

Variable env : Env.
Variable request : Request.
Variable current_user : User.t.
Variable w : World.
Variables title desc : pystr.
Variable file : FileStorage.

Hypothesis Hsession : session_user w = Some (User.id current_user).
Hypothesis Hloaded : load_user w (User.id current_user) = Some current_user.
Hypothesis Hpost : method request = POST.
Hypothesis Htitle : multi_get (form request) (lit "title") = Some title.
Hypothesis Hdesc : multi_get (form request) (lit "description") = Some desc.
Hypothesis Hfile : multi_get (files request) (lit "image") = Some file.

(** An image that passes the check is saved under a token of sixteen
    hexadecimal digits and the extension [splitext] finds, and the new row
    refers to it. *)
Lemma accepted_image_stored :
  filename file <> [] ->
  allowed_file (filename file) = Ok true ->
  let picture_fn := token_hex env 8 ++ snd (splitext (filename file)) in
  respond (login_required (projects env request)) w =
  (Redirect "projects",
   with_flashes (flashes w ++ [(lit "Project added.", "success"%string)])
     (with_projects (project_table w ++ [Project.mk (next_project_id (project_table w)) title (Some desc)
                                   (Some picture_fn) (utcnow env)
                                   (Some (User.id current_user))])
        (with_uploads ((picture_fn, stream file) ::
                       filter (fun f => negb (pystr_eqb (fst f) picture_fn)) (uploads w))
                      w))).
Proof.
  intros Hne Hallowed picture_fn. unfold respond.
  rewrite (login_required_authenticated _ w current_user Hsession Hloaded).
  unfold projects. rewrite Hpost.
  unfold bind, lift, multi_getitem. rewrite Htitle, Hdesc, Hfile.
  destruct (filename file) as [|c rest] eqn:E; [contradiction|].
  cbn [str_truthy]. rewrite Hallowed.
  unfold save_picture, bind, write_file, ret, commit, flash. rewrite E. reflexivity.
Qed.

(** An image that fails the check is not saved, and the project is created
    all the same, without an image. *)
Lemma rejected_image_creates_project :
  allowed_file (filename file) = Ok false ->
  respond (login_required (projects env request)) w =
  (Redirect "projects",
   with_flashes (flashes w ++ [(lit "Project added.", "success"%string)])
     (with_projects (project_table w ++ [Project.mk (next_project_id (project_table w)) title (Some desc)
                                   None (utcnow env) (Some (User.id current_user))]) w)).
Proof.
  intros Hrefused. unfold respond.
  rewrite (login_required_authenticated _ w current_user Hsession Hloaded).
  unfold projects. rewrite Hpost.
  unfold bind, lift, multi_getitem. rewrite Htitle, Hdesc, Hfile.
  destruct (str_truthy (filename file)); [rewrite Hrefused|]; reflexivity.
Qed.

End Creation.

(** C9: a project-creation request whose uploaded image fails the
    extension check is not aborted: the answer is the redirect with the
    message "Project added.", the project table gains one row with the
    submitted title and description and no image reference, and the upload
    directory is as it was. *)
Theorem rejected_image_still_creates_project :
  forall (env : Env) (request : Request) (current_user : User.t) (w : World)
         (title desc : pystr) (file : FileStorage),
    session_user w = Some (User.id current_user) ->
    load_user w (User.id current_user) = Some current_user ->
    method request = POST ->
    multi_get (form request) (lit "title") = Some title ->
    multi_get (form request) (lit "description") = Some desc ->
    multi_get (files request) (lit "image") = Some file ->
    allowed_file (filename file) = Ok false ->
    exists w',
      respond (login_required (projects env request)) w = (Redirect "projects", w') /\
      project_table w' =
        project_table w ++
        [Project.mk (next_project_id (project_table w)) title (Some desc) None
                    (utcnow env) (Some (User.id current_user))] /\
      uploads w' = uploads w /\
      user_table w' = user_table w /\
      flashes w' = flashes w ++ [(lit "Project added.", "success"%string)].
Proof.
  intros env request current_user w title desc file Hs Hl Hm Ht Hd Hf Hrefused.
  eexists. split.
  - exact (rejected_image_creates_project env request current_user w title desc file
             Hs Hl Hm Ht Hd Hf Hrefused).
  - repeat split; reflexivity.
Qed.

(** An instance: a project submitted with [malware.exe] as its image. *)
Lemma rejected_image_still_creates_project_witness :
  exists w',
    respond (login_required (projects demo_env demo_upload_request)) demo_world
    = (Redirect "projects", w') /\
    project_table w' =
      [alice_project; bob_project;
       Project.mk 3 (lit "Toolkit") (Some (lit "Handy tools")) None 1700000000 (Some 1%Z)] /\
    uploads w' = uploads demo_world.
Proof.
  destruct (rejected_image_still_creates_project demo_env demo_upload_request alice
              demo_world (lit "Toolkit") (lit "Handy tools") malware
              eq_refl eq_refl eq_refl eq_refl eq_refl eq_refl eq_refl)
    as (w' & Hres & Hp & Hu & _).
  exists w'. repeat split; assumption.
Defined.

(** The edit route saves whatever file it is sent, under the token and
    the extension of its name: [allowed_file] is not consulted. *)
Lemma edit_project_saves_any_file
      (env : Env) (id : Z) (request : Request) (current_user : User.t) (w : World)
      (project : Project.t) (title description : pystr) (file : FileStorage) :
  session_user w = Some (User.id current_user) ->
  load_user w (User.id current_user) = Some current_user ->
  find (fun p => Z.eqb (Project.id p) id) (project_table w) = Some project ->
  Project.user_id project = Some (User.id current_user) ->
  method request = POST ->
  multi_get (form request) (lit "title") = Some title ->
  multi_get (form request) (lit "description") = Some description ->
  multi_get (files request) (lit "image") = Some file ->
  filename file <> [] ->
  let picture_fn := token_hex env 8 ++ snd (splitext (filename file)) in
  respond (login_required (edit_project env id request)) w =
  (Redirect "projects",
   with_flashes (flashes w ++ [(lit "Project updated.", "success"%string)])
     (with_projects
        (replace_project
           (Project.mk (Project.id project) title (Some description) (Some picture_fn)
                       (Project.date_posted project) (Project.user_id project))
           (project_table w))
        (with_uploads ((picture_fn, stream file) ::
                       filter (fun f => negb (pystr_eqb (fst f) picture_fn)) (uploads w))
                      w))).
Proof.
  intros Hs Hl Hfind Hown Hm Ht Hd Hf Hne picture_fn. unfold respond.
  assert (Hno : not_owner project current_user = false)
    by (unfold not_owner; now rewrite Hown, Z.eqb_refl).
  rewrite (login_required_authenticated _ w current_user Hs Hl).
  unfold edit_project, bind.
  rewrite (project_get_or_404_found id w project Hfind), Hno, Hm.
  unfold lift, multi_getitem. rewrite Ht, Hd, Hf.
  destruct (filename file) as [|c rest] eqn:E; [contradiction|].
  cbn [str_truthy pystr_eqb negb andb].
  unfold save_picture, bind, write_file, ret, commit, flash. rewrite E. reflexivity.
Qed.

(** C4 (where the code departs from it): sent to the edit route by the
    owner of the project, the file [malware.exe], which [allowed_file]
    refuses, is written to the upload directory under a random name that
    keeps [.exe], and the project refers to it; sent to the creation route,
    the same file is not written. *)
Theorem edit_project_stores_refused_file :
  allowed_file (filename malware) = Ok false /\
  (let w' := snd (respond (login_required (edit_project demo_env 1 demo_upload_request))
                          demo_world) in
   uploads w' = (lit "3fa107c45eb2901d.exe", stream malware) :: uploads demo_world /\
   option_map Project.image_file
     (find (fun p => Z.eqb (Project.id p) 1) (project_table w'))
   = Some (Some (lit "3fa107c45eb2901d.exe"))) /\
  (let w' := snd (respond (login_required (projects demo_env demo_upload_request))
                          demo_world) in
   uploads w' = uploads demo_world).
Proof. vm_compute. repeat split; reflexivity. Qed.

(** A name made of a dot and an allowed extension passes the check, and is
    stored with no extension: [splitext] takes it for a hidden file. *)
Example hidden_file_loses_extension :
  allowed_file (lit ".png") = Ok true /\
  snd (splitext (lit ".png")) = [] /\
  snd (splitext (lit "photo.JPG")) = lit ".JPG".
Proof. vm_compute. repeat split; reflexivity. Qed.

(* ------------------------------------------------------------------ *)
(** ** The story of the portfolio export *)
(* ------------------------------------------------------------------ *)

Section Story.

Variable float_nonzero : pystr -> bool.
Variable py_str : py_value -> pystr.

Lemma cert_lines_of_dicts (certs : list (list (pystr * py_value))) :
  map_result (cert_line py_str) (map PDict certs)
  = Ok (map (spec_cert_line py_str) certs).
Proof.
  induction certs as [|d certs IH]; [reflexivity|].
  cbn [map map_result]. rewrite IH. reflexivity.
Qed.

(** The block of [download_portfolio] for a list of dicts. *)
Lemma certification_story_of_dicts (certs : list (list (pystr * py_value))) :
  certification_story float_nonzero py_str (PList (map PDict certs))
  = Ok (spec_cert_block py_str certs).
Proof.
  unfold certification_story. destruct certs as [|d certs]; [reflexivity|].
  cbn [truthy map py_iter rbind]. 
  change (PDict d :: map PDict certs) with (map PDict (d :: certs)).
  rewrite cert_lines_of_dicts. reflexivity.
Qed.

Lemma heading_not_before (user : User.t) :
  ~ In certifications_heading (story_before user).
Proof.
  unfold story_before, certifications_heading. intros H.
  repeat (apply in_app_or in H as [H|H]);
    repeat match goal with
           | H : In _ (if ?b then _ else _) |- _ => destruct b
           | H : In _ (_ :: _) |- _ => destruct H as [H|H]
           | H : In _ [] |- _ => destruct H
           | H : Paragraph _ _ = Paragraph _ _ |- _ => discriminate H
           | H : Spacer _ _ = Paragraph _ _ |- _ => discriminate H
           end.
Qed.

Lemma heading_not_after (projects : list Project.t) :
  ~ In certifications_heading (story_after projects).
Proof.
  unfold story_after, certifications_heading. intros [H|H]; [discriminate H|].
  apply in_flat_map in H as (p & _ & H). unfold project_story in H.
  destruct H as [H|H]; [discriminate H|].
  apply in_app_or in H as [H|H].
  - destruct (column_truthy (Project.description p)).
    + destruct H as [H|[]]. discriminate H.
    + destruct H.
  - destruct H as [H|[]]. discriminate H.
Qed.

Lemma portfolio_story_of_dicts (user : User.t) (projects : list Project.t)
                               (certs : list (list (pystr * py_value))) :
  User.certifications user = Ok (PList (map PDict certs)) ->
  portfolio_story float_nonzero py_str user projects
  = Ok (story_before user ++ spec_cert_block py_str certs ++ story_after projects).
Proof.
  intros H. unfold portfolio_story. rewrite H. cbn [rbind].
  rewrite certification_story_of_dicts. cbn [rbind].
  unfold story_before, story_after. rewrite <- !app_assoc. reflexivity.
Qed.

End Story.

(** C8, as the code has it: for every account whose certification list
    is a list of dicts, the story of the export holds the heading
    "Certifications" if and only if that list is non-empty; the heading is
    followed by one line per certification, in stored order, and a spacer.
    A line reads [<b>name</b> - issuer (date)]: the name in bold markup,
    a hyphen between blanks, the issuer, the date in brackets; a missing
    issuer or date reads as the empty string.  The certification AWS CCP of
    Amazon, 2024, gives the line [<b>AWS CCP</b> - Amazon (2024)]. *)
Theorem portfolio_certification_block :
  forall (float_nonzero : pystr -> bool) (py_str : py_value -> pystr)
         (user : User.t) (projects : list Project.t)
         (certs : list (list (pystr * py_value))),
    User.certifications user = Ok (PList (map PDict certs)) ->
    (exists story before after,
        portfolio_story float_nonzero py_str user projects = Ok story /\
        story = before ++ spec_cert_block py_str certs ++ after /\
        ~ In certifications_heading before /\
        ~ In certifications_heading after /\
        (In certifications_heading story <-> certs <> []) /\
        (certs <> [] ->
         spec_cert_block py_str certs =
         certifications_heading :: map (spec_cert_line py_str) certs ++ [Spacer 1 20])) /\
    (forall c : Certification.t,
        spec_cert_line py_str (cert_items c) =
        Paragraph (lit "<b>" ++ Certification.name c ++ lit "</b> - " ++
                   Certification.issuer c ++ lit " (" ++ Certification.date c ++ lit ")")
                  "Normal") /\
    (forall name : pystr,
        spec_cert_line py_str [(lit "name", PStr name)] =
        Paragraph (lit "<b>" ++ name ++ lit "</b> - " ++ [] ++ lit " (" ++ [] ++ lit ")")
                  "Normal") /\
    spec_cert_line py_str (cert_items aws_ccp)
    = Paragraph (lit "<b>AWS CCP</b> - Amazon (2024)") "Normal".
Proof.
  intros float_nonzero py_str user projects certs Hcerts.
  split; [|repeat split; reflexivity].
  exists (story_before user ++ spec_cert_block py_str certs ++ story_after projects),
         (story_before user), (story_after projects).
  split; [now apply portfolio_story_of_dicts|].
  split; [reflexivity|].
  split; [apply heading_not_before|].
  split; [apply heading_not_after|].
  split.
  - split.
    + intros H Hnil. subst certs. cbn [spec_cert_block app] in H.
      apply in_app_or in H as [H|H].
      * now apply (heading_not_before user).
      * now apply (heading_not_after projects).
    + intros Hne. apply in_or_app. right. apply in_or_app. left.
      destruct certs as [|d certs]; [contradiction|]. now left.
  - intros Hne. destruct certs as [|d certs]; [contradiction|]. reflexivity.
Qed.

(** An instance: the export of Alice, who holds one certification. *)
Lemma portfolio_certification_block_witness :
  exists story,
    portfolio_story demo_float_nonzero demo_py_str alice [alice_project] = Ok story /\
    In certifications_heading story /\
    In (Paragraph (lit "<b>AWS CCP</b> - Amazon (2024)") "Normal") story.
Proof.
  destruct (portfolio_certification_block demo_float_nonzero demo_py_str alice
              [alice_project] [cert_items aws_ccp])
    as ((story & before & after & Hs & Heq & _ & _ & Hh & _) & _ & _ & Hline).
  - vm_compute. reflexivity.
  - exists story. split; [exact Hs|]. split.
    + apply Hh. discriminate.
    + rewrite Heq. apply in_or_app. right. apply in_or_app. left.
      cbn [spec_cert_block map app]. right. left. exact Hline.
Defined.

(** C8, as the specification words the line: the export of the account
    whose one certification is AWS CCP, Amazon, 2024 holds the line with
    the bold markup and the hyphen; no paragraph of the story reads
    "AWS CCP", an em dash, "Amazon (2024)", and no paragraph holds an em
    dash at all. *)
Lemma certification_line_has_a_hyphen :
  exists story,
    portfolio_story demo_float_nonzero demo_py_str alice [alice_project] = Ok story /\
    In (Paragraph (lit "<b>AWS CCP</b> - Amazon (2024)") "Normal") story /\
    forallb (fun f => match f with
                      | Paragraph text _ =>
                          negb (pystr_eqb text (em_dash_line aws_ccp)) &&
                          negb (contains 8212%N text)
                      | Spacer _ _ => true
                      end) story = true.
Proof.
  eexists. split; [vm_compute; reflexivity|]. split.
  - do 7 right. left. reflexivity.
  - vm_compute. reflexivity.
Qed.

(** With no certification the block is absent. *)
Example portfolio_without_certifications :
  portfolio_story demo_float_nonzero demo_py_str bob [bob_project] =
  Ok [Paragraph (lit "bob's Portfolio") "Title"; Spacer 1 12; Spacer 1 20;
      Paragraph (lit "Projects") "Heading2";
      Paragraph (lit "<b>Robot</b>") "Heading3"; Spacer 1 12].
Proof. vm_compute. reflexivity. Qed.


(* ================================================================== *)
(** * Properties of the rest of the application *)
(* ================================================================== *)

(* ------------------------------------------------------------------ *)
(** ** Registration *)
(* ------------------------------------------------------------------ *)

Lemma column_eqb_eq (a b : column) : column_eqb a b = true <-> a = b.
Proof.
  destruct a as [x|], b as [y|]; cbn; try (split; congruence).
  rewrite pystr_eqb_eq. split; congruence.
Qed.

(** The largest key so far bounds every key of the table. *)
Lemma max_key_bound {A} (key : A -> Z) (rows : list A) : forall m,
  (m <= fold_left (fun m x => Z.max m (key x)) rows m)%Z /\
  forall x, In x rows -> (key x <= fold_left (fun m x => Z.max m (key x)) rows m)%Z.
Proof.
  induction rows as [|r rows IH]; intros m; cbn [fold_left].
  - split; [lia | intros x []].
  - destruct (IH (Z.max m (key r))) as [Hm Hin]. split; [lia|].
    intros x [<- | Hx]; [lia | now apply Hin].
Qed.

Lemma next_user_id_fresh (rows : list User.t) (u : User.t) :
  In u rows -> (User.id u < next_user_id rows)%Z.
Proof.
  intros Hin. unfold next_user_id.
  pose proof (proj2 (max_key_bound User.id rows 0%Z) u Hin). lia.
Qed.

Lemma next_project_id_fresh (rows : list Project.t) (p : Project.t) :
  In p rows -> (Project.id p < next_project_id rows)%Z.
Proof.
  intros Hin. unfold next_project_id.
  pose proof (proj2 (max_key_bound Project.id rows 0%Z) p Hin). lia.
Qed.

(** An account whose user name and e-mail address nobody holds passes the
    constraints. *)
Lemma fresh_account_passes (rows : list User.t) (id : Z) (username email password : pystr) :
  (forall u, In u rows -> User.email u <> email /\ User.username u <> Some username) ->
  user_violation rows (new_user id username email password) = None.
Proof.
  intros Hfresh. unfold user_violation. cbn [User.username new_user User.email User.id].
  assert (Hn : existsb (fun r => negb (Z.eqb (User.id r) id) &&
                                 column_eqb (User.username r) (Some username)) rows = false).
  { apply not_true_is_false. intros H. apply existsb_exists in H as (r & Hr & H).
    apply andb_true_iff in H as [_ H]. apply column_eqb_eq in H.
    now apply (proj2 (Hfresh r Hr)). }
  assert (He : existsb (fun r => negb (Z.eqb (User.id r) id) &&
                                 pystr_eqb (User.email r) email) rows = false).
  { apply not_true_is_false. intros H. apply existsb_exists in H as (r & Hr & H).
    apply andb_true_iff in H as [_ H]. apply pystr_eqb_eq in H.
    now apply (proj1 (Hfresh r Hr)). }
  now rewrite Hn, He.
Qed.

Lemma find_app_fresh {A} (f : A -> bool) (rows : list A) (x : A) :
  (forall r, In r rows -> f r = false) -> f x = true ->
  find f (rows ++ [x]) = Some x.
Proof.
  intros Hrows Hx. induction rows as [|r rows IH]; cbn.
  - now rewrite Hx.
  - rewrite (Hrows r (or_introl eq_refl)). apply IH. intros r' Hr'. apply Hrows. now right.
Qed.

Section Registration.

Variable generate_password_hash : pystr -> pystr -> pystr.
Variable env : Env.
Variable request : Request.
Variable w : World.
Variables username email password : pystr.

Hypothesis Hpost : method request = POST.
Hypothesis Husername : multi_get (form request) (lit "username") = Some username.
Hypothesis Hemail : multi_get (form request) (lit "email") = Some email.
Hypothesis Hpassword : multi_get (form request) (lit "password") = Some password.

Lemma register_conflict (existing : User.t) :
  find (fun u => pystr_eqb (User.email u) email ||
                 column_eqb (User.username u) (Some username)) (user_table w)
  = Some existing ->
  respond (register generate_password_hash env request) w =
  (Redirect "register",
   with_flashes (flashes w ++ [(lit "User or email already exists.", "danger"%string)]) w).
Proof.
  intros Hfind. unfold respond, register. rewrite Hpost.
  unfold bind, lift, multi_getitem, user_by_email_or_username.
  rewrite Husername, Hemail, Hpassword, Hfind. reflexivity.
Qed.

Lemma register_fresh :
  password <> [] ->
  (forall u, In u (user_table w) ->
             User.email u <> email /\ User.username u <> Some username) ->
  respond (register generate_password_hash env request) w =
  (Redirect "login",
   with_flashes (flashes w ++ [(lit "Registration successful. Please login.",
                                "success"%string)])
     (with_users (user_table w ++
                  [new_user (next_user_id (user_table w)) username email
                            (generate_password_hash (bcrypt_salt env) password)]) w)).
Proof.
  intros Hne Hfresh. unfold respond, register. rewrite Hpost.
  unfold bind, lift, multi_getitem, user_by_email_or_username.
  rewrite Husername, Hemail, Hpassword.
  destruct (find _ (user_table w)) as [u|] eqn:Hu.
  { exfalso. apply find_some in Hu as [Hin Hu]. destruct (Hfresh u Hin) as [He Hn].
    apply orb_true_iff in Hu as [Hu | Hu].
    - now apply pystr_eqb_eq in Hu.
    - now apply column_eqb_eq in Hu. }
  unfold hash_or_refuse. destruct password as [|c rest]; [contradiction|].
  cbn [str_truthy]. unfold ret, commit_new_user.
  rewrite fresh_account_passes by assumption. reflexivity.
Qed.

End Registration.

Lemma find_exists {A} (f : A -> bool) (rows : list A) (x : A) :
  In x rows -> f x = true -> exists y, find f rows = Some y.
Proof.
  intros Hin Hx. destruct (find f rows) as [y|] eqn:E; [now exists y|].
  now rewrite (find_none f rows E x Hin) in Hx.
Qed.

(** X1: a registration whose e-mail address or user name an account
    already holds creates nothing: the answer is a redirect back to the
    registration page, and the world differs by the flashed message
    only. *)
Theorem register_conflict_creates_nothing :
  forall (generate_password_hash : pystr -> pystr -> pystr) (env : Env)
         (request : Request) (w : World) (username email password : pystr)
         (holder : User.t),
    method request = POST ->
    multi_get (form request) (lit "username") = Some username ->
    multi_get (form request) (lit "email") = Some email ->
    multi_get (form request) (lit "password") = Some password ->
    In holder (user_table w) ->
    User.email holder = email \/ User.username holder = Some username ->
    let answer := respond (register generate_password_hash env request) w in
    answer =
    (Redirect "register",
     with_flashes (flashes w ++ [(lit "User or email already exists.", "danger"%string)])
                  w) /\
    user_table (snd answer) = user_table w /\
    session_user (snd answer) = session_user w.
Proof.
  intros gph env request w username email password holder
         Hpost Hu He Hp Hin Hheld answer.
  destruct (find_exists
              (fun u => pystr_eqb (User.email u) email ||
                        column_eqb (User.username u) (Some username))
              (user_table w) holder Hin) as [existing Hfind].
  { apply orb_true_iff. destruct Hheld as [H | H].
    - left. now apply pystr_eqb_eq.
    - right. now apply column_eqb_eq. }
  subst answer.
  rewrite (register_conflict gph env request w username email password
                             Hpost Hu He Hp existing Hfind).
  repeat split.
Qed.

(** Bob's address under another name is refused. *)
Lemma register_conflict_creates_nothing_witness :
  user_table
    (snd (respond (register demo_generate_password_hash demo_env
                            (demo_register_request (lit "robert") (lit "bob@example.org")
                                                   (lit "secret")))
                  demo_world))
  = user_table demo_world.
Proof.
  apply (register_conflict_creates_nothing demo_generate_password_hash demo_env
           (demo_register_request (lit "robert") (lit "bob@example.org") (lit "secret"))
           demo_world (lit "robert") (lit "bob@example.org") (lit "secret") bob);
    try reflexivity.
  - right. left. reflexivity.
  - left. reflexivity.
Defined.

(** X2: a registration with a non-empty password, an e-mail address and a
    user name that no account holds appends one account: a fresh id, the
    submitted name and address, the hash of the password, every portfolio
    field empty, and a certification list that reads as the empty list.
    The account can be found by its address, and nothing else changes but
    the flashed message. *)
Theorem register_creates_account :
  forall (generate_password_hash : pystr -> pystr -> pystr) (env : Env)
         (request : Request) (w : World) (username email password : pystr),
    method request = POST ->
    multi_get (form request) (lit "username") = Some username ->
    multi_get (form request) (lit "email") = Some email ->
    multi_get (form request) (lit "password") = Some password ->
    password <> [] ->
    (forall u, In u (user_table w) ->
               User.email u <> email /\ User.username u <> Some username) ->
    let account := new_user (next_user_id (user_table w)) username email
                            (generate_password_hash (bcrypt_salt env) password) in
    let answer := respond (register generate_password_hash env request) w in
    fst answer = Redirect "login" /\
    user_table (snd answer) = user_table w ++ [account] /\
    ~ In (User.id account) (map User.id (user_table w)) /\
    find (fun u => pystr_eqb (User.email u) email) (user_table (snd answer))
    = Some account /\
    load_user (snd answer) (User.id account) = Some account /\
    User.certifications account = Ok (PList []) /\
    project_table (snd answer) = project_table w /\
    uploads (snd answer) = uploads w /\
    session_user (snd answer) = session_user w /\
    flashes (snd answer)
    = flashes w ++ [(lit "Registration successful. Please login.", "success"%string)].
Proof.
  intros gph env request w username email password Hpost Hu He Hp Hne Hfresh
         account answer.
  subst answer.
  rewrite (register_fresh gph env request w username email password
                          Hpost Hu He Hp Hne Hfresh).
  cbn [fst snd user_table with_flashes with_users project_table uploads session_user
       flashes].
  fold account.
  assert (Hid : forall u, In u (user_table w) -> Z.eqb (User.id u) (User.id account) = false).
  { intros u Hin. apply Z.eqb_neq. pose proof (next_user_id_fresh _ _ Hin).
    subst account. cbn [User.id new_user]. lia. }
  repeat split.
  - intros Hin. apply in_map_iff in Hin as (u & Hu' & Hin).
    specialize (Hid u Hin). apply Z.eqb_neq in Hid. congruence.
  - apply find_app_fresh.
    + intros u Hin. apply pystr_eqb_neq. now apply Hfresh.
    + apply pystr_eqb_refl.
  - unfold load_user. cbn [user_table]. apply find_app_fresh; [exact Hid|].
    apply Z.eqb_refl.
Qed.

(** Carol registers in a world where Alice and Bob have accounts. *)
Lemma register_creates_account_witness :
  user_table
    (snd (respond (register demo_generate_password_hash demo_env
                            (demo_register_request (lit "carol") (lit "carol@example.org")
                                                   (lit "secret")))
                  demo_world))
  = [alice; bob;
     new_user 3 (lit "carol") (lit "carol@example.org")
              (demo_generate_password_hash (lit "salt") (lit "secret"))].
Proof.
  apply (register_creates_account demo_generate_password_hash demo_env
           (demo_register_request (lit "carol") (lit "carol@example.org") (lit "secret"))
           demo_world (lit "carol") (lit "carol@example.org") (lit "secret"));
    try reflexivity.
  - discriminate.
  - intros u [<- | [<- | []]]; split; discriminate.
Defined.

(** X3: registration and login compose.  After a registration that
    created an account, logging in with the same address and password
    (which bcrypt accepts against the hash it made) opens the session of
    that very account: the answer is a redirect to the dashboard, and
    every view behind [login_required] then runs with the new account as
    [current_user]. *)
Theorem register_then_login :
  forall (generate_password_hash : pystr -> pystr -> pystr)
         (check_password_hash : pystr -> pystr -> bool) (env : Env)
         (request credentials : Request) (w : World) (username email password : pystr),
    method request = POST ->
    multi_get (form request) (lit "username") = Some username ->
    multi_get (form request) (lit "email") = Some email ->
    multi_get (form request) (lit "password") = Some password ->
    password <> [] ->
    (forall u, In u (user_table w) ->
               User.email u <> email /\ User.username u <> Some username) ->
    method credentials = POST ->
    multi_get (form credentials) (lit "email") = Some email ->
    multi_get (form credentials) (lit "password") = Some password ->
    check_password_hash (generate_password_hash (bcrypt_salt env) password) password
    = true ->
    let account := new_user (next_user_id (user_table w)) username email
                            (generate_password_hash (bcrypt_salt env) password) in
    let registered := snd (respond (register generate_password_hash env request) w) in
    let answer := respond (login check_password_hash credentials) registered in
    fst answer = Redirect "dashboard" /\
    session_user (snd answer) = Some (User.id account) /\
    user_table (snd answer) = user_table w ++ [account] /\
    forall view : User.t -> M response,
      login_required view (snd answer) = view account (snd answer).
Proof.
  intros gph chk env request credentials w username email password
         Hpost Hu He Hp Hne Hfresh Hpost' He' Hp' Hcheck account registered answer.
  assert (Hregistered : registered =
            with_flashes (flashes w ++ [(lit "Registration successful. Please login.",
                                         "success"%string)])
                         (with_users (user_table w ++ [account]) w)).
  { subst registered.
    now rewrite (register_fresh gph env request w username email password
                                Hpost Hu He Hp Hne Hfresh). }
  assert (Htable : user_table registered = user_table w ++ [account])
    by now rewrite Hregistered.
  assert (Hfind : find (fun u => pystr_eqb (User.email u) email) (user_table registered)
                  = Some account).
  { rewrite Htable. apply find_app_fresh; [|apply pystr_eqb_refl].
    intros u Hin. apply pystr_eqb_neq. now apply Hfresh. }
  assert (Hload : load_user registered (User.id account) = Some account).
  { unfold load_user. rewrite Htable. apply find_app_fresh; [|apply Z.eqb_refl].
    intros u Hin. apply Z.eqb_neq. pose proof (next_user_id_fresh _ _ Hin).
    subst account. cbn [User.id new_user]. lia. }
  assert (Hanswer : answer =
            (Redirect "dashboard",
             with_flashes (flashes registered ++
                           [(lit "Logged in successfully.", "success"%string)])
                          (with_session_user (Some (User.id account)) registered))).
  { subst answer. unfold respond, login. rewrite Hpost'.
    unfold bind, lift, multi_getitem, user_by_email. rewrite He', Hp', Hfind.
    replace (User.password account) with (gph (bcrypt_salt env) password) by reflexivity.
    rewrite Hcheck. reflexivity. }
  rewrite Hanswer. cbn [fst snd session_user with_flashes with_session_user user_table].
  repeat split; [exact Htable|].
  intros view. apply login_required_authenticated; [reflexivity|exact Hload].
Qed.

Lemma register_then_login_witness :
  session_user
    (snd (respond (login demo_check_password_hash
                         (demo_login_request (lit "carol@example.org") (lit "secret")))
            (snd (respond (register demo_generate_password_hash demo_env
                             (demo_register_request (lit "carol") (lit "carol@example.org")
                                                    (lit "secret")))
                          demo_world))))
  = Some 3%Z.
Proof.
  apply (register_then_login demo_generate_password_hash demo_check_password_hash demo_env
           (demo_register_request (lit "carol") (lit "carol@example.org") (lit "secret"))
           (demo_login_request (lit "carol@example.org") (lit "secret"))
           demo_world (lit "carol") (lit "carol@example.org") (lit "secret"));
    try reflexivity.
  - discriminate.
  - intros u [<- | [<- | []]]; split; discriminate.
Defined.

(* ------------------------------------------------------------------ *)
(** ** Sessions *)
(* ------------------------------------------------------------------ *)

(** X4: logging out ends the session and touches nothing else but the
    flashed messages; from then on no view behind [login_required] runs:
    whatever the view, the answer is the redirect to the login page. *)
Theorem logout_ends_session :
  forall (w : World) (current_user : User.t) (view : User.t -> M response),
    session_user w = Some (User.id current_user) ->
    load_user w (User.id current_user) = Some current_user ->
    let answer := respond (login_required logout) w in
    fst answer = Redirect "home" /\
    session_user (snd answer) = None /\
    user_table (snd answer) = user_table w /\
    project_table (snd answer) = project_table w /\
    uploads (snd answer) = uploads w /\
    flashes (snd answer) = flashes w ++ [(lit "Logged out.", "info"%string)] /\
    respond (login_required view) (snd answer) =
    (Redirect "login",
     with_flashes (flashes (snd answer) ++
                   [(lit "Please log in to access this page.", "message"%string)])
                  (snd answer)).
Proof.
  intros w current_user view Hsession Hloaded answer.
  assert (Hanswer : answer =
            (Redirect "home",
             with_flashes (flashes w ++ [(lit "Logged out.", "info"%string)])
                          (with_session_user None w))).
  { subst answer. unfold respond.
    rewrite (login_required_authenticated _ w current_user Hsession Hloaded).
    reflexivity. }
  rewrite Hanswer. repeat split.
Qed.

Lemma logout_ends_session_witness :
  respond (login_required (delete_project demo_env 1))
          (snd (respond (login_required logout) demo_world))
  = (Redirect "login",
     with_flashes [(lit "Logged out.", "info"%string);
                   (lit "Please log in to access this page.", "message"%string)]
                  (with_session_user None demo_world)).
Proof.
  apply (logout_ends_session demo_world alice (delete_project demo_env 1));
    reflexivity.
Defined.

(* ------------------------------------------------------------------ *)
(** ** Consistent stores *)
(* ------------------------------------------------------------------ *)

Lemma existsb_false {A} (f : A -> bool) (l : list A) :
  existsb f l = false -> forall x, In x l -> f x = false.
Proof.
  intros H x Hin. apply not_true_is_false. intros Hx.
  assert (existsb f l = true) by (apply existsb_exists; now exists x). congruence.
Qed.

Lemma NoDup_snoc {A} (l : list A) (x : A) : NoDup l -> ~ In x l -> NoDup (l ++ [x]).
Proof.
  intros Hl Hx. induction Hl as [|y l Hy Hl IH]; cbn.
  - constructor; [intros [] | constructor].
  - constructor.
    + rewrite in_app_iff. intros [H | [<- | []]]; [now apply Hy | apply Hx; now left].
    + apply IH. intros H. apply Hx. now right.
Qed.

(** What a pending account that passes the constraints has. *)
Lemma user_violation_none (rows : list User.t) (u : User.t) :
  user_violation rows u = None ->
  User.username u <> None /\
  forall r, In r rows -> User.id r <> User.id u ->
            User.username r <> User.username u /\ User.email r <> User.email u.
Proof.
  unfold user_violation. destruct (User.username u) as [n|] eqn:Hn; [|discriminate].
  destruct (existsb _ rows) eqn:E1; [discriminate|].
  destruct (existsb _ rows) eqn:E2 in |- *; [discriminate|]. intros _.
  split; [discriminate|]. intros r Hin Hid.
  pose proof (existsb_false _ _ E1 r Hin) as H1.
  pose proof (existsb_false _ _ E2 r Hin) as H2. cbv beta in H1, H2.
  apply Z.eqb_neq in Hid. rewrite Hid in H1, H2. cbn [negb andb] in H1, H2.
  split.
  - intros H. apply column_eqb_eq in H. congruence.
  - intros H. apply pystr_eqb_eq in H. congruence.
Qed.

Lemma replace_user_ids (u : User.t) (rows : list User.t) :
  map User.id (replace_user u rows) = map User.id rows.
Proof.
  unfold replace_user. rewrite map_map. apply map_ext. intros r.
  destruct (Z.eqb_spec (User.id r) (User.id u)); congruence.
Qed.

Lemma in_replace_user (u : User.t) (rows : list User.t) (r : User.t) :
  In r (replace_user u rows) -> r = u \/ In r rows.
Proof.
  unfold replace_user. rewrite in_map_iff. intros (r0 & <- & Hin).
  destruct (Z.eqb (User.id r0) (User.id u)); [now left | now right].
Qed.

Lemma replace_user_keeps_id (u : User.t) (rows : list User.t) (r : User.t) :
  In r rows -> exists r', In r' (replace_user u rows) /\ User.id r' = User.id r.
Proof.
  intros Hin.
  exists (if Z.eqb (User.id r) (User.id u) then u else r). split.
  - unfold replace_user. apply in_map_iff. now exists r.
  - destruct (Z.eqb_spec (User.id r) (User.id u)); congruence.
Qed.

Lemma replace_user_absent (u : User.t) (rows : list User.t) :
  ~ In (User.id u) (map User.id rows) -> replace_user u rows = rows.
Proof.
  intros Habsent. unfold replace_user. rewrite <- (map_id rows) at 2.
  apply map_ext_in. intros r Hin.
  destruct (Z.eqb_spec (User.id r) (User.id u)) as [E|]; [|reflexivity].
  exfalso. apply Habsent. rewrite <- E. now apply in_map.
Qed.

(** Replacing the row of an account keeps a column free of duplicates
    when no other account holds the pending value. *)
Lemma NoDup_replace_user {B} (f : User.t -> B) (u : User.t) (rows : list User.t) :
  NoDup (map User.id rows) ->
  NoDup (map f rows) ->
  (forall r, In r rows -> User.id r <> User.id u -> f r <> f u) ->
  NoDup (map f (replace_user u rows)).
Proof.
  induction rows as [|r rows IH]; intros Hids Hf Hother; [constructor|].
  cbn [map] in Hids, Hf. apply NoDup_cons_iff in Hids as [Hid Hids].
  apply NoDup_cons_iff in Hf as [Hfr Hf].
  change (replace_user u (r :: rows))
    with ((if Z.eqb (User.id r) (User.id u) then u else r) :: replace_user u rows).
  cbn [map]. destruct (Z.eqb_spec (User.id r) (User.id u)) as [E|E].
  - rewrite replace_user_absent by (now rewrite <- E).
    constructor; [|exact Hf].
    intros Hin. apply in_map_iff in Hin as (r' & Hr' & Hin).
    apply (Hother r'); [now right| |exact Hr'].
    intros E'. apply Hid. rewrite E, <- E'. now apply in_map.
  - constructor.
    + intros Hin. apply in_map_iff in Hin as (r' & Hr' & Hin).
      apply in_replace_user in Hin as [-> | Hin].
      * apply (Hother r); [now left | exact E | now symmetry].
      * apply Hfr. rewrite <- Hr'. now apply in_map.
    + apply IH; [exact Hids | exact Hf |].
      intros r' Hin. apply Hother. now right.
Qed.

Lemma store_ok_same (w w' : World) :
  user_table w' = user_table w ->
  project_table w' = project_table w ->
  uploads w' = uploads w ->
  (session_user w' = session_user w \/ session_user w' = None \/
   exists u, In u (user_table w) /\ session_user w' = Some (User.id u)) ->
  store_ok w -> store_ok w'.
Proof.
  intros Hu Hp Hf Hs [H1 H2 H3 H4 H5 H6 H7 H8].
  constructor; rewrite ?Hu, ?Hp, ?Hf; try assumption.
  intros uid Huid. destruct Hs as [Hs | [Hs | (u & Hin & Hs)]].
  - apply H8. congruence.
  - congruence.
  - exists u. split; [exact Hin | congruence].
Qed.

Lemma store_ok_flashes (ms : list (pystr * string)) (w : World) :
  store_ok w -> store_ok (with_flashes ms w).
Proof. apply store_ok_same; try reflexivity. now left. Qed.

Lemma store_ok_login (u : User.t) (w : World) :
  In u (user_table w) -> store_ok w -> store_ok (with_session_user (Some (User.id u)) w).
Proof.
  intros Hin. apply store_ok_same; try reflexivity. right. right. now exists u.
Qed.

Lemma store_ok_logout (w : World) : store_ok w -> store_ok (with_session_user None w).
Proof. apply store_ok_same; try reflexivity. right. now left. Qed.

Lemma store_ok_new_user (username email password : pystr) (w : World) :
  let row := new_user (next_user_id (user_table w)) username email password in
  user_violation (user_table w) row = None ->
  store_ok w -> store_ok (with_users (user_table w ++ [row]) w).
Proof.
  intros row Hpass [H1 H2 H3 H4 H5 H6 H7 H8].
  apply user_violation_none in Hpass as [Hname Hother].
  assert (Hfresh : forall r, In r (user_table w) -> User.id r <> User.id row).
  { intros r Hin. pose proof (next_user_id_fresh _ _ Hin). subst row.
    cbn [User.id new_user]. lia. }
  constructor; cbn [user_table project_table uploads session_user with_users].
  - rewrite map_app. apply NoDup_snoc; [exact H1|].
    intros Hin. apply in_map_iff in Hin as (r & Hr & Hin). now apply (Hfresh r).
  - intros u Hin. apply in_app_iff in Hin as [Hin | [<- | []]]; [now apply H2 | exact Hname].
  - rewrite map_app. apply NoDup_snoc; [exact H3|].
    intros Hin. apply in_map_iff in Hin as (r & Hr & Hin).
    now apply (proj1 (Hother r Hin (Hfresh r Hin))).
  - rewrite map_app. apply NoDup_snoc; [exact H4|].
    intros Hin. apply in_map_iff in Hin as (r & Hr & Hin).
    now apply (proj2 (Hother r Hin (Hfresh r Hin))).
  - exact H5.
  - intros p Hp. destruct (H6 p Hp) as (u & Hin & Hu). exists u.
    split; [apply in_app_iff; now left | exact Hu].
  - exact H7.
  - intros uid Huid. destruct (H8 uid Huid) as (u & Hin & Hu). exists u.
    split; [apply in_app_iff; now left | exact Hu].
Qed.

Lemma store_ok_update_user (u : User.t) (w : World) :
  user_violation (user_table w) u = None ->
  store_ok w -> store_ok (with_users (replace_user u (user_table w)) w).
Proof.
  intros Hpass [H1 H2 H3 H4 H5 H6 H7 H8].
  apply user_violation_none in Hpass as [Hname Hother].
  constructor; cbn [user_table project_table uploads session_user with_users].
  - now rewrite replace_user_ids.
  - intros r Hin. apply in_replace_user in Hin as [-> | Hin]; [exact Hname | now apply H2].
  - apply NoDup_replace_user; [exact H1 | exact H3 |].
    intros r Hin Hid. now apply (proj1 (Hother r Hin Hid)).
  - apply NoDup_replace_user; [exact H1 | exact H4 |].
    intros r Hin Hid. now apply (proj2 (Hother r Hin Hid)).
  - exact H5.
  - intros p Hp. destruct (H6 p Hp) as (r & Hin & Hr).
    destruct (replace_user_keeps_id u _ r Hin) as (r' & Hin' & Hid).
    exists r'. split; [exact Hin' | congruence].
  - exact H7.
  - intros uid Huid. destruct (H8 uid Huid) as (r & Hin & Hr).
    destruct (replace_user_keeps_id u _ r Hin) as (r' & Hin' & Hid).
    exists r'. split; [exact Hin' | congruence].
Qed.

Lemma in_written (name : pystr) (content : list Byte.byte)
                 (files : list (pystr * list Byte.byte)) (fn : pystr) :
  In fn (map fst files) ->
  In fn (map fst ((name, content) ::
                  filter (fun f => negb (pystr_eqb (fst f) name)) files)).
Proof.
  intros Hin. cbn [map fst]. destruct (pystr_eqb fn name) eqn:E.
  - left. apply pystr_eqb_eq in E. now symmetry.
  - right. apply in_map_iff in Hin as ([n c] & Hn & Hin). cbn [fst] in Hn. subst n.
    apply in_map_iff. exists (fn, c). split; [reflexivity|].
    apply filter_In. split; [exact Hin|]. cbn [fst]. now rewrite E.
Qed.

Lemma store_ok_upload (name : pystr) (content : list Byte.byte) (w : World) :
  store_ok w ->
  store_ok (with_uploads ((name, content) ::
                          filter (fun f => negb (pystr_eqb (fst f) name)) (uploads w)) w).
Proof.
  intros [H1 H2 H3 H4 H5 H6 H7 H8].
  constructor; cbn [user_table project_table uploads session_user with_uploads];
    try assumption.
  intros p fn Hp Hfn. apply in_written. now apply (H7 p).
Qed.

Lemma store_ok_add_project (title : pystr) (description image : column) (now : Z)
                           (owner : User.t) (w : World) :
  In owner (user_table w) ->
  (forall fn, image = Some fn -> In fn (map fst (uploads w))) ->
  store_ok w ->
  store_ok (with_projects
              (project_table w ++
               [Project.mk (next_project_id (project_table w)) title description image now
                           (Some (User.id owner))]) w).
Proof.
  intros Howner Himage [H1 H2 H3 H4 H5 H6 H7 H8].
  constructor; cbn [user_table project_table uploads session_user with_projects];
    try assumption.
  - rewrite map_app. apply NoDup_snoc; [exact H5|]. cbn [map Project.id].
    intros Hin. apply in_map_iff in Hin as (p & Hp & Hin).
    pose proof (next_project_id_fresh _ _ Hin). lia.
  - intros p Hin. apply in_app_iff in Hin as [Hin | [<- | []]]; [now apply H6|].
    now exists owner.
  - intros p fn Hin Hfn. apply in_app_iff in Hin as [Hin | [<- | []]].
    + now apply (H7 p).
    + now apply Himage.
Qed.

Lemma replace_project_ids (p : Project.t) (rows : list Project.t) :
  map Project.id (replace_project p rows) = map Project.id rows.
Proof.
  unfold replace_project. rewrite map_map. apply map_ext. intros r.
  destruct (Z.eqb_spec (Project.id r) (Project.id p)); congruence.
Qed.

Lemma in_replace_project (p : Project.t) (rows : list Project.t) (r : Project.t) :
  In r (replace_project p rows) ->
  (r = p /\ exists r0, In r0 rows /\ Project.id r0 = Project.id p) \/ In r rows.
Proof.
  unfold replace_project. rewrite in_map_iff. intros (r0 & <- & Hin).
  destruct (Z.eqb_spec (Project.id r0) (Project.id p)); [left | now right].
  split; [reflexivity | now exists r0].
Qed.

Lemma store_ok_update_project (p : Project.t) (owner : User.t) (w : World) :
  In owner (user_table w) ->
  Project.user_id p = Some (User.id owner) ->
  (forall fn, Project.image_file p = Some fn -> In fn (map fst (uploads w))) ->
  store_ok w -> store_ok (with_projects (replace_project p (project_table w)) w).
Proof.
  intros Howner Hp Himage [H1 H2 H3 H4 H5 H6 H7 H8].
  constructor; cbn [user_table project_table uploads session_user with_projects];
    try assumption.
  - now rewrite replace_project_ids.
  - intros r Hin. apply in_replace_project in Hin as [[-> _] | Hin]; [|now apply H6].
    now exists owner.
  - intros r fn Hin Hfn. apply in_replace_project in Hin as [[-> _] | Hin].
    + now apply Himage.
    + now apply (H7 r).
Qed.

Lemma store_ok_delete_project (p : Project.t) (w : World) :
  store_ok w -> store_ok (with_projects (remove_project p (project_table w)) w).
Proof.
  intros [H1 H2 H3 H4 H5 H6 H7 H8].
  constructor; cbn [user_table project_table uploads session_user with_projects];
    try assumption.
  - unfold remove_project. clear - H5.
    induction (project_table w) as [|r rows IH]; [constructor|].
    cbn [map] in H5. apply NoDup_cons_iff in H5 as [Hr H5]. cbn [filter].
    destruct (negb _); [|now apply IH]. cbn [map]. constructor; [|now apply IH].
    intros Hin. apply Hr. apply in_map_iff in Hin as (r' & Hr' & Hin).
    apply filter_In in Hin as [Hin _]. rewrite <- Hr'. now apply in_map.
  - intros r Hin. apply filter_In in Hin as [Hin _]. now apply H6.
  - intros r fn Hin Hfn. apply filter_In in Hin as [Hin _]. now apply (H7 r).
Qed.

Lemma snd_respond (m : M response) (w : World) : snd (respond m w) = snd (m w).
Proof. unfold respond. destruct (m w) as [[r | []] w']; reflexivity. Qed.

Lemma load_user_in (w : World) (uid : Z) (u : User.t) :
  load_user w uid = Some u -> In u (user_table w) /\ User.id u = uid.
Proof.
  unfold load_user. intros H. apply find_some in H as [Hin H].
  split; [exact Hin | now apply Z.eqb_eq].
Qed.

#[local] Hint Resolve store_ok_flashes store_ok_login store_ok_logout store_ok_upload
             store_ok_delete_project : store.

Section Preservation.

Variable floatstr : pystr -> pystr.
Variable float_nonzero : pystr -> bool.
Variable py_str : py_value -> pystr.
Variable generate_password_hash : pystr -> pystr -> pystr.
Variable check_password_hash : pystr -> pystr -> bool.
Variable env : Env.
Variable request : Request.
Variable w : World.
Hypothesis Hok : store_ok w.

Lemma login_store_ok : store_ok (snd (login check_password_hash request w)).
Proof.
  unfold login. run_handler. split_handler; cbn [snd]; auto with store.
  apply store_ok_flashes, store_ok_login; [|exact Hok].
  match goal with H : find _ _ = Some _ |- _ => now apply find_some in H end.
Qed.

Lemma register_store_ok :
  store_ok (snd (register generate_password_hash env request w)).
Proof.
  unfold register. run_handler. split_handler; cbn [snd]; auto with store.
  now apply store_ok_flashes, store_ok_new_user.
Qed.

Lemma public_portfolio_store_ok (username : pystr) :
  store_ok (snd (public_portfolio username w)).
Proof. unfold public_portfolio. run_handler. split_handler; cbn [snd]; auto with store. Qed.

Lemma download_portfolio_store_ok (username : pystr) :
  store_ok (snd (download_portfolio float_nonzero py_str username w)).
Proof. unfold download_portfolio. run_handler. split_handler; cbn [snd]; auto with store. Qed.

Lemma login_required_store_ok (view : User.t -> M response) :
  (forall current_user, In current_user (user_table w) ->
                        store_ok (snd (view current_user w))) ->
  store_ok (snd (login_required view w)).
Proof.
  intros Hview. unfold login_required.
  destruct (session_user w) as [uid|]; [destruct (load_user w uid) as [u|] eqn:E|].
  - apply Hview. now apply load_user_in in E.
  - cbn. auto with store.
  - cbn. auto with store.
Qed.

Lemma logout_store_ok (current_user : User.t) : store_ok (snd (logout current_user w)).
Proof. unfold logout. run_handler. cbn [snd]. auto with store. Qed.

Lemma dashboard_store_ok (current_user : User.t) :
  store_ok (snd (dashboard current_user w)).
Proof. unfold dashboard. run_handler. cbn [snd]. auto with store. Qed.

Lemma profile_store_ok (current_user : User.t) :
  store_ok (snd (profile floatstr generate_password_hash env request current_user w)).
Proof.
  unfold profile. run_handler.
  destruct (method request); [cbn [snd]; auto with store|].
  destruct (profile_assignments _ _ _ _ _) as [pending|e]; [|cbn [snd]; auto with store].
  cbv beta iota. destruct (user_violation (user_table w) pending) eqn:E; cbn [snd].
  - auto with store.
  - now apply store_ok_flashes, store_ok_update_user.
Qed.

Lemma projects_store_ok (current_user : User.t) :
  In current_user (user_table w) ->
  store_ok (snd (projects env request current_user w)).
Proof.
  intros Hin. unfold projects. run_handler. split_handler; cbn [snd]; auto with store.
  - apply store_ok_flashes.
    apply (store_ok_add_project _ _ _ _ current_user); [exact Hin| |now apply store_ok_upload].
    intros fn [= <-]. cbn [uploads with_uploads map fst]. now left.
  - apply store_ok_flashes.
    apply (store_ok_add_project _ _ _ _ current_user); [exact Hin| |exact Hok].
    discriminate.
  - apply store_ok_flashes.
    apply (store_ok_add_project _ _ _ _ current_user); [exact Hin| |exact Hok].
    discriminate.
Qed.

Lemma owner_of (project : Project.t) (current_user : User.t) :
  not_owner project current_user = false ->
  Project.user_id project = Some (User.id current_user).
Proof.
  unfold not_owner. destruct (Project.user_id project) as [o|]; [|discriminate].
  intros H. apply negb_false_iff, Z.eqb_eq in H. now subst o.
Qed.

Lemma edit_project_store_ok (id : Z) (current_user : User.t) :
  In current_user (user_table w) ->
  store_ok (snd (edit_project env id request current_user w)).
Proof.
  intros Hin. unfold edit_project. run_handler. split_handler; cbn [snd]; auto with store.
  all: match goal with
       | Hfind : find _ (project_table w) = Some ?p, Hown : not_owner ?p _ = false |- _ =>
           apply find_some in Hfind as [Hp _]; apply owner_of in Hown;
           apply store_ok_flashes;
           apply (store_ok_update_project _ current_user);
           [exact Hin | exact Hown | intros fn Hfn | auto with store]
       end.
  - injection Hfn as <-. cbn [uploads with_uploads map fst]. now left.
  - eapply (images_stored w Hok); eassumption.
  - eapply (images_stored w Hok); eassumption.
Qed.

Lemma delete_project_store_ok (id : Z) (current_user : User.t) :
  store_ok (snd (delete_project env id current_user w)).
Proof.
  unfold delete_project. run_handler. split_handler; cbn [snd]; auto with store.
Qed.

End Preservation.

(** Whatever the request, the application takes a consistent store to a
    consistent store. *)
Lemma serve_store_ok (floatstr : pystr -> pystr) (float_nonzero : pystr -> bool)
                     (py_str : py_value -> pystr)
                     (generate_password_hash : pystr -> pystr -> pystr)
                     (check_password_hash : pystr -> pystr -> bool)
                     (c : call) (w : World) :
  store_ok w ->
  store_ok (snd (serve floatstr float_nonzero py_str generate_password_hash
                       check_password_hash c w)).
Proof.
  intros Hok. unfold serve. rewrite snd_respond.
  assert (Hview : store_ok (snd (view_of floatstr float_nonzero py_str generate_password_hash
                                         check_password_hash (call_env c) (call_endpoint c)
                                         (call_request c) w))).
  { destruct (call_endpoint c); cbn [view_of].
    - exact Hok.
    - now apply register_store_ok.
    - now apply login_store_ok.
    - apply login_required_store_ok; [exact Hok|]. intros u _. now apply logout_store_ok.
    - apply login_required_store_ok; [exact Hok|]. intros u _. now apply dashboard_store_ok.
    - apply login_required_store_ok; [exact Hok|]. intros u _. now apply profile_store_ok.
    - apply login_required_store_ok; [exact Hok|]. intros u Hu. now apply projects_store_ok.
    - apply login_required_store_ok; [exact Hok|]. intros u Hu.
      now apply edit_project_store_ok.
    - apply login_required_store_ok; [exact Hok|]. intros u _.
      now apply delete_project_store_ok.
    - now apply public_portfolio_store_ok.
    - now apply download_portfolio_store_ok. }
  unfold dispatch. destruct (method (call_request c)); [exact Hview|].
  destruct (accepts_post (call_endpoint c)); [exact Hview | exact Hok].
Qed.

Lemma initial_world_ok : store_ok initial_world.
Proof.
  constructor; cbn; try constructor; try contradiction. discriminate.
Qed.

Lemma demo_world_ok : store_ok demo_world.
Proof.
  constructor; cbn [demo_world user_table project_table uploads session_user map].
  - repeat constructor; cbn; intuition discriminate.
  - intros u [<- | [<- | []]]; discriminate.
  - repeat constructor; cbn; intuition discriminate.
  - repeat constructor; cbn; intuition discriminate.
  - repeat constructor; cbn; intuition discriminate.
  - intros p [<- | [<- | []]]; [exists alice | exists bob]; cbn; auto.
  - intros p fn [<- | [<- | []]]; cbn; [discriminate|]. intros [= <-]. now left.
  - intros uid [= <-]. exists alice. cbn. auto.
Qed.

(** X5: every request keeps the store consistent.  From a store in which
    account ids, user names, e-mail addresses and project ids are unique,
    every account has a user name, every project belongs to an account,
    every image a project names is in the upload folder and the session is
    that of an account, any sequence of requests (whatever their route,
    method, form and files) leads to such a store again. *)
Theorem requests_keep_store_consistent :
  forall (floatstr : pystr -> pystr) (float_nonzero : pystr -> bool)
         (py_str : py_value -> pystr)
         (generate_password_hash : pystr -> pystr -> pystr)
         (check_password_hash : pystr -> pystr -> bool)
         (calls : list call) (w : World),
    store_ok w ->
    store_ok (run floatstr float_nonzero py_str generate_password_hash check_password_hash
                  calls w).
Proof.
  intros fs fnz ps gph chk calls. induction calls as [|c calls IH]; intros w Hok.
  - exact Hok.
  - cbn [run]. apply IH. now apply serve_store_ok.
Qed.

(** A registration (and its refused repetition), a login, an upload, a
    profile update, an edit, a deletion, an export and a logout, from the
    empty database. *)
Lemma requests_keep_store_consistent_witness :
  store_ok (demo_run demo_calls initial_world).
Proof.
  apply (requests_keep_store_consistent demo_floatstr demo_float_nonzero demo_py_str
           demo_generate_password_hash demo_check_password_hash demo_calls initial_world).
  exact initial_world_ok.
Defined.

(* ------------------------------------------------------------------ *)
(** ** Certification texts written by the application *)
(* ------------------------------------------------------------------ *)

Lemma certifications_ok_same (floatstr : pystr -> pystr) (w w' : World) :
  user_table w' = user_table w ->
  certifications_ok floatstr w -> certifications_ok floatstr w'.
Proof. unfold certifications_ok. intros ->. auto. Qed.

Lemma getlist_well_formed (d : list (pystr * pystr)) (key : pystr) :
  forallb (fun kv => well_formed_str (snd kv)) d = true ->
  forallb well_formed_str (getlist d key) = true.
Proof.
  intros H. unfold getlist. apply forallb_forall. intros v Hv.
  apply in_map_iff in Hv as (kv & <- & Hin). apply filter_In in Hin as [Hin _].
  now apply (proj1 (forallb_forall _ _) H kv).
Qed.

Lemma nth_well_formed (l : list pystr) (i : nat) :
  forallb well_formed_str l = true -> well_formed_str (nth i l []) = true.
Proof.
  intros H. destruct (Nat.lt_ge_cases i (length l)) as [Hi | Hi].
  - apply (proj1 (forallb_forall _ _) H). now apply nth_In.
  - now rewrite nth_overflow.
Qed.

Lemma spec_certifications_well_formed (names issuers dates : list pystr) :
  forallb well_formed_str names = true ->
  forallb well_formed_str issuers = true ->
  forallb well_formed_str dates = true ->
  forallb well_formed_cert (spec_certifications names issuers dates) = true.
Proof.
  intros Hn Hi Hd. unfold spec_certifications. apply forallb_forall. intros c Hc.
  apply in_map_iff in Hc as (i & <- & _). unfold well_formed_cert.
  cbn [Certification.name Certification.issuer Certification.date].
  now rewrite !nth_well_formed.
Qed.

Section CertificationTexts.

Variable floatstr : pystr -> pystr.
Variable float_nonzero : pystr -> bool.
Variable py_str : py_value -> pystr.
Variable generate_password_hash : pystr -> pystr -> pystr.
Variable check_password_hash : pystr -> pystr -> bool.
Variable env : Env.
Variable request : Request.
Variable w : World.
Hypothesis Hunicode : unicode_request request = true.
Hypothesis Hok : certifications_ok floatstr w.

Ltac unchanged := apply (certifications_ok_same floatstr w); [reflexivity | exact Hok].

Lemma register_certifications_ok :
  certifications_ok floatstr (snd (register generate_password_hash env request w)).
Proof.
  unfold register. run_handler. split_handler; cbn [snd]; try unchanged.
  intros u Hin. cbn [user_table with_flashes with_users] in Hin.
  apply in_app_iff in Hin as [Hin | [<- | []]]; [now apply Hok|].
  exists []. split; reflexivity.
Qed.

Lemma profile_certifications_ok (current_user : User.t) :
  certifications_ok floatstr
    (snd (profile floatstr generate_password_hash env request current_user w)).
Proof.
  unfold profile. run_handler.
  destruct (method request); [cbn [snd]; unchanged|].
  destruct (profile_assignments_fields floatstr generate_password_hash env request
                                       current_user) as (pending & -> & Hfields).
  cbv beta iota. destruct (user_violation (user_table w) pending); cbn [snd]; [unchanged|].
  intros u Hin. cbn [user_table with_flashes with_users] in Hin.
  apply in_replace_user in Hin as [-> | Hin]; [|now apply Hok].
  eexists. split; [|apply Hfields].
  apply spec_certifications_well_formed; now apply getlist_well_formed.
Qed.

Lemma view_certifications_ok (e : endpoint) :
  certifications_ok floatstr
    (snd (view_of floatstr float_nonzero py_str generate_password_hash check_password_hash
                  env e request w)).
Proof.
  destruct e; cbn [view_of];
    try (apply register_certifications_ok);
    try (unfold login_required; split_handler;
         try (apply profile_certifications_ok));
    unfold home, login, logout, dashboard, projects, edit_project, delete_project,
           public_portfolio, download_portfolio;
    run_handler; split_handler; cbn [snd]; unchanged.
Qed.

End CertificationTexts.

Lemma serve_certifications_ok (floatstr : pystr -> pystr) (float_nonzero : pystr -> bool)
                              (py_str : py_value -> pystr)
                              (generate_password_hash : pystr -> pystr -> pystr)
                              (check_password_hash : pystr -> pystr -> bool)
                              (c : call) (w : World) :
  unicode_request (call_request c) = true ->
  certifications_ok floatstr w ->
  certifications_ok floatstr
    (snd (serve floatstr float_nonzero py_str generate_password_hash
                check_password_hash c w)).
Proof.
  intros Hunicode Hok. unfold serve. rewrite snd_respond. unfold dispatch.
  destruct (method (call_request c)); [now apply view_certifications_ok|].
  destruct (accepts_post (call_endpoint c)); [now apply view_certifications_ok | exact Hok].
Qed.

Lemma certifications_of_encoding (floatstr : pystr -> pystr) (u : User.t)
                                 (L : list Certification.t) :
  forallb well_formed_cert L = true ->
  User.certifications_data u = Some (Json.dumps floatstr (PList (map cert_dict L))) ->
  User.certifications u = Ok (PList (map cert_dict L)).
Proof.
  intros Hwf Hdata. unfold User.certifications. rewrite Hdata.
  cbn [column_truthy]. rewrite dumps_list_truthy. cbn [negb].
  now rewrite loads_dumps_certs.
Qed.

Lemma demo_world_certifications_ok : certifications_ok demo_floatstr demo_world.
Proof.
  intros u [<- | [<- | []]].
  - exists [aws_ccp]. split; reflexivity.
  - exists []. split; reflexivity.
Qed.

(** X6: the certification text of every account stays readable.  From a
    store in which every account's text is the encoding of a list of
    certifications, after any sequence of requests whose form fields are
    Unicode text, the [certifications] property of every account returns a
    list of certification records: the fallback of the getter is never
    taken. *)
Theorem certifications_stay_readable :
  forall (floatstr : pystr -> pystr) (float_nonzero : pystr -> bool)
         (py_str : py_value -> pystr)
         (generate_password_hash : pystr -> pystr -> pystr)
         (check_password_hash : pystr -> pystr -> bool)
         (calls : list call) (w : World),
    forallb (fun c => unicode_request (call_request c)) calls = true ->
    certifications_ok floatstr w ->
    let w' := run floatstr float_nonzero py_str generate_password_hash
                  check_password_hash calls w in
    certifications_ok floatstr w' /\
    forall u, In u (user_table w') ->
      exists L, forallb well_formed_cert L = true /\
                User.certifications u = Ok (PList (map cert_dict L)).
Proof.
  intros fs fnz ps gph chk calls w Hcalls Hok w'.
  assert (Hok' : certifications_ok fs w').
  { subst w'. revert w Hok. induction calls as [|c calls IH]; intros w Hok; [exact Hok|].
    cbn [forallb] in Hcalls. apply andb_true_iff in Hcalls as [Hc Hcalls].
    cbn [run]. apply IH; [exact Hcalls|]. now apply serve_certifications_ok. }
  split; [exact Hok'|].
  intros u Hin. destruct (Hok' u Hin) as (L & Hwf & Hdata).
  exists L. split; [exact Hwf|]. now apply (certifications_of_encoding fs).
Qed.

Lemma certifications_stay_readable_witness :
  exists L,
    User.certifications (hd alice (user_table (demo_run demo_calls initial_world)))
    = Ok (PList (map cert_dict L)).
Proof.
  destruct (certifications_stay_readable demo_floatstr demo_float_nonzero demo_py_str
              demo_generate_password_hash demo_check_password_hash demo_calls
              initial_world) as [_ Hreadable].
  - reflexivity.
  - intros u [].
  - destruct (Hreadable (hd alice (user_table (demo_run demo_calls initial_world))))
      as (L & _ & HL).
    + vm_compute. left. reflexivity.
    + exists L. exact HL.
Defined.

(** X7: on a store the application wrote, the export gets as far as the
    PDF builder.  When every account's certification text is the encoding
    of a list of certifications, nothing in [download_portfolio] raises
    (no decoding error, no failing loop, no failing lookup): it leaves the
    world as it is and answers 404 when no account has the user name, and
    otherwise sends the file named after the user, built from the story
    of the header, the certification block of the stored list and the
    account's own projects.  (How ReportLab lays the paragraphs out is
    not part of the embedding.) *)
Theorem export_story_is_assembled :
  forall (floatstr : pystr -> pystr) (float_nonzero : pystr -> bool)
         (py_str : py_value -> pystr) (w : World) (username : pystr),
    certifications_ok floatstr w ->
    let answer := respond (download_portfolio float_nonzero py_str username) w in
    snd answer = w /\
    (((forall u, In u (user_table w) -> User.username u <> Some username) /\
      fst answer = Aborted 404) \/
     exists user L,
       In user (user_table w) /\
       User.username user = Some username /\
       forallb well_formed_cert L = true /\
       User.certifications user = Ok (PList (map cert_dict L)) /\
       fst answer =
       SendFile (story_before user ++ spec_cert_block py_str (map cert_items L) ++
                 story_after (filter (owned_by (User.id user)) (project_table w)))
                (username ++ lit "_portfolio.pdf")).
Proof.
  intros floatstr float_nonzero py_str w username Hok answer. subst answer.
  unfold respond, download_portfolio, bind, user_by_username.
  destruct (find _ (user_table w)) as [user|] eqn:Hfind.
  - apply find_some in Hfind as [Hin Hname]. apply column_eqb_eq in Hname.
    destruct (Hok user Hin) as (L & Hwf & Hdata).
    pose proof (certifications_of_encoding floatstr user L Hwf Hdata) as Hcerts.
    unfold projects_of, lift. fold (owned_by (User.id user)).
    rewrite (portfolio_story_of_dicts float_nonzero py_str user _ (map cert_items L))
      by (now rewrite map_map).
    cbn [fst snd ret]. split; [reflexivity|]. right. exists user, L.
    rewrite Hname. cbn [format_column]. repeat split; assumption.
  - cbn [abort raise fst snd]. split; [reflexivity|]. left. split; [|reflexivity].
    intros u Hin Hname. pose proof (find_none _ _ Hfind u Hin) as H. cbv beta in H.
    rewrite Hname in H. cbn [column_eqb] in H. now rewrite pystr_eqb_refl in H.
Qed.

Lemma export_story_is_assembled_witness :
  let answer := respond (download_portfolio demo_float_nonzero demo_py_str (lit "alice"))
                        demo_world in
  snd answer = demo_world /\ fst answer <> Aborted 500.
Proof.
  destruct (export_story_is_assembled demo_floatstr demo_float_nonzero demo_py_str
              demo_world (lit "alice") demo_world_certifications_ok)
    as [Hworld [[_ H] | (user & L & _ & _ & _ & _ & H)]].
  - split; [exact Hworld|]. rewrite H. discriminate.
  - split; [exact Hworld|]. rewrite H. discriminate.
Defined.

(* ------------------------------------------------------------------ *)
(** ** File names *)
(* ------------------------------------------------------------------ *)

Lemma lower_char_cases (c : N) :
  ((65 <= c <= 90)%N /\ lower_char c = [(c + 32)%N]) \/
  (c = 8490%N /\ lower_char c = [107%N]) \/
  (c = 304%N /\ lower_char c = [105%N; 775%N]) \/
  (~ (65 <= c <= 90)%N /\ c <> 8490%N /\ c <> 304%N /\ lower_char c = [c]).
Proof.
  unfold lower_char.
  destruct (N.leb_spec 65 c); destruct (N.leb_spec c 90); cbn [andb];
    try (left; split; [lia | reflexivity]);
    (destruct (N.eqb_spec c 8490); [right; left; now split|]);
    (destruct (N.eqb_spec c 304); [right; right; left; now split|]);
    right; right; right; repeat split; try assumption; lia.
Qed.

(** Lower-casing yields a word of small letters other than k exactly for
    the spellings of the word in small and capital letters. *)
Lemma lower_is_word (word : pystr) :
  Forall (fun x => (97 <= x <= 122)%N /\ x <> 107%N) word ->
  forall s, lower s = word <-> Forall2 same_letter s word.
Proof.
  intros Hword s. split.
  - revert word Hword. induction s as [|c s IH]; intros word Hword H.
    + cbn in H. subst word. constructor.
    + unfold lower in H. cbn [flat_map] in H. fold (lower s) in H.
      destruct (lower_char_cases c) as [[Hc E] | [[Hc E] | [[Hc E] | (Hc & _ & _ & E)]]];
        rewrite E in H; cbn [app] in H; subst word.
      * apply Forall_cons_iff in Hword as [_ Hword].
        constructor; [now right | now apply IH].
      * apply Forall_cons_iff in Hword as [[_ Hk] _]. contradiction.
      * apply Forall_cons_iff in Hword as [_ Hword].
        apply Forall_cons_iff in Hword as [[Hx _] _]. lia.
      * apply Forall_cons_iff in Hword as [_ Hword].
        constructor; [now left | now apply IH].
  - intros H. induction H as [|c x s word Hcx _ IH]; [reflexivity|].
    apply Forall_cons_iff in Hword as [[Hx Hk] Hword].
    unfold lower. cbn [flat_map]. fold (lower s). rewrite (IH Hword).
    destruct (lower_char_cases c) as [[Hc E] | [[Hc E] | [[Hc E] | (Hc & _ & _ & E)]]];
      rewrite E; cbn [app]; destruct Hcx as [Hcx | Hcx]; f_equal; lia.
Qed.

Lemma allowed_words_are_small_letters (word : pystr) :
  In word ALLOWED_EXTENSIONS ->
  Forall (fun x => (97 <= x <= 122)%N /\ x <> 107%N) word.
Proof.
  intros [<- | [<- | [<- | [<- | []]]]]; repeat constructor; cbn; lia.
Qed.

Lemma str_in_In (x : pystr) (words : list pystr) : str_in x words = true <-> In x words.
Proof.
  unfold str_in. rewrite existsb_exists. split.
  - intros (y & Hin & H). apply pystr_eqb_eq in H. now subst.
  - intros H. exists x. split; [exact H | apply pystr_eqb_refl].
Qed.

(** X8: [allowed_file] never raises, and it accepts exactly the names of
    the form stem, dot, extension in which the extension is png, jpg, jpeg
    or gif written in any mix of small and capital ASCII letters; the stem
    may hold anything, further dots and slashes included. *)
Theorem allowed_file_accepts_exactly :
  forall filename : pystr,
    (exists b, allowed_file filename = Ok b) /\
    (allowed_file filename = Ok true <->
     exists stem ext word,
       filename = stem ++ ord "." :: ext /\
       In word ALLOWED_EXTENSIONS /\
       Forall2 same_letter ext word).
Proof.
  intros filename. split; [apply allowed_file_total|].
  rewrite allowed_file_iff. split.
  - intros (stem & ext & Hname & Hdot & Hin).
    apply str_in_In in Hin. exists stem, ext, (lower ext).
    repeat split; [exact Hname | exact Hin |].
    now apply (lower_is_word (lower ext) (allowed_words_are_small_letters _ Hin)).
  - intros (stem & ext & word & Hname & Hin & Hsame).
    exists stem, ext. split; [exact Hname|].
    pose proof (allowed_words_are_small_letters _ Hin) as Hword.
    split.
    + clear Hname Hin. induction Hsame as [|c x s word' Hcx _ IH]; [intros []|].
      apply Forall_cons_iff in Hword as [[Hx _] Hword].
      intros [Hc | Hin]; [|now apply IH].
      subst c. change (ord ".") with 46%N in Hcx. destruct Hcx; lia.
    + apply str_in_In.
      now rewrite (proj2 (lower_is_word word Hword ext) Hsame).
Qed.






(* ------------------------------------------------------------------ *)
(** ** Projects: creation, edition, deletion *)
(* ------------------------------------------------------------------ *)

(** X10: a creation request with an image that passes the check appends
    one project that names the stored file, and the project can be read
    back: [get_or_404] of its id finds it, and the listing of the owner's
    projects is the former listing followed by it. *)
Theorem created_project_is_listed :
  forall (env : Env) (request : Request) (current_user : User.t) (w : World)
         (title desc : pystr) (file : FileStorage),
    session_user w = Some (User.id current_user) ->
    load_user w (User.id current_user) = Some current_user ->
    method request = POST ->
    multi_get (form request) (lit "title") = Some title ->
    multi_get (form request) (lit "description") = Some desc ->
    multi_get (files request) (lit "image") = Some file ->
    allowed_file (filename file) = Ok true ->
    let picture_fn := token_hex env 8 ++ snd (splitext (filename file)) in
    let project := Project.mk (next_project_id (project_table w)) title (Some desc)
                              (Some picture_fn) (utcnow env)
                              (Some (User.id current_user)) in
    let answer := respond (login_required (projects env request)) w in
    fst answer = Redirect "projects" /\
    project_table (snd answer) = project_table w ++ [project] /\
    In (picture_fn, stream file) (uploads (snd answer)) /\
    project_get_or_404 (Project.id project) (snd answer) = (Ok project, snd answer) /\
    fst (projects_of (User.id current_user) (snd answer))
    = Ok (filter (owned_by (User.id current_user)) (project_table w) ++ [project]) /\
    user_table (snd answer) = user_table w.
Proof.
  intros env request current_user w title desc file Hsession Hloaded Hpost Htitle Hdesc
         Hfile Hallowed picture_fn project answer.
  assert (Hne : filename file <> []).
  { intros E. rewrite E in Hallowed. discriminate Hallowed. }
  subst answer.
  rewrite (accepted_image_stored env request current_user w title desc file
             Hsession Hloaded Hpost Htitle Hdesc Hfile Hne Hallowed).
  cbn [fst snd project_table uploads user_table with_flashes with_projects with_uploads].
  fold picture_fn. fold project.
  split; [reflexivity|]. split; [reflexivity|]. split; [now left|]. split; [|split].
  - unfold project_get_or_404.
    cbn [project_table with_flashes with_projects with_uploads].
    rewrite (find_app_fresh _ _ project); [reflexivity| |apply Z.eqb_refl].
    intros r Hin. apply Z.eqb_neq. pose proof (next_project_id_fresh _ _ Hin).
    subst project. cbn [Project.id]. lia.
  - unfold projects_of. cbn [fst project_table with_flashes with_projects with_uploads].
    fold (owned_by (User.id current_user)). rewrite filter_app. cbn [filter].
    replace (owned_by (User.id current_user) project) with true; [reflexivity|].
    unfold owned_by. subst project. cbn [Project.user_id]. now rewrite Z.eqb_refl.
  - reflexivity.
Qed.

(** Alice uploads a photograph whose name has a directory part. *)
Lemma created_project_is_listed_witness :
  project_table (snd (respond (login_required (projects demo_env demo_photo_request))
                              demo_world))
  = [alice_project; bob_project;
     Project.mk 3 (lit "Holiday") (Some (lit "By the sea"))
                (Some (lit "3fa107c45eb2901d.JPG")) 1700000000 (Some 1%Z)].
Proof.
  apply (created_project_is_listed demo_env demo_photo_request alice demo_world
           (lit "Holiday") (lit "By the sea") photo); reflexivity.
Defined.

Lemma find_replace_project (rows : list Project.t) (p0 p : Project.t) :
  find (fun r => Z.eqb (Project.id r) (Project.id p)) rows = Some p0 ->
  find (fun r => Z.eqb (Project.id r) (Project.id p)) (replace_project p rows) = Some p.
Proof.
  induction rows as [|r rows IH]; [discriminate|]. cbn [find replace_project map].
  destruct (Z.eqb (Project.id r) (Project.id p)) eqn:E.
  - intros _. now rewrite Z.eqb_refl.
  - rewrite E. exact IH.
Qed.

Lemma find_replace_project_other (rows : list Project.t) (p : Project.t) (other : Z) :
  other <> Project.id p ->
  find (fun r => Z.eqb (Project.id r) other) (replace_project p rows)
  = find (fun r => Z.eqb (Project.id r) other) rows.
Proof.
  intros Hother. induction rows as [|r rows IH]; [reflexivity|].
  cbn [find replace_project map].
  destruct (Z.eqb_spec (Project.id r) (Project.id p)) as [E|E].
  - destruct (Z.eqb_spec (Project.id p) other) as [E'|_]; [congruence|].
    destruct (Z.eqb_spec (Project.id r) other) as [E'|_]; [congruence|]. exact IH.
  - destruct (Z.eqb (Project.id r) other); [reflexivity | exact IH].
Qed.

(** X11: an edit by the owner that brings no new image (no file part, or
    a file part with an empty name) changes the title and the description
    of that project and nothing else: the image reference, the date and
    the owner stay, every other project stays, and the upload folder is
    untouched. *)
Theorem edit_without_file_keeps_image :
  forall (env : Env) (id : Z) (request : Request) (current_user : User.t) (w : World)
         (project : Project.t) (title description : pystr),
    session_user w = Some (User.id current_user) ->
    load_user w (User.id current_user) = Some current_user ->
    find (fun p => Z.eqb (Project.id p) id) (project_table w) = Some project ->
    Project.user_id project = Some (User.id current_user) ->
    method request = POST ->
    multi_get (form request) (lit "title") = Some title ->
    multi_get (form request) (lit "description") = Some description ->
    (multi_get (files request) (lit "image") = None \/
     exists file, multi_get (files request) (lit "image") = Some file /\
                  filename file = []) ->
    let edited := Project.mk id title (Some description) (Project.image_file project)
                             (Project.date_posted project) (Project.user_id project) in
    let answer := respond (login_required (edit_project env id request)) w in
    fst answer = Redirect "projects" /\
    project_get_or_404 id (snd answer) = (Ok edited, snd answer) /\
    (forall other, other <> id ->
       find (fun p => Z.eqb (Project.id p) other) (project_table (snd answer))
       = find (fun p => Z.eqb (Project.id p) other) (project_table w)) /\
    uploads (snd answer) = uploads w /\
    user_table (snd answer) = user_table w /\
    flashes (snd answer) = flashes w ++ [(lit "Project updated.", "success"%string)].
Proof.
  intros env id request current_user w project title description Hsession Hloaded Hfind
         Howner Hpost Htitle Hdesc Hfile edited answer.
  assert (Hid : Project.id project = id).
  { apply find_some in Hfind as [_ H]. now apply Z.eqb_eq. }
  assert (Hno : not_owner project current_user = false).
  { unfold not_owner. rewrite Howner, Z.eqb_refl. reflexivity. }
  assert (Hanswer : answer =
            (Redirect "projects",
             with_flashes (flashes w ++ [(lit "Project updated.", "success"%string)])
                          (with_projects (replace_project edited (project_table w)) w))).
  { subst answer. unfold respond.
    rewrite (login_required_authenticated _ w current_user Hsession Hloaded).
    unfold edit_project, bind. rewrite (project_get_or_404_found id w project Hfind), Hno.
    rewrite Hpost. unfold lift, multi_getitem. rewrite Htitle, Hdesc.
    destruct Hfile as [-> | (file & -> & Hname)]; [|rewrite Hname];
      cbn [str_truthy andb ret commit flash];
      unfold Project.set_description, Project.set_title; cbn [Project.id Project.title
        Project.description Project.image_file Project.date_posted Project.user_id];
      rewrite Hid; reflexivity. }
  rewrite Hanswer.
  cbn [fst snd project_table uploads user_table flashes with_flashes with_projects].
  split; [reflexivity|]. split; [|split; [|repeat split]].
  - unfold project_get_or_404. cbn [project_table with_flashes with_projects].
    assert (H : find (fun r => Z.eqb (Project.id r) id)
                     (replace_project edited (project_table w)) = Some edited)
      by (apply (find_replace_project _ project edited); exact Hfind).
    now rewrite H.
  - intros other Hother. now apply find_replace_project_other.
Qed.

Lemma edit_without_file_keeps_image_witness :
  let edited :=
    Project.mk 1 (lit "Interpreter") (Some (lit "Rewritten")) None 1690000000 (Some 1%Z) in
  let answer :=
    respond (login_required (edit_project demo_env 1 demo_retitle_request)) demo_world in
  project_get_or_404 1 (snd answer) = (Ok edited, snd answer) /\
  uploads (snd answer) = uploads demo_world.
Proof.
  split;
    apply (edit_without_file_keeps_image demo_env 1 demo_retitle_request alice
             demo_world alice_project (lit "Interpreter") (lit "Rewritten"));
    try reflexivity;
    right; exists {| filename := []; stream := [] |}; split; reflexivity.
Defined.

Lemma find_remove_project (rows : list Project.t) (p : Project.t) :
  find (fun r => Z.eqb (Project.id r) (Project.id p)) (remove_project p rows) = None.
Proof.
  induction rows as [|r rows IH]; [reflexivity|]. cbn [remove_project filter].
  destruct (Z.eqb (Project.id r) (Project.id p)) eqn:E; cbn [negb]; [exact IH|].
  cbn [find]. rewrite E. exact IH.
Qed.

Lemma find_remove_project_other (rows : list Project.t) (p : Project.t) (other : Z) :
  other <> Project.id p ->
  find (fun r => Z.eqb (Project.id r) other) (remove_project p rows)
  = find (fun r => Z.eqb (Project.id r) other) rows.
Proof.
  intros Hother. induction rows as [|r rows IH]; [reflexivity|].
  cbn [remove_project filter find].
  destruct (Z.eqb_spec (Project.id r) (Project.id p)) as [E|E]; cbn [negb].
  - destruct (Z.eqb_spec (Project.id r) other) as [E'|_]; [congruence | exact IH].
  - cbn [find]. destruct (Z.eqb (Project.id r) other); [reflexivity | exact IH].
Qed.

(** X12: a deletion by the owner removes the project and nothing else.
    Afterwards its id is not found (a second deletion is answered 404),
    every other project is found as before, the accounts are unchanged,
    and the upload folder still holds every file, the image of the
    deleted project included. *)
Theorem delete_project_removes_row :
  forall (env : Env) (id : Z) (current_user : User.t) (w : World) (project : Project.t),
    session_user w = Some (User.id current_user) ->
    load_user w (User.id current_user) = Some current_user ->
    find (fun p => Z.eqb (Project.id p) id) (project_table w) = Some project ->
    Project.user_id project = Some (User.id current_user) ->
    let answer := respond (login_required (delete_project env id)) w in
    fst answer = Redirect "projects" /\
    find (fun p => Z.eqb (Project.id p) id) (project_table (snd answer)) = None /\
    (forall other, other <> id ->
       find (fun p => Z.eqb (Project.id p) other) (project_table (snd answer))
       = find (fun p => Z.eqb (Project.id p) other) (project_table w)) /\
    uploads (snd answer) = uploads w /\
    user_table (snd answer) = user_table w /\
    flashes (snd answer) = flashes w ++ [(lit "Project deleted.", "info"%string)] /\
    fst (respond (login_required (delete_project env id)) (snd answer)) = Aborted 404.
Proof.
  intros env id current_user w project Hsession Hloaded Hfind Howner answer.
  assert (Hid : Project.id project = id).
  { apply find_some in Hfind as [_ H]. now apply Z.eqb_eq. }
  assert (Hno : not_owner project current_user = false).
  { unfold not_owner. rewrite Howner, Z.eqb_refl. reflexivity. }
  assert (Hanswer : answer =
            (Redirect "projects",
             with_flashes (flashes w ++ [(lit "Project deleted.", "info"%string)])
                          (with_projects (remove_project project (project_table w)) w))).
  { subst answer. unfold respond.
    rewrite (login_required_authenticated _ w current_user Hsession Hloaded).
    unfold delete_project, bind.
    rewrite (project_get_or_404_found id w project Hfind), Hno. reflexivity. }
  assert (Hgone : find (fun p => Z.eqb (Project.id p) id)
                       (remove_project project (project_table w)) = None).
  { rewrite <- Hid. apply find_remove_project. }
  rewrite Hanswer.
  cbn [fst snd project_table uploads user_table flashes with_flashes with_projects].
  split; [reflexivity|]. split; [exact Hgone|]. split; [|repeat split].
  - intros other Hother. apply find_remove_project_other. congruence.
  - unfold respond.
    rewrite (login_required_authenticated _ _ current_user); [| exact Hsession | exact Hloaded].
    unfold delete_project, bind, project_get_or_404.
    cbn [project_table with_flashes with_projects]. now rewrite Hgone.
Qed.

Lemma delete_project_removes_row_witness :
  let answer := respond (login_required (delete_project demo_env 1)) demo_world in
  find (fun p => Z.eqb (Project.id p) 1) (project_table (snd answer)) = None /\
  uploads (snd answer) = uploads demo_world.
Proof.
  split; apply (delete_project_removes_row demo_env 1 alice demo_world alice_project);
    reflexivity.
Defined.

(* ------------------------------------------------------------------ *)
(** ** Incomplete forms *)
(* ------------------------------------------------------------------ *)

(** X13: a form that lacks a field the handler reads with
    [request.form[...]] or [request.files[...]] is answered 400 and the
    world stays as it was: nothing is created, updated or saved, no
    message is flashed.  This holds for [login] and [register], for the
    creation of a project (the file part included) and for its edition by
    the owner. *)
Theorem missing_field_is_bad_request :
  forall (generate_password_hash : pystr -> pystr -> pystr)
         (check_password_hash : pystr -> pystr -> bool)
         (env : Env) (request : Request) (current_user : User.t) (w : World),
    method request = POST ->
    ((multi_get (form request) (lit "email") = None \/
      multi_get (form request) (lit "password") = None) ->
     respond (login check_password_hash request) w = (Aborted 400, w)) /\
    ((multi_get (form request) (lit "username") = None \/
      multi_get (form request) (lit "email") = None \/
      multi_get (form request) (lit "password") = None) ->
     respond (register generate_password_hash env request) w = (Aborted 400, w)) /\
    ((multi_get (form request) (lit "title") = None \/
      multi_get (form request) (lit "description") = None \/
      multi_get (files request) (lit "image") = None) ->
     respond (projects env request current_user) w = (Aborted 400, w)) /\
    (forall (id : Z) (project : Project.t),
        find (fun p => Z.eqb (Project.id p) id) (project_table w) = Some project ->
        Project.user_id project = Some (User.id current_user) ->
        (multi_get (form request) (lit "title") = None \/
         multi_get (form request) (lit "description") = None) ->
        respond (edit_project env id request current_user) w = (Aborted 400, w)).
Proof.
  intros gph chk env request current_user w Hpost.
  repeat split.
  - intros H. unfold respond, login. rewrite Hpost. unfold bind, lift, multi_getitem.
    destruct (multi_get (form request) (lit "email"));
      destruct (multi_get (form request) (lit "password")); try reflexivity.
    destruct H; discriminate.
  - intros H. unfold respond, register. rewrite Hpost. unfold bind, lift, multi_getitem.
    destruct (multi_get (form request) (lit "username"));
      destruct (multi_get (form request) (lit "email"));
      destruct (multi_get (form request) (lit "password")); try reflexivity.
    destruct H as [H | [H | H]]; discriminate.
  - intros H. unfold respond, projects. rewrite Hpost. unfold bind, lift, multi_getitem.
    destruct (multi_get (form request) (lit "title"));
      destruct (multi_get (form request) (lit "description"));
      destruct (multi_get (files request) (lit "image")); try reflexivity.
    destruct H as [H | [H | H]]; discriminate.
  - intros id project Hfind Howner H. unfold respond, edit_project, bind.
    rewrite (project_get_or_404_found id w project Hfind).
    unfold not_owner. rewrite Howner, Z.eqb_refl. cbn [negb]. rewrite Hpost.
    unfold lift, multi_getitem.
    destruct (multi_get (form request) (lit "title"));
      destruct (multi_get (form request) (lit "description")); try reflexivity.
    destruct H; discriminate.
Qed.

Lemma missing_field_is_bad_request_witness :
  respond (projects demo_env demo_title_only_request alice) demo_world
  = (Aborted 400, demo_world) /\
  respond (edit_project demo_env 1 demo_title_only_request alice) demo_world
  = (Aborted 400, demo_world).
Proof.
  destruct (missing_field_is_bad_request demo_generate_password_hash
              demo_check_password_hash demo_env demo_title_only_request alice demo_world
              eq_refl) as (_ & _ & Hcreate & Hedit).
  split.
  - apply Hcreate. right. left. reflexivity.
  - apply (Hedit 1%Z alice_project); try reflexivity. right. reflexivity.
Defined.

(* ------------------------------------------------------------------ *)
(** ** Profile updates and the constraints *)
(* ------------------------------------------------------------------ *)

(** X14: a profile update cannot take the user name of another account.
    The commit fails on the unique constraint and the handler rolls back:
    the answer is the redirect to the profile page, the accounts (every
    field of the profile, the password and the certifications included),
    the projects, the upload folder and the session are as before, and
    one message is flashed, in the category danger, that begins with
    "Error updating profile: " and goes on with the text of the
    exception. *)
Theorem profile_username_taken :
  forall (floatstr : pystr -> pystr) (generate_password_hash : pystr -> pystr -> pystr)
         (env : Env) (request : Request) (current_user : User.t) (w : World)
         (username : pystr) (holder : User.t),
    method request = POST ->
    multi_get (form request) (lit "username") = Some username ->
    In holder (user_table w) ->
    User.id holder <> User.id current_user ->
    User.username holder = Some username ->
    let answer :=
      respond (profile floatstr generate_password_hash env request current_user) w in
    fst answer = Redirect "profile" /\
    user_table (snd answer) = user_table w /\
    project_table (snd answer) = project_table w /\
    uploads (snd answer) = uploads w /\
    session_user (snd answer) = session_user w /\
    exists cause,
      flashes (snd answer)
      = flashes w ++ [(lit "Error updating profile: " ++ cause, "danger"%string)].
Proof.
  intros fs gph env request current_user w username holder Hpost Hname Hin Hid Hheld
         answer.
  destruct (profile_assignments_fields fs gph env request current_user)
    as (pending & Hpending & Hpid & _ & Hpname & _).
  assert (Hrefused : user_violation (user_table w) pending
                     = Some "UNIQUE constraint failed: user.username"%string).
  { unfold user_violation. rewrite Hpname, Hname.
    replace (existsb _ (user_table w)) with true; [reflexivity|].
    symmetry. apply existsb_exists. exists holder. split; [exact Hin|].
    rewrite Hpid, Hheld. cbn [column_eqb]. rewrite pystr_eqb_refl.
    apply andb_true_iff. split; [|reflexivity].
    now apply negb_true_iff, Z.eqb_neq. }
  subst answer.
  rewrite (profile_post_rolls_back fs gph env request current_user pending w _
             Hpost Hpending Hrefused).
  cbn [fst snd user_table project_table uploads session_user flashes with_flashes].
  repeat split. eexists. reflexivity.
Qed.

(** Alice asks for Bob's name, with a new password in the same form. *)
Lemma profile_username_taken_witness :
  let answer :=
    respond (profile demo_floatstr demo_generate_password_hash demo_env
                     demo_rename_request alice) demo_world in
  fst answer = Redirect "profile" /\
  user_table (snd answer) = user_table demo_world.
Proof.
  split;
    apply (profile_username_taken demo_floatstr demo_generate_password_hash demo_env
             demo_rename_request alice demo_world (lit "bob") bob);
    try reflexivity; try discriminate; right; left; reflexivity.
Defined.

(* ------------------------------------------------------------------ *)
(** ** From the profile form to the export *)
(* ------------------------------------------------------------------ *)

Lemma find_replaced_by_username (pending : User.t) (rows : list User.t) (n : pystr)
                                (current : User.t) :
  User.username pending = Some n ->
  (forall r, In r rows -> User.id r <> User.id pending -> User.username r <> Some n) ->
  find (fun r => Z.eqb (User.id r) (User.id pending)) rows = Some current ->
  find (fun u => column_eqb (User.username u) (Some n)) (replace_user pending rows)
  = Some pending.
Proof.
  intros Hname Hother. induction rows as [|r rows IH]; [discriminate|].
  cbn [find replace_user map]. destruct (Z.eqb_spec (User.id r) (User.id pending)) as [E|E].
  - intros _. rewrite Hname. cbn [column_eqb]. now rewrite pystr_eqb_refl.
  - intros Hfind. destruct (column_eqb (User.username r) (Some n)) eqn:Hr.
    + apply column_eqb_eq in Hr. exfalso. now apply (Hother r (or_introl eq_refl)).
    + apply IH; [|exact Hfind]. intros r' Hin. apply Hother. now right.
Qed.

(** X15: what the profile form saves is what the export prints.  After a
    profile update that the store accepts, made of Unicode text, the
    export of the user name just saved is the file named after it, and its
    story holds the certification block of exactly the rows the form
    carried with a non-blank name, in their order. *)
Theorem profile_then_export :
  forall (floatstr : pystr -> pystr) (float_nonzero : pystr -> bool)
         (py_str : py_value -> pystr)
         (generate_password_hash : pystr -> pystr -> pystr)
         (env : Env) (request : Request) (current_user : User.t) (w : World)
         (username : pystr) (pending : User.t),
    method request = POST ->
    unicode_request request = true ->
    session_user w = Some (User.id current_user) ->
    load_user w (User.id current_user) = Some current_user ->
    multi_get (form request) (lit "username") = Some username ->
    profile_assignments floatstr generate_password_hash env request current_user
    = Ok pending ->
    user_violation (user_table w) pending = None ->
    let saved := spec_certifications (getlist (form request) (lit "cert_name[]"))
                                     (getlist (form request) (lit "cert_issuer[]"))
                                     (getlist (form request) (lit "cert_date[]")) in
    let w' := snd (respond (login_required
                              (profile floatstr generate_password_hash env request)) w) in
    respond (download_portfolio float_nonzero py_str username) w' =
    (SendFile (story_before pending ++
               spec_cert_block py_str (map cert_items saved) ++
               story_after (filter (owned_by (User.id current_user)) (project_table w)))
              (username ++ lit "_portfolio.pdf"),
     w').
Proof.
  intros fs fnz ps gph env request current_user w username pending Hpost Hunicode
         Hsession Hloaded Hname Hpending Hpass saved w'.
  destruct (profile_assignments_fields fs gph env request current_user)
    as (pending' & Hpending' & Hpid & _ & Hpname & Hrest).
  rewrite Hpending in Hpending'. injection Hpending' as <-.
  assert (Hdata : User.certifications_data pending
                  = Some (Json.dumps fs (PList (map cert_dict saved)))) by apply Hrest.
  clear Hrest. rewrite Hname in Hpname.
  assert (Hw' : w' = with_flashes
                       (flashes w ++ [(lit "Profile updated successfully!",
                                       "success"%string)])
                       (with_users (replace_user pending (user_table w)) w)).
  { subst w'. unfold respond at 1.
    rewrite (login_required_authenticated _ w current_user Hsession Hloaded).
    fold (respond (profile fs gph env request current_user) w).
    now rewrite (profile_post_commits fs gph env request current_user pending w
                   Hpost Hpending Hpass). }
  assert (Hwf : forallb well_formed_cert saved = true).
  { apply spec_certifications_well_formed; now apply getlist_well_formed. }
  pose proof (certifications_of_encoding fs pending saved Hwf Hdata) as Hcerts.
  assert (Hfind : find (fun u => column_eqb (User.username u) (Some username))
                       (user_table w') = Some pending).
  { rewrite Hw'. cbn [user_table with_flashes with_users].
    apply (find_replaced_by_username pending _ username current_user Hpname).
    - intros r Hin Hid. rewrite <- Hpname.
      now apply (proj2 (user_violation_none _ _ Hpass) r Hin Hid).
    - unfold load_user in Hloaded. now rewrite Hpid. }
  unfold respond, download_portfolio, bind, user_by_username. rewrite Hfind.
  unfold projects_of, lift.
  rewrite (portfolio_story_of_dicts fnz ps pending _ (map cert_items saved))
    by (now rewrite map_map).
  cbn [ret]. rewrite Hpname. cbn [format_column]. rewrite Hpid.
  replace (project_table w') with (project_table w) by (now rewrite Hw').
  reflexivity.
Qed.

Lemma profile_then_export_witness :
  let w' := snd (respond (login_required
                            (profile demo_floatstr demo_generate_password_hash demo_env
                                     demo_profile_request)) demo_world) in
  exists pending,
    respond (download_portfolio demo_float_nonzero demo_py_str (lit "alice")) w' =
    (SendFile (story_before pending ++
               [Paragraph (lit "Certifications") "Heading2";
                Paragraph (lit "<b>AWS CCP</b> - Amazon (2024)") "Normal";
                Paragraph (lit "<b>AWS CCP</b> - Amazon ()") "Normal";
                Paragraph (lit "<b> CKA </b> -  ()") "Normal";
                Spacer 1 20] ++
               story_after [alice_project])
              (lit "alice_portfolio.pdf"),
     w').
Proof.
  eexists.
  apply (profile_then_export demo_floatstr demo_float_nonzero demo_py_str
           demo_generate_password_hash demo_env demo_profile_request alice demo_world
           (lit "alice")); reflexivity.
Defined.

(* ------------------------------------------------------------------ *)
(** ** The rows of the certification form *)
(* ------------------------------------------------------------------ *)

Lemma lstrip_nil_iff (s : pystr) : lstrip s = [] <-> forallb py_isspace s = true.
Proof.
  induction s as [|c s IH]; cbn [lstrip forallb]; [tauto|].
  destruct (py_isspace c); cbn [andb]; [exact IH|]. split; discriminate.
Qed.

Lemma lstrip_head (s : pystr) (c : N) (rest : pystr) :
  lstrip s = c :: rest -> py_isspace c = false.
Proof.
  induction s as [|x s IH]; cbn [lstrip]; [discriminate|].
  destruct (py_isspace x) eqn:E; [exact IH|]. intros [= <- _]. exact E.
Qed.

Lemma forallb_reversed {A} (f : A -> bool) (l : list A) :
  forallb f (rev l) = forallb f l.
Proof.
  induction l as [|x l IH]; [reflexivity|]. cbn [rev forallb].
  rewrite forallb_app, IH. cbn [forallb]. rewrite andb_true_r. apply andb_comm.
Qed.

(** Trimming leaves nothing exactly when every character is white space. *)
Lemma strip_nil_iff (s : pystr) : strip s = [] <-> forallb py_isspace s = true.
Proof.
  unfold strip, rstrip. split.
  - intros H. apply (f_equal (@rev N)) in H. rewrite rev_involutive in H. cbn [rev] in H.
    apply lstrip_nil_iff in H. rewrite forallb_reversed in H.
    destruct (lstrip s) as [|c rest] eqn:E; [now apply lstrip_nil_iff|].
    apply lstrip_head in E. cbn [forallb] in H. rewrite E in H. discriminate H.
  - intros H. apply lstrip_nil_iff in H. rewrite H. reflexivity.
Qed.

Lemma blank_iff (s : pystr) :
  str_truthy (strip s) = negb (forallb py_isspace s).
Proof.
  destruct (forallb py_isspace s) eqn:E.
  - apply strip_nil_iff in E. now rewrite E.
  - destruct (strip s) eqn:Es; [|reflexivity].
    apply strip_nil_iff in Es. congruence.
Qed.

(** The rows a list of records fills in, index by index. *)
Lemma rows_of_records (keep : Certification.t -> bool) (L : list Certification.t) :
  forall (shift : list Certification.t),
  map (fun i => Certification.mk (nth i (map Certification.name (shift ++ L)) [])
                                 (nth i (map Certification.issuer (shift ++ L)) [])
                                 (nth i (map Certification.date (shift ++ L)) []))
      (filter (fun i => keep (nth i (shift ++ L) (Certification.mk [] [] [])))
              (seq (length shift) (length L)))
  = filter keep L.
Proof.
  induction L as [|c L IH]; intros shift; [reflexivity|].
  cbn [length seq filter].
  assert (Hnth : nth (length shift) (shift ++ c :: L) (Certification.mk [] [] []) = c).
  { rewrite app_nth2 by lia. now rewrite Nat.sub_diag. }
  rewrite Hnth.
  specialize (IH (shift ++ [c])). rewrite <- app_assoc in IH. cbn [app] in IH.
  rewrite length_app in IH. cbn [length] in IH. rewrite Nat.add_1_r in IH.
  destruct (keep c); [|exact IH]. cbn [map]. rewrite IH. f_equal.
  change (nth (length shift) (map Certification.name (shift ++ c :: L)) [])
    with (nth (length shift) (map Certification.name (shift ++ c :: L))
              (Certification.name (Certification.mk [] [] []))).
  change (nth (length shift) (map Certification.issuer (shift ++ c :: L)) [])
    with (nth (length shift) (map Certification.issuer (shift ++ c :: L))
              (Certification.issuer (Certification.mk [] [] []))).
  change (nth (length shift) (map Certification.date (shift ++ c :: L)) [])
    with (nth (length shift) (map Certification.date (shift ++ c :: L))
              (Certification.date (Certification.mk [] [] []))).
  rewrite !map_nth, Hnth. now destruct c.
Qed.

(** X16: the certification rows round trip.  Filling the three columns of
    the form with the names, issuers and dates of a list of records and
    running the loop of [profile] gives back the records whose name has a
    character that is not white space, in their order, each with its own
    issuer and date; the whole list when no name is blank.  A name is
    blank for the loop exactly when all its characters are white space. *)
Theorem certification_rows_round_trip :
  forall L : list Certification.t,
    let kept := filter (fun c => negb (forallb py_isspace (Certification.name c))) L in
    build_certs (map Certification.name L) (map Certification.issuer L)
                (map Certification.date L)
    = Ok (map cert_dict kept) /\
    (forallb (fun c => negb (forallb py_isspace (Certification.name c))) L = true ->
     kept = L) /\
    (forall name, str_truthy (strip name) = negb (forallb py_isspace name)).
Proof.
  intros L kept. split; [|split].
  - rewrite build_certs_spec. f_equal. f_equal. unfold spec_certifications.
    rewrite length_map. subst kept.
    rewrite <- (rows_of_records _ L []). cbn [app length]. f_equal.
    apply filter_ext. intros i.
    change (nth i (map Certification.name L) [])
      with (nth i (map Certification.name L)
                (Certification.name (Certification.mk [] [] []))).
    rewrite map_nth. apply blank_iff.
  - intros H. subst kept. induction L as [|c L IH]; [reflexivity|].
    cbn [forallb] in H. apply andb_true_iff in H as [Hc H]. cbn [filter].
    rewrite Hc. f_equal. now apply IH.
  - apply blank_iff.
Qed.

(* ------------------------------------------------------------------ *)
(** ** The stored text *)
(* ------------------------------------------------------------------ *)

Section Printable.

Local Open Scope N_scope.

Lemma hexdigit_printable (d : N) : d < 16 -> is_printable_ascii (Json.hexdigit d) = true.
Proof.
  intros Hd. unfold Json.hexdigit, is_printable_ascii.
  destruct (N.ltb_spec d 10); apply andb_true_iff; split; apply N.leb_le; lia.
Qed.

Lemma hex4_printable (n : N) : n < 65536 -> forallb is_printable_ascii (Json.hex4 n) = true.
Proof.
  intros Hn. unfold Json.hex4. cbn [forallb].
  rewrite !hexdigit_printable; [reflexivity| | | |];
    zify; Z.to_euclidean_division_equations; lia.
Qed.

Lemma surrogate_bounded (k x : N) :
  k < 64 -> N.lor (N.shiftl k 10) (N.land x 0x3ff) < 65536.
Proof.
  intros Hk. change 0x3ff with (N.ones 10). rewrite N.land_ones.
  assert (Hx : x mod 2 ^ 10 < 2 ^ 10) by (apply N.mod_lt; discriminate).
  rewrite lor_shiftl_small by exact Hx. change (2 ^ 10) with 1024 in *. nia.
Qed.

Lemma replace_printable (c : N) : forallb is_printable_ascii (Json.replace c) = true.
Proof.
  unfold Json.replace.
  repeat match goal with
         | |- context [if ?b then _ else _] => destruct b eqn:?; [try reflexivity|]
         end.
  - cbn [forallb]. unfold is_printable_ascii.
    match goal with H : (32 <=? c) && (c <=? 126) = true |- _ => now rewrite H end.
  - cbn [forallb]. change (is_printable_ascii 92) with true.
    change (is_printable_ascii (ord "u")) with true. cbn [andb].
    apply hex4_printable. now apply N.ltb_lt.
  - rewrite forallb_app. cbn [forallb]. change (is_printable_ascii 92) with true.
    change (is_printable_ascii (ord "u")) with true. cbn [andb].
    change 0xd800 with (N.shiftl 54 10). change 0xdc00 with (N.shiftl 55 10).
    rewrite !hex4_printable; [reflexivity| |]; now apply surrogate_bounded.
Qed.

Lemma encoded_string_printable (s : pystr) :
  forallb is_printable_ascii (Json.encode_basestring_ascii s) = true.
Proof.
  unfold Json.encode_basestring_ascii. cbn [forallb].
  change (is_printable_ascii 34) with true. cbn [andb]. rewrite forallb_app.
  cbn [forallb]. change (is_printable_ascii 34) with true. rewrite andb_true_r.
  induction s as [|c s IH]; [reflexivity|]. cbn [flat_map].
  now rewrite forallb_app, replace_printable.
Qed.

Lemma join_printable (sep : pystr) (parts : list pystr) :
  forallb is_printable_ascii sep = true ->
  Forall (fun p => forallb is_printable_ascii p = true) parts ->
  forallb is_printable_ascii (join sep parts) = true.
Proof.
  intros Hsep Hparts. induction Hparts as [|p parts Hp _ IH]; [reflexivity|].
  cbn [join]. destruct parts as [|q parts]; [exact Hp|].
  now rewrite !forallb_app, Hp, Hsep, IH.
Qed.

Lemma cert_text_printable (floatstr : pystr -> pystr) (c : Certification.t) :
  forallb is_printable_ascii (Json.dumps floatstr (cert_dict c)) = true.
Proof.
  unfold cert_dict, cert_items.
  cbn -[Json.encode_basestring_ascii forallb is_printable_ascii].
  repeat first [ rewrite forallb_app
               | rewrite encoded_string_printable
               | progress cbn [forallb andb] ].
  reflexivity.
Qed.

End Printable.

(** X17: the text the setter stores for a list of certifications is
    printable ASCII, whatever the code points of the names, issuers and
    dates: every other character is written as an escape. *)
Theorem stored_text_is_printable_ascii :
  forall (floatstr : pystr -> pystr) (L : list Certification.t) (self : User.t),
    exists text,
      User.certifications_data
        (User.set_certifications floatstr (PList (map cert_dict L)) self) = Some text /\
      text = Json.dumps floatstr (PList (map cert_dict L)) /\
      text <> [] /\
      forallb is_printable_ascii text = true.
Proof.
  intros fs L self. eexists. split; [reflexivity|]. split; [reflexivity|]. split.
  - destruct L; discriminate.
  - destruct L as [|c L]; [reflexivity|].
    change (Json.dumps fs (PList (map cert_dict (c :: L))))
      with (ord "[" :: join (lit ", ") (map (Json.dumps fs) (map cert_dict (c :: L)))
                       ++ [ord "]"]).
    cbn [forallb]. change (is_printable_ascii (ord "[")) with true. cbn [andb].
    rewrite forallb_app. cbn [forallb]. change (is_printable_ascii (ord "]")) with true.
    rewrite andb_true_r. apply join_printable; [reflexivity|].
    apply Forall_forall. intros p Hp. apply in_map_iff in Hp as (v & <- & Hv).
    apply in_map_iff in Hv as (c' & <- & _). apply cert_text_printable.
Qed.

(* ------------------------------------------------------------------ *)
(** ** The export *)
(* ------------------------------------------------------------------ *)

(** X18: an account whose certification text cannot be read (no text, the
    empty text, or text the decoder rejects) is exported all the same:
    the answer is the file, and its story is the header followed by the
    projects, without a certification block. *)
Theorem unreadable_certifications_are_skipped :
  forall (float_nonzero : pystr -> bool) (py_str : py_value -> pystr)
         (w : World) (username : pystr) (user : User.t),
    find (fun u => column_eqb (User.username u) (Some username)) (user_table w)
    = Some user ->
    (User.certifications_data user = None \/
     User.certifications_data user = Some [] \/
     exists data e, User.certifications_data user = Some data /\
                    Json.loads data = Raise e) ->
    let story := story_before user ++
                 story_after (filter (owned_by (User.id user)) (project_table w)) in
    respond (download_portfolio float_nonzero py_str username) w =
    (SendFile story (username ++ lit "_portfolio.pdf"), w) /\
    ~ In certifications_heading story.
Proof.
  intros fnz ps w username user Hfind Hdata story.
  assert (Hcerts : User.certifications user = Ok (PList [])).
  { unfold User.certifications.
    destruct Hdata as [-> | [-> | (data & e & -> & Hloads)]]; try reflexivity.
    destruct (negb (column_truthy (Some data))); [reflexivity|].
    now rewrite Hloads. }
  split.
  - unfold respond, download_portfolio, bind, user_by_username. rewrite Hfind.
    unfold projects_of, lift.
    rewrite (portfolio_story_of_dicts fnz ps user _ []) by exact Hcerts.
    apply find_some in Hfind as [_ Hname]. apply column_eqb_eq in Hname.
    rewrite Hname. reflexivity.
  - subst story. rewrite in_app_iff. intros [H | H].
    + now apply (heading_not_before user).
    + now apply (heading_not_after _ H).
Qed.

Lemma unreadable_certifications_are_skipped_witness :
  respond (download_portfolio demo_float_nonzero demo_py_str (lit "mallory"))
          (with_users [alice; mallory] demo_world) =
  (SendFile [Paragraph (lit "mallory's Portfolio") "Title"; Spacer 1 12; Spacer 1 20;
             Paragraph (lit "Projects") "Heading2"]
            (lit "mallory_portfolio.pdf"),
   with_users [alice; mallory] demo_world).
Proof.
  apply (unreadable_certifications_are_skipped demo_float_nonzero demo_py_str
           (with_users [alice; mallory] demo_world) (lit "mallory") mallory).
  - reflexivity.
  - right. right. eexists. eexists. split; [reflexivity|]. vm_compute. reflexivity.
Defined.

Lemma paragraphs_in_app (style : string) (a b : list flowable) :
  paragraphs_in style (a ++ b) = paragraphs_in style a ++ paragraphs_in style b.
Proof. unfold paragraphs_in. apply flat_map_app. Qed.

Lemma cert_lines_normal (py_str : py_value -> pystr) (style : string) :
  style <> "Normal"%string ->
  forall items lines,
    map_result (cert_line py_str) items = Ok lines -> paragraphs_in style lines = [].
Proof.
  intros Hstyle. induction items as [|item items IH]; intros lines H.
  - injection H as <-. reflexivity.
  - cbn [map_result] in H. unfold cert_line at 1 in H.
    destruct (py_get item (lit "name") _); [|discriminate].
    destruct (py_get item (lit "issuer") _); [|discriminate].
    destruct (py_get item (lit "date") _); [|discriminate].
    cbn [rbind] in H. destruct (map_result (cert_line py_str) items) as [lines'|];
      [|discriminate].
    cbn [rbind] in H. injection H as <-. cbn [paragraphs_in flat_map].
    fold (paragraphs_in style lines'). rewrite (IH lines' eq_refl).
    destruct (String.eqb_spec "Normal" style); [congruence | reflexivity].
Qed.

Lemma certification_story_styles (float_nonzero : pystr -> bool)
                                 (py_str : py_value -> pystr) (style : string)
                                 (certs : py_value) (block : list flowable) :
  style <> "Normal"%string -> style <> "Heading2"%string ->
  certification_story float_nonzero py_str certs = Ok block ->
  paragraphs_in style block = [].
Proof.
  intros Hn Hh. unfold certification_story.
  destruct (truthy float_nonzero certs); [|intros [= <-]; reflexivity].
  destruct (py_iter certs) as [items|]; [|discriminate]. cbn [rbind].
  destruct (map_result (cert_line py_str) items) as [lines|] eqn:E; [|discriminate].
  cbn [rbind]. intros [= <-].
  change (Paragraph (lit "Certifications") "Heading2" :: lines ++ [Spacer 1 20])
    with ([Paragraph (lit "Certifications") "Heading2"] ++ lines ++ [Spacer 1 20]).
  rewrite !paragraphs_in_app, (cert_lines_normal py_str style Hn items lines E).
  unfold paragraphs_in. cbn [flat_map app].
  destruct (String.eqb_spec "Heading2" style); [congruence | reflexivity].
Qed.

Lemma portfolio_story_parts (float_nonzero : pystr -> bool) (py_str : py_value -> pystr)
                            (user : User.t) (projects : list Project.t)
                            (story : list flowable) :
  portfolio_story float_nonzero py_str user projects = Ok story ->
  exists block,
    story = story_before user ++ block ++ story_after projects /\
    forall style, style <> "Normal"%string -> style <> "Heading2"%string ->
                  paragraphs_in style block = [].
Proof.
  unfold portfolio_story.
  destruct (User.certifications user) as [certs|]; [|discriminate]. cbn [rbind].
  destruct (certification_story float_nonzero py_str certs) as [block|] eqn:E;
    [|discriminate].
  cbn [rbind]. intros [= <-]. exists block. split.
  - unfold story_before, story_after. rewrite <- !app_assoc. reflexivity.
  - intros style Hn Hh. now apply (certification_story_styles float_nonzero py_str _ certs).
Qed.

Lemma titles_before (user : User.t) :
  paragraphs_in "Heading3" (story_before user) = [] /\
  paragraphs_in "Title" (story_before user)
  = [format_column (User.username user) ++ lit "'s Portfolio"].
Proof.
  unfold story_before.
  destruct (column_truthy (User.course user)), (column_truthy (User.tagline user)),
           (column_truthy (User.public_email user)); split; reflexivity.
Qed.

Lemma titles_after (projects : list Project.t) :
  paragraphs_in "Heading3" (story_after projects)
  = map (fun p => lit "<b>" ++ Project.title p ++ lit "</b>") projects /\
  paragraphs_in "Title" (story_after projects) = [].
Proof.
  unfold story_after.
  change (Paragraph (lit "Projects") "Heading2" :: flat_map project_story projects)
    with ([Paragraph (lit "Projects") "Heading2"] ++ flat_map project_story projects).
  rewrite !paragraphs_in_app.
  change (paragraphs_in "Heading3" [Paragraph (lit "Projects") "Heading2"]) with (@nil pystr).
  change (paragraphs_in "Title" [Paragraph (lit "Projects") "Heading2"]) with (@nil pystr).
  cbn [app].
  induction projects as [|p projects [IH3 IHt]]; [split; reflexivity|].
  cbn [flat_map map]. rewrite !paragraphs_in_app, IH3, IHt. unfold project_story.
  destruct (column_truthy (Project.description p)); split; reflexivity.
Qed.

(** X19: the export shows the account's own projects and no others.
    Whenever [download_portfolio] answers a file, it is named after the
    user of the URL, the world is untouched, the story has one title (the
    user name), and its project headings are the titles of exactly the
    projects whose owner is that account, in the order of the table. *)
Theorem export_lists_own_projects :
  forall (float_nonzero : pystr -> bool) (py_str : py_value -> pystr)
         (w w' : World) (username name : pystr) (story : list flowable),
    respond (download_portfolio float_nonzero py_str username) w
    = (SendFile story name, w') ->
    exists user,
      In user (user_table w) /\
      User.username user = Some username /\
      name = username ++ lit "_portfolio.pdf" /\
      w' = w /\
      paragraphs_in "Title" story = [username ++ lit "'s Portfolio"] /\
      paragraphs_in "Heading3" story
      = map (fun p => lit "<b>" ++ Project.title p ++ lit "</b>")
            (filter (owned_by (User.id user)) (project_table w)).
Proof.
  intros fnz ps w w' username name story.
  unfold respond, download_portfolio, bind, user_by_username.
  destruct (find _ (user_table w)) as [user|] eqn:Hfind; [|discriminate].
  unfold projects_of, lift.
  fold (owned_by (User.id user)).
  destruct (portfolio_story fnz ps user _) as [story'|e] eqn:Hstory;
    [|destruct e; discriminate].
  cbn [ret]. intros [= <- <- <-].
  apply find_some in Hfind as [Hin Hname]. apply column_eqb_eq in Hname.
  apply portfolio_story_parts in Hstory as (block & -> & Hblock).
  exists user. rewrite Hname. cbn [format_column].
  split; [exact Hin|]. split; [reflexivity|]. split; [reflexivity|].
  split; [reflexivity|].
  rewrite !paragraphs_in_app, !Hblock by discriminate.
  destruct (titles_before user) as [-> ->].
  destruct (titles_after (filter (owned_by (User.id user)) (project_table w))) as [-> ->].
  rewrite Hname. cbn [format_column]. split; [|reflexivity].
  now rewrite app_nil_r.
Qed.

(** Alice's export names her compiler, not Bob's robot. *)
Lemma export_lists_own_projects_witness :
  paragraphs_in "Heading3" alice_story = [lit "<b>Compiler</b>"].
Proof.
  destruct (export_lists_own_projects demo_float_nonzero demo_py_str demo_world demo_world
              (lit "alice") (lit "alice_portfolio.pdf") alice_story)
    as (user & Hin & Hname & _ & _ & _ & Hprojects).
  - vm_compute. reflexivity.
  - rewrite Hprojects.
    destruct Hin as [<- | [<- | []]]; [reflexivity | discriminate Hname].
Defined.

(* ------------------------------------------------------------------ *)
(** ** Requests that only read *)
(* ------------------------------------------------------------------ *)

(** X20: a GET request changes no table and no file, whatever its route,
    with one exception: the deletion of a project, which the application
    reaches by GET.  (Logging out, also a GET, ends the session and
    leaves the tables alone.) *)
Theorem get_requests_only_read :
  forall (floatstr : pystr -> pystr) (float_nonzero : pystr -> bool)
         (py_str : py_value -> pystr)
         (generate_password_hash : pystr -> pystr -> pystr)
         (check_password_hash : pystr -> pystr -> bool)
         (c : call) (w : World),
    method (call_request c) = GET ->
    (forall id, call_endpoint c <> AtDeleteProject id) ->
    let w' := snd (serve floatstr float_nonzero py_str generate_password_hash
                         check_password_hash c w) in
    user_table w' = user_table w /\
    project_table w' = project_table w /\
    uploads w' = uploads w /\
    (call_endpoint c <> AtLogout -> session_user w' = session_user w).
Proof.
  intros fs fnz ps gph chk [env e request] w Hget Hroute w'. subst w'.
  cbn [call_request call_endpoint call_env] in *.
  unfold serve. rewrite snd_respond. cbn [call_request call_endpoint call_env].
  unfold dispatch. rewrite Hget.
  destruct e; cbn [view_of];
    try (exfalso; now apply (Hroute id));
    unfold home, register, login, login_required, logout, dashboard, profile, projects,
           edit_project, public_portfolio, download_portfolio;
    rewrite ?Hget; run_handler; split_handler; cbn [snd];
    repeat split; try reflexivity; try congruence;
    intros _; cbn [session_user with_flashes]; congruence.
Qed.

Lemma get_requests_only_read_witness :
  project_table (snd (serve demo_floatstr demo_float_nonzero demo_py_str
                            demo_generate_password_hash demo_check_password_hash
                            (demo_get (AtEditProject 1)) demo_world))
  = project_table demo_world.
Proof.
  apply (get_requests_only_read demo_floatstr demo_float_nonzero demo_py_str
           demo_generate_password_hash demo_check_password_hash
           (demo_get (AtEditProject 1)) demo_world).
  - reflexivity.
  - discriminate.
Defined.

(* ------------------------------------------------------------------ *)
(** ** Logging in *)
(* ------------------------------------------------------------------ *)

Lemma NoDup_map_injective {A B} (f : A -> B) (l : list A) (x y : A) :
  NoDup (map f l) -> In x l -> In y l -> f x = f y -> x = y.
Proof.
  induction l as [|a l IH]; intros Hnd Hx Hy Hf; [destruct Hx|].
  cbn [map] in Hnd. apply NoDup_cons_iff in Hnd as [Ha Hnd].
  destruct Hx as [-> | Hx], Hy as [-> | Hy].
  - reflexivity.
  - exfalso. apply Ha. rewrite Hf. now apply in_map.
  - exfalso. apply Ha. rewrite <- Hf. now apply in_map.
  - now apply IH.
Qed.

(** X21: logging in with the address of an account and a password that
    bcrypt accepts for its hash opens the session of that very account.
    In a consistent store the answer is the redirect to the dashboard,
    the tables and the upload folder are unchanged, and every view behind
    [login_required] then runs with that account as [current_user]. *)
Theorem login_opens_session :
  forall (check_password_hash : pystr -> pystr -> bool) (request : Request) (w : World)
         (email password : pystr) (user : User.t) (view : User.t -> M response),
    store_ok w ->
    method request = POST ->
    multi_get (form request) (lit "email") = Some email ->
    multi_get (form request) (lit "password") = Some password ->
    In user (user_table w) ->
    User.email user = email ->
    check_password_hash (User.password user) password = true ->
    let answer := respond (login check_password_hash request) w in
    answer =
    (Redirect "dashboard",
     with_flashes (flashes w ++ [(lit "Logged in successfully.", "success"%string)])
                  (with_session_user (Some (User.id user)) w)) /\
    login_required view (snd answer) = view user (snd answer).
Proof.
  intros chk request w email password user view Hok Hpost Hemail Hpassword Hin Huser
         Hcheck answer.
  destruct (find_exists (fun u => pystr_eqb (User.email u) email) (user_table w) user Hin)
    as [found Hfind]; [now apply pystr_eqb_eq|].
  assert (found = user) as ->.
  { pose proof (find_some _ _ Hfind) as [Hin' Hf]. apply pystr_eqb_eq in Hf.
    apply (NoDup_map_injective User.email (user_table w)); try assumption.
    - apply (emails_unique w Hok).
    - congruence. }
  assert (Hanswer : answer =
            (Redirect "dashboard",
             with_flashes (flashes w ++ [(lit "Logged in successfully.", "success"%string)])
                          (with_session_user (Some (User.id user)) w))).
  { subst answer. unfold respond, login. rewrite Hpost.
    unfold bind, lift, multi_getitem, user_by_email. rewrite Hemail, Hpassword, Hfind.
    rewrite Hcheck. reflexivity. }
  split; [exact Hanswer|]. rewrite Hanswer. cbn [snd].
  apply login_required_authenticated; [reflexivity|].
  unfold load_user. cbn [user_table with_flashes with_session_user].
  destruct (find_exists (fun u => Z.eqb (User.id u) (User.id user)) (user_table w) user Hin)
    as [found Hfound]; [apply Z.eqb_refl|].
  rewrite Hfound. f_equal.
  pose proof (find_some _ _ Hfound) as [Hin' Hf]. apply Z.eqb_eq in Hf.
  apply (NoDup_map_injective User.id (user_table w)); try assumption.
  apply (user_ids_unique w Hok).
Qed.

Lemma login_opens_session_witness :
  respond (login demo_check_password_hash
                 (demo_login_request (lit "bob@example.org") (lit "builder"))) demo_world
  = (Redirect "dashboard",
     with_flashes [(lit "Logged in successfully.", "success"%string)]
                  (with_session_user (Some 2%Z) demo_world)).
Proof.
  apply (login_opens_session demo_check_password_hash
           (demo_login_request (lit "bob@example.org") (lit "builder")) demo_world
           (lit "bob@example.org") (lit "builder") bob (fun _ => home));
    try reflexivity.
  - apply demo_world_ok.
  - right. left. reflexivity.
Defined.

Lemma remove_fresh_project (rows : list Project.t) (p : Project.t) :
  (forall r, In r rows -> Project.id r <> Project.id p) ->
  remove_project p (rows ++ [p]) = rows.
Proof.
  intros Hfresh. unfold remove_project. rewrite filter_app. cbn [filter].
  rewrite Z.eqb_refl. cbn [negb]. rewrite app_nil_r.
  induction rows as [|r rows IH]; [reflexivity|]. cbn [filter].
  destruct (Z.eqb_spec (Project.id r) (Project.id p)) as [E|_].
  - exfalso. now apply (Hfresh r (or_introl eq_refl)).
  - cbn [negb]. f_equal. apply IH. intros r' Hin. apply Hfresh. now right.
Qed.

(** X22: creating a project and deleting it again.  After a creation
    with an accepted image, the deletion of the new id by the same user
    gives back the project table as it was before the creation; the image
    saved for the project stays in the upload folder. *)
Theorem create_then_delete :
  forall (env : Env) (request : Request) (current_user : User.t) (w : World)
         (title desc : pystr) (file : FileStorage),
    session_user w = Some (User.id current_user) ->
    load_user w (User.id current_user) = Some current_user ->
    method request = POST ->
    multi_get (form request) (lit "title") = Some title ->
    multi_get (form request) (lit "description") = Some desc ->
    multi_get (files request) (lit "image") = Some file ->
    allowed_file (filename file) = Ok true ->
    let picture_fn := token_hex env 8 ++ snd (splitext (filename file)) in
    let created := snd (respond (login_required (projects env request)) w) in
    let answer :=
      respond (login_required (delete_project env (next_project_id (project_table w))))
              created in
    fst answer = Redirect "projects" /\
    project_table (snd answer) = project_table w /\
    user_table (snd answer) = user_table w /\
    In (picture_fn, stream file) (uploads (snd answer)) /\
    uploads (snd answer) = uploads created.
Proof.
  intros env request current_user w title desc file Hsession Hloaded Hpost Htitle Hdesc
         Hfile Hallowed picture_fn created answer.
  assert (Hne : filename file <> []).
  { intros E. rewrite E in Hallowed. discriminate Hallowed. }
  pose proof (accepted_image_stored env request current_user w title desc file
                Hsession Hloaded Hpost Htitle Hdesc Hfile Hne Hallowed) as Hcreated.
  cbv zeta in Hcreated. fold picture_fn in Hcreated.
  apply (f_equal snd) in Hcreated. cbn [snd] in Hcreated. fold created in Hcreated.
  set (project := Project.mk (next_project_id (project_table w)) title (Some desc)
                             (Some picture_fn) (utcnow env)
                             (Some (User.id current_user))) in *.
  assert (Hfresh : forall r, In r (project_table w) -> Project.id r <> Project.id project).
  { intros r Hin. pose proof (next_project_id_fresh _ _ Hin). subst project.
    cbn [Project.id]. lia. }
  assert (Hfind : find (fun p => Z.eqb (Project.id p) (next_project_id (project_table w)))
                       (project_table created) = Some project).
  { rewrite Hcreated. cbn [project_table with_flashes with_projects with_uploads].
    apply find_app_fresh; [|apply Z.eqb_refl].
    intros r Hin. apply Z.eqb_neq. now apply Hfresh. }
  assert (Hanswer : answer =
            (Redirect "projects",
             with_flashes (flashes created ++ [(lit "Project deleted.", "info"%string)])
               (with_projects (remove_project project (project_table created)) created))).
  { subst answer. unfold respond.
    rewrite (login_required_authenticated _ created current_user);
      [| now rewrite Hcreated | now rewrite Hcreated].
    unfold delete_project, bind.
    rewrite (project_get_or_404_found _ created project Hfind).
    unfold not_owner. subst project. cbn [Project.user_id]. rewrite Z.eqb_refl.
    reflexivity. }
  rewrite Hanswer.
  cbn [fst snd project_table user_table uploads with_flashes with_projects].
  split; [reflexivity|]. split; [|split; [|split]].
  - rewrite Hcreated at 1. cbn [project_table with_flashes with_projects with_uploads].
    now apply remove_fresh_project.
  - now rewrite Hcreated.
  - rewrite Hcreated. cbn [uploads with_flashes with_projects with_uploads]. now left.
  - reflexivity.
Qed.

Lemma create_then_delete_witness :
  let created := snd (respond (login_required (projects demo_env demo_photo_request))
                              demo_world) in
  let answer := respond (login_required (delete_project demo_env 3)) created in
  project_table (snd answer) = project_table demo_world /\
  In (lit "3fa107c45eb2901d.JPG", stream photo) (uploads (snd answer)).
Proof.
  split;
    apply (create_then_delete demo_env demo_photo_request alice demo_world
             (lit "Holiday") (lit "By the sea") photo); reflexivity.
Defined.


(* ------------------------------------------------------------------ *)
(** ** What no request removes *)
(* ------------------------------------------------------------------ *)


Lemma grows_refl (w : World) : grows w w.
Proof.
  repeat split; try apply incl_refl. exists []. now rewrite app_nil_r.
Qed.

Lemma grows_trans (w1 w2 w3 : World) : grows w1 w2 -> grows w2 w3 -> grows w1 w3.
Proof.
  intros (Hu & Hf & m & Hm) (Hu' & Hf' & m' & Hm'). repeat split.
  - now apply (incl_tran Hu).
  - now apply (incl_tran Hf).
  - exists (m ++ m'). now rewrite Hm', Hm, app_assoc.
Qed.

Lemma grows_flash (w w' : World) (ms : list (pystr * string)) :
  grows w w' -> grows w (with_flashes (flashes w' ++ ms) w').
Proof.
  intros (Hu & Hf & m & Hm). repeat split; try assumption.
  exists (m ++ ms). cbn [flashes with_flashes]. now rewrite Hm, app_assoc.
Qed.

Lemma grows_session (w w' : World) (s : option Z) :
  grows w w' -> grows w (with_session_user s w').
Proof. intros (Hu & Hf & Hm). repeat split; assumption. Qed.

Lemma grows_projects (w w' : World) (ps : list Project.t) :
  grows w w' -> grows w (with_projects ps w').
Proof. intros (Hu & Hf & Hm). repeat split; assumption. Qed.

Lemma grows_upload (w w' : World) (name : pystr) (content : list Byte.byte) :
  grows w w' ->
  grows w (with_uploads ((name, content) ::
                         filter (fun f => negb (pystr_eqb (fst f) name)) (uploads w')) w').
Proof.
  intros (Hu & Hf & Hm). repeat split; try assumption.
  intros fn Hin. cbn [uploads with_uploads]. apply in_written. now apply Hf.
Qed.

Lemma grows_new_user (w w' : World) (row : User.t) :
  grows w w' -> grows w (with_users (user_table w' ++ [row]) w').
Proof.
  intros (Hu & Hf & Hm). repeat split; try assumption.
  cbn [user_table with_users]. rewrite map_app. intros id Hin.
  apply in_app_iff. left. now apply Hu.
Qed.

Lemma grows_update_user (w w' : World) (u : User.t) :
  grows w w' -> grows w (with_users (replace_user u (user_table w')) w').
Proof.
  intros (Hu & Hf & Hm). repeat split; try assumption.
  cbn [user_table with_users]. now rewrite replace_user_ids.
Qed.

#[local] Hint Resolve grows_refl grows_flash grows_session grows_projects grows_upload
  grows_new_user grows_update_user : grows.

Lemma view_grows (floatstr : pystr -> pystr) (float_nonzero : pystr -> bool)
                 (py_str : py_value -> pystr)
                 (generate_password_hash : pystr -> pystr -> pystr)
                 (check_password_hash : pystr -> pystr -> bool)
                 (env : Env) (e : endpoint) (request : Request) (w : World) :
  grows w (snd (view_of floatstr float_nonzero py_str generate_password_hash
                        check_password_hash env e request w)).
Proof.
  destruct e; cbn [view_of];
    unfold home, register, login, login_required, logout, dashboard, profile, projects,
           edit_project, delete_project, public_portfolio, download_portfolio;
    run_handler; split_handler; cbn [snd]; auto 8 with grows.
Qed.

Lemma serve_grows (floatstr : pystr -> pystr) (float_nonzero : pystr -> bool)
                  (py_str : py_value -> pystr)
                  (generate_password_hash : pystr -> pystr -> pystr)
                  (check_password_hash : pystr -> pystr -> bool)
                  (c : call) (w : World) :
  grows w (snd (serve floatstr float_nonzero py_str generate_password_hash
                      check_password_hash c w)).
Proof.
  unfold serve. rewrite snd_respond. unfold dispatch.
  destruct (method (call_request c)); [apply view_grows|].
  destruct (accepts_post (call_endpoint c)); [apply view_grows | apply grows_refl].
Qed.

(** X23: no request removes an account or an uploaded file.  After any
    sequence of requests, every account id of the store is still an
    account id, every file name of the upload folder is still there, and
    the flashed messages are the former ones followed by new ones.  (The
    application has no route that deletes an account or a file; projects
    can be deleted.) *)
Theorem accounts_and_uploads_are_kept :
  forall (floatstr : pystr -> pystr) (float_nonzero : pystr -> bool)
         (py_str : py_value -> pystr)
         (generate_password_hash : pystr -> pystr -> pystr)
         (check_password_hash : pystr -> pystr -> bool)
         (calls : list call) (w : World),
    let w' := run floatstr float_nonzero py_str generate_password_hash
                  check_password_hash calls w in
    (forall u, In u (user_table w) ->
               exists u', In u' (user_table w') /\ User.id u' = User.id u) /\
    (forall name content, In (name, content) (uploads w) ->
                          exists content', In (name, content') (uploads w')) /\
    exists more, flashes w' = flashes w ++ more.
Proof.
  intros fs fnz ps gph chk calls w w'.
  assert (H : grows w w').
  { subst w'. revert w. induction calls as [|c calls IH]; intros w; [apply grows_refl|].
    cbn [run]. eapply grows_trans; [apply serve_grows | apply IH]. }
  destruct H as (Hu & Hf & Hm). split; [|split; [|exact Hm]].
  - intros u Hin. apply (in_map User.id) in Hin. apply Hu in Hin.
    apply in_map_iff in Hin as (u' & Hid & Hin). now exists u'.
  - intros name content Hin. apply (in_map fst) in Hin. apply Hf in Hin.
    apply in_map_iff in Hin as ([name' content'] & Hname & Hin). cbn [fst] in Hname.
    subst name'. now exists content'.
Qed.

(* ------------------------------------------------------------------ *)
(** ** What a request does to the data of other users *)
(* ------------------------------------------------------------------ *)


Lemma spares_refl (who : option Z) (w : World) : spares who w w.
Proof. split; auto. Qed.

Lemma spares_flash (who : option Z) (w w' : World) (ms : list (pystr * string)) :
  spares who w w' -> spares who w (with_flashes ms w').
Proof. intros [Hp Hu]. split; assumption. Qed.

Lemma spares_session (who : option Z) (w w' : World) (s : option Z) :
  spares who w w' -> spares who w (with_session_user s w').
Proof. intros [Hp Hu]. split; assumption. Qed.

Lemma spares_upload (who : option Z) (w w' : World) (fs : list (pystr * list Byte.byte)) :
  spares who w w' -> spares who w (with_uploads fs w').
Proof. intros [Hp Hu]. split; assumption. Qed.

Lemma spares_new_user (who : option Z) (w w' : World) (row : User.t) :
  spares who w w' -> spares who w (with_users (user_table w' ++ [row]) w').
Proof.
  intros [Hp Hu]. split; [assumption|]. intros u Hin Hwho.
  cbn [user_table with_users]. apply in_app_iff. left. now apply Hu.
Qed.

Lemma spares_new_project (who : option Z) (w w' : World) (row : Project.t) :
  spares who w w' -> spares who w (with_projects (project_table w' ++ [row]) w').
Proof.
  intros [Hp Hu]. split; [|assumption]. intros p Hin Hwho.
  cbn [project_table with_projects]. apply in_app_iff. left. now apply Hp.
Qed.

Lemma spares_update_user (w w' : World) (u : User.t) :
  spares (Some (User.id u)) w w' ->
  spares (Some (User.id u)) w (with_users (replace_user u (user_table w')) w').
Proof.
  intros [Hp Hu]. split; [assumption|]. intros r Hin Hwho.
  cbn [user_table with_users]. unfold replace_user. apply in_map_iff. exists r.
  split; [|now apply Hu].
  destruct (Z.eqb_spec (User.id r) (User.id u)) as [E|_]; [congruence | reflexivity].
Qed.

(** In a consistent store the project of an id is the only row of that
    id. *)
Lemma project_of_id (w : World) (id : Z) (project r : Project.t) :
  store_ok w ->
  find (fun p => Z.eqb (Project.id p) id) (project_table w) = Some project ->
  In r (project_table w) -> Project.id r = Project.id project -> r = project.
Proof.
  intros Hok Hfind Hin Hid. apply find_some in Hfind as [Hin' _].
  apply (NoDup_map_injective Project.id (project_table w)); try assumption.
  apply (project_ids_unique w Hok).
Qed.

Lemma spares_update_project (who : option Z) (w : World) (w' : World) (id : Z)
                            (project edited : Project.t) :
  store_ok w ->
  project_table w' = project_table w ->
  find (fun p => Z.eqb (Project.id p) id) (project_table w) = Some project ->
  Project.user_id project = who ->
  Project.id edited = Project.id project ->
  spares who w w' ->
  spares who w (with_projects (replace_project edited (project_table w')) w').
Proof.
  intros Hok Htable Hfind Howner Hid [Hp Hu]. split; [|assumption]. intros r Hin Hwho.
  cbn [project_table with_projects]. rewrite Htable. unfold replace_project.
  apply in_map_iff. exists r. split; [|exact Hin].
  destruct (Z.eqb_spec (Project.id r) (Project.id edited)) as [E|_]; [|reflexivity].
  exfalso. apply Hwho. rewrite <- Howner. f_equal.
  apply (project_of_id w id project r Hok Hfind Hin). congruence.
Qed.

Lemma spares_delete_project (who : option Z) (w : World) (id : Z) (project : Project.t) :
  store_ok w ->
  find (fun p => Z.eqb (Project.id p) id) (project_table w) = Some project ->
  Project.user_id project = who ->
  spares who w (with_projects (remove_project project (project_table w)) w).
Proof.
  intros Hok Hfind Howner. split; [|auto]. intros r Hin Hwho.
  cbn [project_table with_projects]. unfold remove_project. apply filter_In.
  split; [exact Hin|]. apply negb_true_iff, Z.eqb_neq. intros E.
  apply Hwho. rewrite <- Howner. f_equal.
  now apply (project_of_id w id project r Hok Hfind Hin).
Qed.

#[local] Hint Resolve spares_refl spares_flash spares_session spares_upload
  spares_new_user spares_new_project : spares.

Section OtherUsers.

Variable floatstr : pystr -> pystr.
Variable float_nonzero : pystr -> bool.
Variable py_str : py_value -> pystr.
Variable generate_password_hash : pystr -> pystr -> pystr.
Variable check_password_hash : pystr -> pystr -> bool.
Variable env : Env.
Variable request : Request.
Variable w : World.
Hypothesis Hok : store_ok w.

Lemma profile_spares (current_user : User.t) :
  spares (Some (User.id current_user)) w
         (snd (profile floatstr generate_password_hash env request current_user w)).
Proof.
  unfold profile. run_handler.
  destruct (method request); [cbn [snd]; auto with spares|].
  destruct (profile_assignments_fields floatstr generate_password_hash env request
                                       current_user) as (pending & -> & Hid & _).
  cbv beta iota. destruct (user_violation (user_table w) pending); cbn [snd];
    [auto with spares|].
  apply spares_flash. rewrite <- Hid. apply spares_update_user. apply spares_refl.
Qed.

Lemma edit_project_spares (id : Z) (current_user : User.t) :
  spares (Some (User.id current_user)) w
         (snd (edit_project env id request current_user w)).
Proof.
  unfold edit_project. run_handler. split_handler; cbn [snd]; auto with spares.
  all: match goal with
       | Hfind : find _ (project_table w) = Some ?p, Hown : not_owner ?p _ = false |- _ =>
           apply owner_of in Hown; apply spares_flash;
           apply (spares_update_project _ w _ id p);
           [exact Hok | reflexivity | exact Hfind | exact Hown | reflexivity
           | auto with spares]
       end.
Qed.

Lemma delete_project_spares (id : Z) (current_user : User.t) :
  spares (Some (User.id current_user)) w (snd (delete_project env id current_user w)).
Proof.
  unfold delete_project. run_handler. split_handler; cbn [snd]; auto with spares.
  match goal with
  | Hfind : find _ (project_table w) = Some ?p, Hown : not_owner ?p _ = false |- _ =>
      apply owner_of in Hown; apply spares_flash;
      now apply (spares_delete_project _ w id p)
  end.
Qed.

Lemma view_spares (e : endpoint) :
  spares (session_user w) w
         (snd (view_of floatstr float_nonzero py_str generate_password_hash
                       check_password_hash env e request w)).
Proof.
  assert (Hrequired : forall view : User.t -> M response,
             (forall current_user,
                 spares (Some (User.id current_user)) w (snd (view current_user w))) ->
             spares (session_user w) w (snd (login_required view w))).
  { intros view Hview. unfold login_required.
    destruct (session_user w) as [uid|] eqn:Hs;
      [destruct (load_user w uid) as [u|] eqn:E|]; try (cbn; auto with spares).
    apply load_user_in in E as [_ <-]. apply Hview. }
  destruct e; cbn [view_of].
  - apply spares_refl.
  - unfold register. run_handler. split_handler; cbn [snd]; auto with spares.
  - unfold login. run_handler. split_handler; cbn [snd]; auto with spares.
  - apply Hrequired. intros u. unfold logout. run_handler. cbn [snd]. auto with spares.
  - apply Hrequired. intros u. unfold dashboard. run_handler. cbn [snd].
    auto with spares.
  - apply Hrequired. intros u. apply profile_spares.
  - apply Hrequired. intros u. unfold projects. run_handler.
    split_handler; cbn [snd]; auto 6 with spares.
  - apply Hrequired. intros u. apply edit_project_spares.
  - apply Hrequired. intros u. apply delete_project_spares.
  - unfold public_portfolio. run_handler. split_handler; cbn [snd]; auto with spares.
  - unfold download_portfolio. run_handler. split_handler; cbn [snd]; auto with spares.
Qed.

End OtherUsers.

(** X24: a request touches the data of the logged-in user only.  In a
    consistent store, whatever the request, every project that does not
    belong to the account of the session and every account other than
    that one is in the tables afterwards exactly as it was before; with
    nobody logged in, this holds for every project and every account. *)
Theorem requests_spare_other_users :
  forall (floatstr : pystr -> pystr) (float_nonzero : pystr -> bool)
         (py_str : py_value -> pystr)
         (generate_password_hash : pystr -> pystr -> pystr)
         (check_password_hash : pystr -> pystr -> bool)
         (c : call) (w : World),
    store_ok w ->
    let w' := snd (serve floatstr float_nonzero py_str generate_password_hash
                         check_password_hash c w) in
    (forall p, In p (project_table w) -> Project.user_id p <> session_user w ->
               In p (project_table w')) /\
    (forall u, In u (user_table w) -> Some (User.id u) <> session_user w ->
               In u (user_table w')).
Proof.
  intros fs fnz ps gph chk c w Hok w'. subst w'.
  unfold serve. rewrite snd_respond. unfold dispatch.
  change (spares (session_user w) w
            (snd ((match method (call_request c) with
                   | GET => view_of fs fnz ps gph chk (call_env c) (call_endpoint c)
                                    (call_request c)
                   | POST => if accepts_post (call_endpoint c)
                             then view_of fs fnz ps gph chk (call_env c)
                                          (call_endpoint c) (call_request c)
                             else abort 405
                   end) w))).
  destruct (method (call_request c)); [now apply view_spares|].
  destruct (accepts_post (call_endpoint c)); [now apply view_spares | apply spares_refl].
Qed.

(** Alice, logged in, asks for the deletion of Bob's project and posts a
    profile with Bob's name; Bob's rows stay. *)
Lemma requests_spare_other_users_witness :
  In bob_project
     (project_table (snd (serve demo_floatstr demo_float_nonzero demo_py_str
                                demo_generate_password_hash demo_check_password_hash
                                (demo_get (AtDeleteProject 2)) demo_world))) /\
  In bob
     (user_table (snd (serve demo_floatstr demo_float_nonzero demo_py_str
                             demo_generate_password_hash demo_check_password_hash
                             {| call_env := demo_env; call_endpoint := AtProfile;
                                call_request := demo_rename_request |} demo_world))).
Proof.
  split.
  - apply (requests_spare_other_users demo_floatstr demo_float_nonzero demo_py_str
             demo_generate_password_hash demo_check_password_hash
             (demo_get (AtDeleteProject 2)) demo_world demo_world_ok).
    + right. left. reflexivity.
    + discriminate.
  - apply (requests_spare_other_users demo_floatstr demo_float_nonzero demo_py_str
             demo_generate_password_hash demo_check_password_hash
             {| call_env := demo_env; call_endpoint := AtProfile;
                call_request := demo_rename_request |} demo_world demo_world_ok).
    + right. left. reflexivity.
    + discriminate.
Defined.

(* ------------------------------------------------------------------ *)
(** ** Saving the same profile twice *)
(* ------------------------------------------------------------------ *)

Lemma replace_user_twice (u : User.t) (rows : list User.t) :
  replace_user u (replace_user u rows) = replace_user u rows.
Proof.
  unfold replace_user. rewrite map_map. apply map_ext. intros r.
  destruct (Z.eqb_spec (User.id r) (User.id u)) as [E|E].
  - now rewrite Z.eqb_refl.
  - destruct (Z.eqb_spec (User.id r) (User.id u)); [contradiction | reflexivity].
Qed.

Lemma user_violation_after_update (u : User.t) (rows : list User.t) :
  user_violation rows u = None -> user_violation (replace_user u rows) u = None.
Proof.
  intros H. pose proof (user_violation_none _ _ H) as [Hname Hother].
  unfold user_violation. destruct (User.username u) as [n|] eqn:Hn; [|contradiction].
  assert (H1 : existsb (fun r => negb (Z.eqb (User.id r) (User.id u)) &&
                                 column_eqb (User.username r) (Some n))
                       (replace_user u rows) = false).
  { apply not_true_is_false. intros E. apply existsb_exists in E as (r & Hin & E).
    apply andb_true_iff in E as [Hid E]. apply negb_true_iff, Z.eqb_neq in Hid.
    apply column_eqb_eq in E. apply in_replace_user in Hin as [-> | Hin]; [contradiction|].
    apply (proj1 (Hother r Hin Hid)). congruence. }
  assert (H2 : existsb (fun r => negb (Z.eqb (User.id r) (User.id u)) &&
                                 pystr_eqb (User.email r) (User.email u))
                       (replace_user u rows) = false).
  { apply not_true_is_false. intros E. apply existsb_exists in E as (r & Hin & E).
    apply andb_true_iff in E as [Hid E]. apply negb_true_iff, Z.eqb_neq in Hid.
    apply pystr_eqb_eq in E. apply in_replace_user in Hin as [-> | Hin]; [contradiction|].
    now apply (proj2 (Hother r Hin Hid)). }
  now rewrite H1, H2.
Qed.

(** X25: saving the same profile form a second time changes nothing more.
    When the form brings no new password, the account that a first
    accepted update stored is a fixed point of the assignments of
    [profile], and a second update with the same form leaves the user
    table as the first one left it. *)
Theorem profile_update_is_idempotent :
  forall (floatstr : pystr -> pystr) (generate_password_hash : pystr -> pystr -> pystr)
         (env : Env) (request : Request) (current_user pending : User.t) (w : World),
    method request = POST ->
    (multi_get (form request) (lit "new_password") = None \/
     multi_get (form request) (lit "new_password") = Some []) ->
    session_user w = Some (User.id current_user) ->
    load_user w (User.id current_user) = Some current_user ->
    profile_assignments floatstr generate_password_hash env request current_user
    = Ok pending ->
    user_violation (user_table w) pending = None ->
    let route := login_required (profile floatstr generate_password_hash env request) in
    let once := snd (respond route w) in
    let twice := snd (respond route once) in
    profile_assignments floatstr generate_password_hash env request pending = Ok pending /\
    user_table once = replace_user pending (user_table w) /\
    user_table twice = user_table once /\
    project_table twice = project_table w /\
    uploads twice = uploads w.
Proof.
  intros fs gph env request current_user pending w Hpost Hpw Hsession Hloaded Hpending
         Hpass route once twice.
  assert (Hfixed : profile_assignments fs gph env request pending = Ok pending).
  { revert Hpending. unfold profile_assignments.
    destruct (build_certs _ _ _) as [certs|]; [|discriminate]. cbn [rbind].
    intros [= <-]. f_equal.
    destruct Hpw as [-> | ->]; destruct current_user;
      cbv beta iota zeta delta
          [User.set_username User.set_password User.set_tagline User.set_bio
           User.set_course User.set_faction User.set_avatar_url User.set_status
           User.set_skills User.set_public_email User.set_linkedin User.set_github
           User.set_certifications User.set_certifications_data
           User.id User.username User.email User.password User.tagline User.bio
           User.course User.faction User.avatar_url User.status User.skills
           User.public_email User.linkedin User.github User.certifications_data
           str_truthy];
      reflexivity. }
  assert (Hid : User.id pending = User.id current_user).
  { destruct (profile_assignments_fields fs gph env request current_user)
      as (pending' & Hp & Hid & _). congruence. }
  assert (Honce : once = with_flashes
                           (flashes w ++ [(lit "Profile updated successfully!",
                                           "success"%string)])
                           (with_users (replace_user pending (user_table w)) w)).
  { subst once route. unfold respond at 1.
    rewrite (login_required_authenticated _ w current_user Hsession Hloaded).
    fold (respond (profile fs gph env request current_user) w).
    now rewrite (profile_post_commits fs gph env request current_user pending w
                   Hpost Hpending Hpass). }
  assert (Hloaded' : load_user once (User.id pending) = Some pending).
  { rewrite Honce. unfold load_user. cbn [user_table with_flashes with_users].
    apply (find_replace_user _ current_user). unfold load_user in Hloaded.
    now rewrite Hid. }
  assert (Htwice : twice = with_flashes
                             (flashes once ++ [(lit "Profile updated successfully!",
                                                "success"%string)])
                             (with_users (replace_user pending (user_table once)) once)).
  { subst twice route. unfold respond at 1.
    rewrite (login_required_authenticated _ once pending);
      [| rewrite Honce; cbn [session_user with_flashes with_users]; congruence
       | exact Hloaded'].
    fold (respond (profile fs gph env request pending) once).
    rewrite (profile_post_commits fs gph env request pending pending once
               Hpost Hfixed); [reflexivity|].
    rewrite Honce. cbn [user_table with_flashes with_users].
    now apply user_violation_after_update. }
  split; [exact Hfixed|]. split; [now rewrite Honce|].
  rewrite Htwice. cbn [user_table project_table uploads with_flashes with_users].
  split; [|now rewrite Honce].
  rewrite Honce. cbn [user_table with_flashes with_users]. apply replace_user_twice.
Qed.

Lemma profile_update_is_idempotent_witness :
  let route := login_required (profile demo_floatstr demo_generate_password_hash demo_env
                                       demo_profile_request) in
  user_table (snd (respond route (snd (respond route demo_world))))
  = user_table (snd (respond route demo_world)).
Proof.
  destruct (profile_assignments_fields demo_floatstr demo_generate_password_hash demo_env
              demo_profile_request alice) as (pending & Hpending & _).
  apply (profile_update_is_idempotent demo_floatstr demo_generate_password_hash demo_env
           demo_profile_request alice pending demo_world); try reflexivity.
  - right. reflexivity.
  - exact Hpending.
  - revert Hpending. vm_compute. intros [= <-]. reflexivity.
Defined.
